(** * SUEPML: the quantization-aware distributed training loop

    A shallow embedding of [jet-ssd-train.py]: the function [execute] with
    its helpers [is_first_or_last], [reduce_tensor], [setup] and [cleanup].

    Conventions of the embedding.
    - Floating-point scalars are idealised as rationals ([Q]); a weight
      tensor is the flat list of its elements.
    - [execute] is a state-and-exception computation over one rank's
      process state.  A raised Python exception keeps the state reached so
      far, so that the calls made before it remain visible.
    - Calls that leave the process (network forward, optimizer step,
      collectives, logging, group setup and teardown) are recorded, in
      order, in the [trace] of the state.
    - The network, the loss module, autograd, the optimizer and the FLOP
      regularizer are collaborators outside the repository's two source
      files; they are taken as parameters ([Collaborators]).
    - Within one rank's run a collective call ([init_process_group],
      [all_reduce], [barrier]) is recorded and taken to return, with the
      peers' contribution given by [peers].  Whether it does return is a
      matter of the group: [world_step] takes the calls of all the ranks
      and lets a rendezvous return only once every rank has entered it.
      A statement that a rank gets past a collective call therefore names
      the group it holds in.
    - [Config] and [initial_state] stand for a call of [execute] whose
      lines 57-152 have built their objects (loaders, network, optimizer,
      schedule, loss module, meters) from the arguments; the reads of the
      argument dictionaries are not part of the embedding.
    - The embedding covers runs with [int8 = False]; [verbose] only drives a
      progress bar and the plotting calls only draw, so both are left out. *)

From Stdlib Require Import String List ZArith QArith Qminmax Lia Bool Arith.
From Stdlib Require Import Qpower DecimalString DecimalNat.
Import ListNotations.
Close Scope Q_scope.
Open Scope nat_scope.

Set Implicit Arguments.

(* ------------------------------------------------------------------ *)
(** ** Tensors, parameters and modules *)

Definition tensor := list Q.

(** [torch.nn.Parameter] as the training loop uses it: the tensor [data],
    and the attributes [org], [delta] and [alpha] that the loop attaches to
    the object; an attribute that was never assigned is [None]. *)
Record Param := mkParam {
  data : tensor;
  org : option tensor;
  delta : option Q;
  alpha : option Q
}.

Definition set_data (t : tensor) (p : Param) : Param :=
  mkParam t (org p) (delta p) (alpha p).
Definition set_org (t : tensor) (p : Param) : Param :=
  mkParam (data p) (Some t) (delta p) (alpha p).
Definition set_delta_alpha (d a : Q) (p : Param) : Param :=
  mkParam (data p) (org p) (Some d) (Some a).

(** The members of [net.modules()]: a convolution with its structural
    attributes, or any other module. *)
Inductive Module :=
| Conv2d (kernel_size : nat * nat) (in_channels out_channels : nat)
         (weight : Param)
| OtherModule (weight : Param).

Definition weight_of (m : Module) : Param :=
  match m with
  | Conv2d _ _ _ w => w
  | OtherModule w => w
  end.

Definition with_weight (w : Param) (m : Module) : Module :=
  match m with
  | Conv2d k i o _ => Conv2d k i o w
  | OtherModule _ => OtherModule w
  end.

Definition weights (ms : list Module) : list tensor :=
  map (fun m => data (weight_of m)) ms.

(** Number of elements of a convolution weight of the given shape. *)
Definition numel (m : Module) : nat :=
  match m with
  | Conv2d (kh, kw) i o _ => o * i * kh * kw
  | OtherModule w => List.length (data w)
  end.

Definition well_shaped (m : Module) : bool :=
  List.length (data (weight_of m)) =? numel m.

(** [is_first_or_last(layer)] *)
Definition is_first_or_last (layer : Module) : bool :=
  match layer with
  | Conv2d (kh, kw) in_channels out_channels _ =>
      ((kh =? 3) && (kw =? 3)) && (3 <? in_channels) && (4 <? out_channels)
  | OtherModule _ => false
  end.

(* ------------------------------------------------------------------ *)
(** ** Exceptions and results *)

Inductive exn :=
| NameError (name : string)
| AttributeError (attr : string)
| IndexError
| KeyError (key : string)
| ValueError.

Inductive result (A : Type) :=
| Ok (a : A)
| Raise (e : exn).
Arguments Ok {A} a.
Arguments Raise {A} e.

Definition is_ok {A} (r : result A) : bool :=
  match r with Ok _ => true | Raise _ => false end.

Definition local {A} (name : string) (o : option A) : result A :=
  match o with
  | Some a => Ok a
  | None => Raise (NameError name)
  end.

(** [xs[i]] for a non-negative index. *)
Definition index {A} (xs : list A) (i : nat) : result A :=
  match nth_error xs i with
  | Some a => Ok a
  | None => Raise IndexError
  end.

(* ------------------------------------------------------------------ *)
(** ** The averaging meter *)

(** Modelled from the spec: [utils.AverageMeter] is not among the source
    files.  The spec's EpochAccumulator is the running mean of a component
    over a pass, reset at pass start; [update] takes one value per batch. *)
Record AverageMeter := mkMeter {
  m_val : Q;
  m_sum : Q;
  m_count : nat;
  m_avg : Q
}.

Definition meter_reset : AverageMeter := mkMeter 0%Q 0%Q 0 0%Q.

Definition meter_update (v : Q) (m : AverageMeter) : AverageMeter :=
  let s := (m_sum m + v)%Q in
  let n := S (m_count m) in
  mkMeter v s n (s / inject_Z (Z.of_nat n))%Q.

Inductive meter_id :=
| disco | loc | cls | reg
| boxPreSUEP | boxPreQCD | boxRecSUEP | boxRecQCD
| eventPre | eventRec.

Definition meter_id_eqb (a b : meter_id) : bool :=
  match a, b with
  | disco, disco | loc, loc | cls, cls | reg, reg
  | boxPreSUEP, boxPreSUEP | boxPreQCD, boxPreQCD
  | boxRecSUEP, boxRecSUEP | boxRecQCD, boxRecQCD
  | eventPre, eventPre | eventRec, eventRec => true
  | _, _ => false
  end.

(* ------------------------------------------------------------------ *)
(** ** Early stopping *)

(** Modelled from the spec: [ssd.checkpoints.EarlyStopping] is not among
    the source files.  Spec 4.4: an objective strictly better than the best
    seen resets the patience counter and persists a checkpoint; otherwise
    the counter is incremented and the gate halts once it reaches the
    configured patience. *)
Record EarlyStopping := mkES {
  patience : nat;
  best : option Q;
  counter : nat
}.

Definition improves (objective : Q) (b : option Q) : bool :=
  match b with
  | None => true
  | Some q => negb (Qle_bool q objective)
  end.

(** [cp_es(objective, model)]: the new gate state, whether a checkpoint was
    written, and the halt decision. *)
Definition es_call (objective : Q) (es : EarlyStopping)
  : EarlyStopping * bool * bool :=
  if improves objective (best es)
  then (mkES (patience es) (Some objective) 0, true, false)
  else let n := S (counter es) in
       (mkES (patience es) (best es) n, false, patience es <=? n).

(* ------------------------------------------------------------------ *)
(** ** The learning-rate schedule *)

(** [torch.optim.lr_scheduler.MultiStepLR]: [step()] increments
    [last_epoch] and multiplies the rate by [gamma] once for every
    occurrence of the new [last_epoch] among the milestones. *)
Record Scheduler := mkSched {
  milestones : list nat;
  gamma : Q;
  last_epoch : nat;
  lr : Q
}.

Definition MultiStepLR (base_lr : Q) (ms : list nat) (g : Q) : Scheduler :=
  mkSched ms g 0 base_lr.

Definition scheduler_step (s : Scheduler) : Scheduler :=
  let e := S (last_epoch s) in
  let k := count_occ Nat.eq_dec (milestones s) e in
  mkSched (milestones s) (gamma s) e (lr s * gamma s ^ Z.of_nat k)%Q.

(** The milestones and decay factor [execute] passes to the scheduler. *)
Definition execute_milestones : list nat := [20; 30; 50; 60; 70; 80; 90].
Definition execute_gamma : Q := (1 # 2)%Q.

(* ------------------------------------------------------------------ *)
(** ** Ternary quantization *)

(** Modelled from the spec: [ssd.qutils.to_ternary] is not among the source
    files.  Spec 4.1: the weight is overwritten with a ternary-valued
    tensor, each element in {-alpha, 0, +alpha}, derived by thresholding
    against [delta]. *)
Definition ternarize (d a : Q) (t : tensor) : tensor :=
  map (fun x =>
         if negb (Qle_bool x d) then a
         else if negb (Qle_bool (- d) x) then (- a)%Q
         else 0%Q) t.

(** [tensor.clamp_(-1, 1)] *)
Definition clamp (lo hi : Q) (t : tensor) : tensor :=
  map (fun x => Qmin (Qmax x lo) hi) t.

(* ------------------------------------------------------------------ *)
(** ** Collaborators *)

(** What the loss module returns for one batch: the loss terms (the
    decorrelation term is read in disco mode only) and the box-level and
    event-level precision/recall metrics. *)
Record CritOut := mkCritOut {
  out_l : Q;
  out_c : Q;
  out_r : Q;
  out_d : Q;
  out_boxMetrics : list (list Q);
  out_eventMetrics : list Q
}.

(** The parts of the run that live outside the two source files.
    - [get_delta], [get_alpha]: [ssd.qutils]; the spec leaves the statistics
      to the implementation.
    - [criterion training disco modules b]: [net(images)] followed by the
      loss module, at the weights the modules hold at that moment.
    - [get_regularization]: the FLOP regularizer.
    - [backward]: autograd, at the weights held during the backward pass.
    - [sgd_update], [sgd_next]: the optimizer behind [scaler.step]; the new
      value of the [i]-th weight from its current value, and the next
      optimizer state. *)
Record Collaborators := mkCollab {
  batch : Type;
  grads : Type;
  ostate : Type;
  get_delta : tensor -> Q;
  get_alpha : tensor -> Q -> Q;
  criterion : bool -> bool -> list Module -> batch -> CritOut;
  get_regularization : list Module -> Q;
  backward : bool -> list Module -> batch -> grads;
  sgd_update : ostate -> Q -> grads -> nat -> tensor -> tensor;
  sgd_next : ostate -> grads -> ostate
}.

(* ------------------------------------------------------------------ *)
(** ** Observable calls *)

Inductive Info :=
| InfoEpoch (epoch : nat) (avgs : list Q)
| InfoValidation (avgs : list Q).

Inductive event :=
| EvInitProcessGroup (rank world_size : nat)
| EvForward (training : bool) (ws : list tensor)
| EvOptimizerStep (rate : Q) (ws : list tensor)
| EvAllReduce (contribution : Q)
| EvBarrier
| EvLog (i : Info)
| EvCheckpoint (objective : Q)
| EvDestroyProcessGroup.

Inductive hist_id :=
| train_loss | val_loss
| train_metrics | val_metrics
| train_boxmetrics | val_boxmetrics.

Definition hist_id_eqb (a b : hist_id) : bool :=
  match a, b with
  | train_loss, train_loss | val_loss, val_loss
  | train_metrics, train_metrics | val_metrics, val_metrics
  | train_boxmetrics, train_boxmetrics
  | val_boxmetrics, val_boxmetrics => true
  | _, _ => false
  end.

(** [os.environ] *)
Definition Environ := list (string * string).

Fixpoint env_get (k : string) (env : Environ) : option string :=
  match env with
  | [] => None
  | (k', v) :: rest => if String.eqb k k' then Some v else env_get k rest
  end.

Definition env_set (k v : string) (env : Environ) : Environ :=
  (k, v) :: filter (fun kv => negb (String.eqb k (fst kv))) env.

(** [str(n)] and [int(s)] on the decimal numerals that [str] produces. *)
Definition str (n : nat) : string := NilEmpty.string_of_uint (Nat.to_uint n).

Definition int (s : string) : result nat :=
  match NilEmpty.uint_of_string s with
  | Some u => Ok (Nat.of_uint u)
  | None => Raise ValueError
  end.

(* ------------------------------------------------------------------ *)
(** ** Process state of one rank *)

Section Process.

Variable X : Collaborators.

(** The objects and local variables of [execute] that outlive a statement.
    [info], [boxMetrics] and [rflop] are locals bound only inside a batch
    loop; [cp_es] is bound on rank 0 only; [n_reduce] counts the
    [all_reduce] calls made so far. *)
Record State := mkState {
  modules : list Module;
  optimizer : ostate X;
  scheduler : Scheduler;
  cp_es : option EarlyStopping;
  meters : meter_id -> AverageMeter;
  info : option Info;
  boxMetrics : option (list (list Q));
  rflop : option Q;
  history : hist_id -> list (list Q);
  environ : Environ;
  n_reduce : nat;
  trace : list event
}.

Definition set_modules (v : list Module) (s : State) : State :=
  mkState v (optimizer s) (scheduler s) (cp_es s) (meters s) (info s)
          (boxMetrics s) (rflop s) (history s) (environ s) (n_reduce s)
          (trace s).
Definition set_optimizer (v : ostate X) (s : State) : State :=
  mkState (modules s) v (scheduler s) (cp_es s) (meters s) (info s)
          (boxMetrics s) (rflop s) (history s) (environ s) (n_reduce s)
          (trace s).
Definition set_scheduler (v : Scheduler) (s : State) : State :=
  mkState (modules s) (optimizer s) v (cp_es s) (meters s) (info s)
          (boxMetrics s) (rflop s) (history s) (environ s) (n_reduce s)
          (trace s).
Definition set_cp_es (v : option EarlyStopping) (s : State) : State :=
  mkState (modules s) (optimizer s) (scheduler s) v (meters s) (info s)
          (boxMetrics s) (rflop s) (history s) (environ s) (n_reduce s)
          (trace s).
Definition set_meters (v : meter_id -> AverageMeter) (s : State) : State :=
  mkState (modules s) (optimizer s) (scheduler s) (cp_es s) v (info s)
          (boxMetrics s) (rflop s) (history s) (environ s) (n_reduce s)
          (trace s).
Definition set_info (v : option Info) (s : State) : State :=
  mkState (modules s) (optimizer s) (scheduler s) (cp_es s) (meters s) v
          (boxMetrics s) (rflop s) (history s) (environ s) (n_reduce s)
          (trace s).
Definition set_boxMetrics (v : option (list (list Q))) (s : State) : State :=
  mkState (modules s) (optimizer s) (scheduler s) (cp_es s) (meters s)
          (info s) v (rflop s) (history s) (environ s) (n_reduce s)
          (trace s).
Definition set_rflop (v : option Q) (s : State) : State :=
  mkState (modules s) (optimizer s) (scheduler s) (cp_es s) (meters s)
          (info s) (boxMetrics s) v (history s) (environ s) (n_reduce s)
          (trace s).
Definition set_history (v : hist_id -> list (list Q)) (s : State) : State :=
  mkState (modules s) (optimizer s) (scheduler s) (cp_es s) (meters s)
          (info s) (boxMetrics s) (rflop s) v (environ s) (n_reduce s)
          (trace s).
Definition set_environ (v : Environ) (s : State) : State :=
  mkState (modules s) (optimizer s) (scheduler s) (cp_es s) (meters s)
          (info s) (boxMetrics s) (rflop s) (history s) v (n_reduce s)
          (trace s).
Definition set_n_reduce (v : nat) (s : State) : State :=
  mkState (modules s) (optimizer s) (scheduler s) (cp_es s) (meters s)
          (info s) (boxMetrics s) (rflop s) (history s) (environ s) v
          (trace s).
Definition set_trace (v : list event) (s : State) : State :=
  mkState (modules s) (optimizer s) (scheduler s) (cp_es s) (meters s)
          (info s) (boxMetrics s) (rflop s) (history s) (environ s)
          (n_reduce s) v.

(** *** The state-and-exception monad *)

Definition M (A : Type) : Type := State -> State * result A.

Definition ret {A} (a : A) : M A := fun s => (s, Ok a).

Definition bind {A B} (m : M A) (k : A -> M B) : M B :=
  fun s =>
    match m s with
    | (s', Ok a) => k a s'
    | (s', Raise e) => (s', Raise e)
    end.

Definition get : M State := fun s => (s, Ok s).
Definition modify (f : State -> State) : M unit := fun s => (f s, Ok tt).
Definition lift {A} (r : result A) : M A := fun s => (s, r).
Definition emit (e : event) : M unit :=
  modify (fun s => set_trace (trace s ++ [e]) s).
Definition when (b : bool) (m : M unit) : M unit :=
  if b then m else ret tt.

Notation "x <- m ;; k" := (bind m (fun x => k))
  (at level 61, m at next level, right associativity).
Notation "m ;; k" := (bind m (fun _ => k))
  (at level 61, right associativity).

(** [for x in xs: body(x)] *)
Fixpoint for_each {A} (xs : list A) (body : A -> M unit) : M unit :=
  match xs with
  | [] => ret tt
  | x :: rest => body x ;; for_each rest body
  end.

(** [for m in net.modules(): f(m)], where [f] mutates the module and may
    raise; the modules visited before a raise keep their mutation. *)
Fixpoint each_module (f : Module -> Module * option exn) (ms : list Module)
  : list Module * option exn :=
  match ms with
  | [] => ([], None)
  | m :: rest =>
      match f m with
      | (m', Some e) => (m' :: rest, Some e)
      | (m', None) =>
          let (rest', e) := each_module f rest in (m' :: rest', e)
      end
  end.

Definition for_modules (f : Module -> Module * option exn) : M unit :=
  fun s =>
    match each_module f (modules s) with
    | (ms, None) => (set_modules ms s, Ok tt)
    | (ms, Some e) => (set_modules ms s, Raise e)
    end.

Definition update (id : meter_id) (v : Q) : M unit :=
  modify (fun s =>
    set_meters (fun j => if meter_id_eqb id j
                         then meter_update v (meters s j)
                         else meters s j) s).

Definition reset_meters : M unit :=
  modify (set_meters (fun _ => meter_reset)).

Definition avg (s : State) (id : meter_id) : Q := m_avg (meters s id).

(** [h = torch.cat((h, column), 1)] *)
Definition append_column (h : hist_id) (column : list Q) : M unit :=
  modify (fun s =>
    set_history (fun j => if hist_id_eqb h j
                          then history s j ++ [column]
                          else history s j) s).

(** *** Arguments of [execute] *)

(** The arguments of [execute] that the loop reads, with the loaders as
    the finite sequences of batches they yield each epoch, the modules and
    optimizer state as built before the loop, and, for the collectives,
    [peers k]: the sum the other ranks contribute to this rank's [k]-th
    [all_reduce]. *)
Record Config := mkConfig {
  rank : nat;
  world_size : nat;
  ternary : bool;
  flop_regularizer : bool;
  disco_mode : bool;
  learning_rate : Q;
  pref_patience : nat;
  max_epochs : nat;
  train_loader : list (batch X);
  val_loader : list (batch X);
  ssd_net : list Module;
  optimizer0 : ostate X;
  peers : nat -> Q
}.

Variable cfg : Config.

(** *** Quantizer steps on one module *)

(** Modelled from the spec: [ssd.qutils.to_ternary(tensor, delta, alpha)]
    with both thresholds optional; section 9 of the spec notes that the call
    without them recomputes [delta] and [alpha] from the tensor it is
    given. *)
Definition to_ternary (t : tensor) (d a : option Q) : tensor :=
  let d' := match d with Some q => q | None => get_delta X t end in
  let a' := match a with Some q => q | None => get_alpha X t d' end in
  ternarize d' a' t.

(** Lines 179-183: the per-epoch refresh. *)
Definition refresh_quantization (m : Module) : Module * option exn :=
  if is_first_or_last m then
    let w := weight_of m in
    let d := get_delta X (data w) in
    (with_weight (set_delta_alpha d (get_alpha X (data w) d) w) m, None)
  else (m, None).

(** Lines 189-194: save the shadow, then ternarize with the stored
    thresholds. *)
Definition shadow_and_ternarize (m : Module) : Module * option exn :=
  if is_first_or_last m then
    let w := set_org (data (weight_of m)) (weight_of m) in
    match delta w, alpha w with
    | Some d, Some a =>
        (with_weight (set_data (to_ternary (data w) (Some d) (Some a)) w) m,
         None)
    | None, _ => (with_weight w m, Some (AttributeError "delta"))
    | _, None => (with_weight w m, Some (AttributeError "alpha"))
    end
  else (m, None).

(** Lines 236-238: [m.weight.data.copy_(m.weight.org)]. *)
Definition restore (m : Module) : Module * option exn :=
  if is_first_or_last m then
    match org (weight_of m) with
    | Some o => (with_weight (set_data o (weight_of m)) m, None)
    | None => (m, Some (AttributeError "org"))
    end
  else (m, None).

(** Lines 245-247: [m.weight.org.copy_(m.weight.data.clamp_(-1, 1))]. *)
Definition clamp_and_rebase (m : Module) : Module * option exn :=
  if is_first_or_last m then
    match org (weight_of m) with
    | Some _ =>
        let t := clamp (-1) 1 (data (weight_of m)) in
        (with_weight (set_org t (set_data t (weight_of m))) m, None)
    | None => (m, Some (AttributeError "org"))
    end
  else (m, None).

(** Lines 292-295: the validation pass saves the shadow and calls
    [to_ternary] with the tensor alone. *)
Definition shadow_and_ternarize_eval (m : Module) : Module * option exn :=
  if is_first_or_last m then
    let w := set_org (data (weight_of m)) (weight_of m) in
    (with_weight (set_data (to_ternary (data w) None None) w) m, None)
  else (m, None).

(** Lines 366-368: [m.weight.org.copy_(m.weight.data)]. *)
Definition rebase_shadow (m : Module) : Module * option exn :=
  if is_first_or_last m then
    match org (weight_of m) with
    | Some _ => (with_weight (set_org (data (weight_of m)) (weight_of m)) m,
                 None)
    | None => (m, Some (AttributeError "org"))
    end
  else (m, None).

(** *** Process-group helpers *)

(** [setup(rank, world_size)] *)
Definition setup (rank world_size : nat) : M unit :=
  modify (fun s => set_environ (env_set "MASTER_ADDR" "127.0.0.1" (environ s)) s) ;;
  modify (fun s => set_environ (env_set "MASTER_PORT" "11223" (environ s)) s) ;;
  modify (fun s => set_environ (env_set "WORLD_SIZE" (str world_size) (environ s)) s) ;;
  modify (fun s => set_environ (env_set "RANK" (str rank) (environ s)) s) ;;
  emit (EvInitProcessGroup rank world_size).

(** [cleanup()] *)
Definition cleanup : M unit := emit EvDestroyProcessGroup.

(** [dist.all_reduce(t)]: the sum over all ranks, this rank's own value
    plus what its peers contribute to this call. *)
Definition all_reduce (x : Q) : M Q :=
  s <- get ;;
  emit (EvAllReduce x) ;;
  modify (set_n_reduce (S (n_reduce s))) ;;
  ret (x + peers cfg (n_reduce s))%Q.

(** [int(os.environ[key])] *)
Definition environ_int (key : string) : M nat :=
  s <- get ;;
  match env_get key (environ s) with
  | None => lift (Raise (KeyError key))
  | Some v => lift (int v)
  end.

Definition divide (x : Q) (n : nat) : Q := (x / inject_Z (Z.of_nat n))%Q.

(** [reduce_tensor(loc, cls, reg, disco=None)] *)
Definition reduce_tensor (loc cls reg : Q) (disco : option Q)
  : M (Q * Q * Q * option Q) :=
  loc <- all_reduce loc ;;
  cls <- all_reduce cls ;;
  reg <- all_reduce reg ;;
  n <- environ_int "WORLD_SIZE" ;;
  let loc := divide loc n in
  n <- environ_int "WORLD_SIZE" ;;
  let cls := divide cls n in
  n <- environ_int "WORLD_SIZE" ;;
  let reg := divide reg n in
  match disco with
  | Some d =>
      d <- all_reduce d ;;
      n <- environ_int "WORLD_SIZE" ;;
      ret (loc, cls, reg, Some (divide d n))
  | None => ret (loc, cls, reg, None)
  end.

(** *** One training batch (lines 185-257) *)

Definition index2 (xs : list (list Q)) (i j : nat) : result Q :=
  match index xs i with
  | Ok row => index row j
  | Raise e => Raise e
  end.

(** [scaler.step(optimizer)]: every weight is replaced by the optimizer's
    update of its current value. *)
Fixpoint apply_update (f : nat -> tensor -> tensor) (i : nat)
  (ms : list Module) : list Module :=
  match ms with
  | [] => []
  | m :: rest =>
      with_weight (set_data (f i (data (weight_of m))) (weight_of m)) m
      :: apply_update f (S i) rest
  end.

Definition optimizer_step (g : grads X) : M unit :=
  s <- get ;;
  emit (EvOptimizerStep (lr (scheduler s)) (weights (modules s))) ;;
  modify (fun s =>
    set_modules
      (apply_update (sgd_update X (optimizer s) (lr (scheduler s)) g) 0
                    (modules s)) s) ;;
  modify (fun s => set_optimizer (sgd_next X (optimizer s) g) s).

Definition train_info (epoch : nat) (s : State) : Info :=
  if disco_mode cfg
  then InfoEpoch epoch [avg s loc; avg s cls; avg s reg; avg s disco;
                        avg s eventPre; avg s eventRec]
  else InfoEpoch epoch [avg s loc; avg s cls; avg s reg;
                        avg s eventPre; avg s eventRec].

Definition train_batch (epoch : nat) (b : batch X) : M unit :=
  when (ternary cfg) (for_modules shadow_and_ternarize) ;;
  s <- get ;;
  modify (set_rflop
            (Some (if flop_regularizer cfg
                   then get_regularization X (modules s)
                   else 0%Q))) ;;
  emit (EvForward true (weights (modules s))) ;;
  let out := criterion X true (disco_mode cfg) (modules s) b in
  modify (set_boxMetrics (Some (out_boxMetrics out))) ;;
  when (disco_mode cfg) (update disco (out_d out)) ;;
  update loc (out_l out) ;;
  update cls (out_c out) ;;
  update reg (out_r out) ;;
  v <- lift (index2 (out_boxMetrics out) 0 1) ;; update boxPreSUEP v ;;
  v <- lift (index2 (out_boxMetrics out) 0 2) ;; update boxPreQCD v ;;
  v <- lift (index2 (out_boxMetrics out) 1 1) ;; update boxRecSUEP v ;;
  v <- lift (index2 (out_boxMetrics out) 1 2) ;; update boxRecQCD v ;;
  v <- lift (index (out_eventMetrics out) 0) ;; update eventPre v ;;
  v <- lift (index (out_eventMetrics out) 1) ;; update eventRec v ;;
  s <- get ;;
  let g := backward X (disco_mode cfg) (modules s) b in
  when (ternary cfg) (for_modules restore) ;;
  optimizer_step g ;;
  when (ternary cfg) (for_modules clamp_and_rebase) ;;
  s <- get ;;
  modify (set_info (Some (train_info epoch s))).

(** *** One validation batch (lines 297-329) *)

Definition val_info (s : State) : Info :=
  if disco_mode cfg
  then InfoValidation [avg s loc; avg s cls; avg s reg; avg s disco;
                       avg s eventPre; avg s eventRec]
  else InfoValidation [avg s loc; avg s cls; avg s reg;
                       avg s eventPre; avg s eventRec].

(** The box-level updates of lines 316-319 read the local [boxMetrics],
    which only the training loop assigns; [boxMetricsVal] is not read. *)
Definition validation_batch (b : batch X) : M unit :=
  s <- get ;;
  emit (EvForward false (weights (modules s))) ;;
  let out := criterion X false (disco_mode cfg) (modules s) b in
  lcr <- (if disco_mode cfg
          then lcrd <- reduce_tensor (out_l out) (out_c out) (out_r out)
                                     (Some (out_d out)) ;;
               match snd lcrd with
               | Some d => update disco d
               | None => ret tt
               end ;;
               ret (fst lcrd)
          else lcrd <- reduce_tensor (out_l out) (out_c out) (out_r out)
                                     None ;;
               ret (fst lcrd)) ;;
  update loc (fst (fst lcr)) ;;
  update cls (snd (fst lcr)) ;;
  update reg (snd lcr) ;;
  s <- get ;;
  bm <- lift (local "boxMetrics" (boxMetrics s)) ;;
  v <- lift (index2 bm 0 1) ;; update boxPreSUEP v ;;
  s <- get ;;
  bm <- lift (local "boxMetrics" (boxMetrics s)) ;;
  v <- lift (index2 bm 0 2) ;; update boxPreQCD v ;;
  s <- get ;;
  bm <- lift (local "boxMetrics" (boxMetrics s)) ;;
  v <- lift (index2 bm 1 1) ;; update boxRecSUEP v ;;
  s <- get ;;
  bm <- lift (local "boxMetrics" (boxMetrics s)) ;;
  v <- lift (index2 bm 1 2) ;; update boxRecQCD v ;;
  v <- lift (index (out_eventMetrics out) 0) ;; update eventPre v ;;
  v <- lift (index (out_eventMetrics out) 1) ;; update eventRec v ;;
  s <- get ;;
  modify (set_info (Some (val_info s))).

(** *** One epoch (lines 153-369) *)

Definition loss_column (s : State) : list Q :=
  if disco_mode cfg
  then [avg s loc; avg s cls; avg s reg; avg s disco]
  else [avg s loc; avg s cls; avg s reg].

Definition metrics_column (s : State) : list Q :=
  [avg s eventPre; avg s eventRec].

Definition boxmetrics_column (s : State) : list Q :=
  [avg s boxPreSUEP; avg s boxPreQCD; avg s boxRecSUEP; avg s boxRecQCD].

Definition Qsum (xs : list Q) : Q := fold_right Qplus 0%Q xs.

(** [logger.debug(info)] *)
Definition log_info : M unit :=
  s <- get ;;
  i <- lift (local "info" (info s)) ;;
  emit (EvLog i).

(** Lines 155-270. *)
Definition training_pass (epoch : nat) : M unit :=
  reset_meters ;;
  when (ternary cfg) (for_modules refresh_quantization) ;;
  for_each (train_loader cfg) (train_batch epoch) ;;
  when (rank cfg =? 0) log_info ;;
  s <- get ;;
  append_column train_loss (loss_column s) ;;
  append_column train_metrics (metrics_column s) ;;
  append_column train_boxmetrics (boxmetrics_column s).

(** Lines 272-341. *)
Definition validation_pass : M unit :=
  reset_meters ;;
  when (ternary cfg) (for_modules shadow_and_ternarize_eval) ;;
  for_each (val_loader cfg) validation_batch ;;
  when (rank cfg =? 0) log_info ;;
  s <- get ;;
  append_column val_loss (loss_column s) ;;
  append_column val_metrics (metrics_column s) ;;
  append_column val_boxmetrics (boxmetrics_column s).

(** Line 360: [rank == 0 and cp_es(vloss.sum(0) + rflop.cpu(), ssd_net)];
    the result is whether the loop breaks. *)
Definition early_stopping_gate : M bool :=
  if rank cfg =? 0 then
    s <- get ;;
    es <- lift (local "cp_es" (cp_es s)) ;;
    rf <- lift (local "rflop" (rflop s)) ;;
    let objective := (Qsum (loss_column s) + rf)%Q in
    let '(es', saved, halt) := es_call objective es in
    modify (set_cp_es (Some es')) ;;
    when saved (emit (EvCheckpoint objective)) ;;
    ret halt
  else ret false.

(** Lines 360-368: the gate, then the barrier and the shadow update. *)
Definition epoch_end : M bool :=
  halt <- early_stopping_gate ;;
  if halt then ret true
  else
    emit EvBarrier ;;
    when (ternary cfg) (for_modules rebase_shadow) ;;
    ret false.

Definition epoch_body (epoch : nat) : M bool :=
  training_pass epoch ;;
  validation_pass ;;
  epoch_end.

(** [for epoch in range(...)], with [break] and the [scheduler.step()] that
    closes an iteration. *)
Fixpoint for_epochs (epochs : list nat) : M unit :=
  match epochs with
  | [] => ret tt
  | epoch :: rest =>
      halt <- epoch_body epoch ;;
      if halt then ret tt
      else
        modify (fun s => set_scheduler (scheduler_step (scheduler s)) s) ;;
        for_epochs rest
  end.

(** [execute(rank, world_size, ...)] *)
Definition execute : M unit :=
  setup (rank cfg) (world_size cfg) ;;
  for_epochs (seq 1 (max_epochs cfg)) ;;
  cleanup.

(** The process state when [execute] is entered and its objects are
    built: no local of the batch loops is bound yet. *)
Definition initial_state (env : Environ) : State :=
  mkState (ssd_net cfg) (optimizer0 cfg)
          (MultiStepLR (learning_rate cfg) execute_milestones execute_gamma)
          (if rank cfg =? 0 then Some (mkES (pref_patience cfg) None 0)
           else None)
          (fun _ => meter_reset) None None None (fun _ => []) env 0 [].

Definition run (env : Environ) : State * result unit :=
  execute (initial_state env).

End Process.

Arguments mkConfig {X}.
Arguments initial_state {X}.
Arguments run {X}.

(* ------------------------------------------------------------------ *)
(** ** A synthetic, deterministic instance of the collaborators *)

(** Used to run the model on concrete inputs: every batch carries the
    values the loss module reports for it, the thresholds are those of
    ternary weight networks (0.7 times the mean magnitude; the mean
    magnitude above the threshold), the loss whose gradient autograd
    returns is half the squared norm of the weights, and the optimizer is
    plain gradient descent. *)
Module Synthetic.

Definition total (t : tensor) : Q :=
  fold_right (fun x acc => Qred (x + acc)) 0%Q t.

Definition mean (t : tensor) : Q :=
  Qred (total t / inject_Z (Z.of_nat (List.length t))).

Definition magnitude (x : Q) : Q := Qmax x (- x).

Definition twn_delta (t : tensor) : Q :=
  Qred ((7 # 10) * mean (map magnitude t)).

Definition twn_alpha (t : tensor) (d : Q) : Q :=
  mean (filter (fun x => negb (Qle_bool x d)) (map magnitude t)).

Fixpoint descend (rate : Q) (w g : tensor) : tensor :=
  match w, g with
  | x :: w', y :: g' => Qred (x - rate * y) :: descend rate w' g'
  | _, _ => w
  end.

Definition collaborators : Collaborators :=
  {| batch := CritOut;
     grads := list tensor;
     ostate := unit;
     get_delta := twn_delta;
     get_alpha := twn_alpha;
     criterion := fun _ _ _ b => b;
     get_regularization := fun _ => 0%Q;
     backward := fun _ ms _ => weights ms;
     sgd_update := fun _ rate g i w => descend rate w (nth i g []);
     sgd_next := fun o _ => o |}.

(** A 3x3 convolution with 8 input and 16 output channels whose 1152
    weights repeat the pattern 1/2, -1/5, 9/10. *)
Definition pattern : tensor := [1 # 2; - (1 # 5); 9 # 10]%Q.

Definition conv_weight : tensor := List.concat (repeat pattern 384).

Definition conv : Module :=
  Conv2d (3, 3) 8 16 (mkParam conv_weight None None None).

(** A small layer for long runs: a 1x1 convolution with one weight. *)
Definition pointwise : Module :=
  Conv2d (1, 1) 1 1 (mkParam [1 # 2]%Q None None None).

Definition metrics (p : Q) : CritOut :=
  mkCritOut 1 1 1 0 [[0; p; p]; [0; p; p]]%Q [p; p]%Q.

Definition config (rank world_size max_epochs patience : nat)
  (ternary : bool) (net : list Module) (train val : list CritOut)
  (peers : nat -> Q) : Config collaborators :=
  @mkConfig collaborators rank world_size ternary false false (1 # 10)%Q
            patience max_epochs train val net tt peers.

(** One rank training [conv] in ternary mode for one epoch, on one
    training batch reporting precision and recall 1/2 and one validation
    batch reporting 1/4. *)
Definition ternary_run : Config collaborators :=
  config 0 1 1 1 true [conv] [metrics (1 # 2)] [metrics (1 # 4)]
         (fun _ => 0%Q).

(** The state of that run when the first training batch starts: after
    [setup] and the per-epoch refresh of the thresholds. *)
Definition refreshed : State collaborators :=
  fst (bind (setup 0 1)
            (fun _ => for_modules (refresh_quantization collaborators))
            (initial_state ternary_run [])).

(** The state of that run after the training pass of the first epoch,
    after the validation pass that follows, and at the end of the epoch. *)
Definition after_training : State collaborators :=
  fst (bind (setup 0 1) (fun _ => training_pass ternary_run 1)
            (initial_state ternary_run [])).

Definition after_validation : State collaborators :=
  fst (validation_pass ternary_run after_training).

Definition after_epoch : State collaborators :=
  fst (epoch_end ternary_run after_validation).

(** The same run with a training loader that yields no batch. *)
Definition empty_run : Config collaborators :=
  config 0 1 1 1 true [conv] [] [metrics (1 # 4)] (fun _ => 0%Q).

(** Rank [r] of two ranks that hold the same data, so that each
    [all_reduce] receives from the peer what the rank itself contributes
    (every loss term is 1); three epochs at most, patience 1. *)
Definition two_ranks (r : nat) : Config collaborators :=
  config r 2 3 1 false [pointwise] [metrics (1 # 2)] [metrics (1 # 4)]
         (fun _ => 1%Q).

(** One rank running 21 epochs of one batch each, with a patience that
    the run does not exhaust. *)
Definition long_run : Config collaborators :=
  config 0 1 21 100 false [pointwise] [metrics (1 # 2)] [metrics (1 # 4)]
         (fun _ => 0%Q).

(** A 3x3 convolution with 8 input and 16 output channels whose 1152
    weights repeat the pattern 3/2, -1/5, -2: the update of the first and
    of the third leaves [-1, 1]. *)
Definition wide_pattern : tensor := [3 # 2; - (1 # 5); - (2 # 1)]%Q.

Definition wide : Module :=
  Conv2d (3, 3) 8 16
         (mkParam (List.concat (repeat wide_pattern 384)) None None None).

Definition wide_run : Config collaborators :=
  config 0 1 1 1 true [wide] [metrics (1 # 2)] [metrics (1 # 4)]
         (fun _ => 0%Q).

(** The state of that run when its first training batch starts. *)
Definition wide_refreshed : State collaborators :=
  fst (bind (setup 0 1)
            (fun _ => for_modules (refresh_quantization collaborators))
            (initial_state wide_run [])).


(** Rank [r] of two ranks that both have no training batch. *)
Definition idle (r : nat) : Config collaborators :=
  config r 2 1 1 false [pointwise] [] [metrics (1 # 4)] (fun _ => 1%Q).


End Synthetic.

(* ------------------------------------------------------------------ *)
(** ** Preconditions of a training step *)

Definition is_some {A} (o : option A) : bool :=
  match o with Some _ => true | None => false end.

(** Every eligible module carries the thresholds of the per-epoch
    refresh. *)
Definition quantized (ms : list Module) : bool :=
  forallb (fun m => implb (is_first_or_last m)
                          (is_some (delta (weight_of m)) &&
                           is_some (alpha (weight_of m)))) ms.

(** Every eligible module carries a shadow copy. *)
Definition shadowed (ms : list Module) : bool :=
  forallb (fun m => implb (is_first_or_last m)
                          (is_some (org (weight_of m)))) ms.

(** The loss module's metrics have the entries the loop indexes. *)
Definition metrics_ok (out : CritOut) : bool :=
  is_ok (index2 (out_boxMetrics out) 0 1) &&
  is_ok (index2 (out_boxMetrics out) 0 2) &&
  is_ok (index2 (out_boxMetrics out) 1 1) &&
  is_ok (index2 (out_boxMetrics out) 1 2) &&
  is_ok (index (out_eventMetrics out) 0) &&
  is_ok (index (out_eventMetrics out) 1).

(** What the forward pass of a training step sees of one module. *)
Definition forward_view (X : Collaborators) (m : Module) (t : tensor) : Prop :=
  if is_first_or_last m then
    exists d a,
      delta (weight_of m) = Some d /\ alpha (weight_of m) = Some a /\
      t = to_ternary X (data (weight_of m)) (Some d) (Some a) /\
      Forall (fun x => x = a \/ x = 0%Q \/ x = (- a)%Q) t
  else t = data (weight_of m).

(** What the forward and the backward pass of a training step in ternary
    mode find of the module [m], as [m1]: an eligible module has its
    weight saved in the shadow and replaced by the ternary tensor of its
    stored thresholds; any other module is as it was. *)
Definition ternarized (X : Collaborators) (m m1 : Module) : Prop :=
  if is_first_or_last m then
    exists d a,
      delta (weight_of m) = Some d /\ alpha (weight_of m) = Some a /\
      m1 = with_weight
             (mkParam (to_ternary X (data (weight_of m)) (Some d) (Some a))
                      (Some (data (weight_of m))) (Some d) (Some a)) m
  else m1 = m.

(** The weights a training step in ternary mode is to leave when [u i] is
    the optimizer's update of the [i]-th weight: the update of the weight
    the module held before the step, clamped to [-1, 1] on the eligible
    modules. *)
Fixpoint clamped_updates (u : nat -> tensor -> tensor) (i : nat)
  (ms : list Module) : list tensor :=
  match ms with
  | [] => []
  | m :: rest =>
      (if is_first_or_last m
       then clamp (-1) 1 (u i (data (weight_of m)))
       else u i (data (weight_of m)))
      :: clamped_updates u (S i) rest
  end.

(** What a completed epoch in ternary mode makes of one module [m], taken
    when the training pass ends, as [m']: on an eligible module both the
    weight and the shadow hold the ternary tensor that the validation pass
    computed from the weight [m] had; any other module is as it was. *)
Definition epoch_view (X : Collaborators) (m m' : Module) : Prop :=
  if is_first_or_last m then
    let w := data (weight_of m) in
    let t := ternarize (get_delta X w) (get_alpha X w (get_delta X w)) w in
    data (weight_of m') = t /\ org (weight_of m') = Some t /\
    delta (weight_of m') = delta (weight_of m) /\
    alpha (weight_of m') = alpha (weight_of m) /\
    is_first_or_last m' = true
  else m' = m.

(** What the validation pass makes of one module [m], as [m']: an
    eligible module has its weight saved in the shadow and replaced by the
    ternary tensor of the thresholds recomputed from that weight. *)
Definition validation_view (X : Collaborators) (m m' : Module) : Prop :=
  if is_first_or_last m then
    let w := data (weight_of m) in
    org (weight_of m') = Some w /\
    data (weight_of m')
    = ternarize (get_delta X w) (get_alpha X w (get_delta X w)) w
  else m' = m.

(** The number of ternarization cycles a stretch of trace consists of: a
    forward pass in training mode immediately followed by an optimizer
    step, and nothing else. *)
Fixpoint cycles (evs : list event) : option nat :=
  match evs with
  | [] => Some 0
  | EvForward true _ :: EvOptimizerStep _ _ :: rest =>
      option_map S (cycles rest)
  | _ => None
  end.

(** The first element of the first weight of a network. *)
Definition first_weight (ws : list tensor) : Q := nth 0 (nth 0 ws []) 0%Q.

(** The rates of the optimizer steps of a trace, each with the epoch that
    the log line closing its training pass names. *)
Fixpoint rates_by_epoch (pending : list Q) (tr : list event)
  : list (nat * Q) :=
  match tr with
  | [] => []
  | EvOptimizerStep rate _ :: rest => rates_by_epoch (pending ++ [rate]) rest
  | EvLog (InfoEpoch epoch _) :: rest =>
      map (pair epoch) pending ++ rates_by_epoch [] rest
  | _ :: rest => rates_by_epoch pending rest
  end.

(** [enters cfg epochs s epoch s']: the loop over [epochs], started in
    [s], begins its iteration for [epoch] in the state [s']. *)
Inductive enters {X : Collaborators} (cfg : Config X)
  : list nat -> State X -> nat -> State X -> Prop :=
| enters_first epoch rest s : enters cfg (epoch :: rest) s epoch s
| enters_next e0 rest s s1 epoch s' :
    epoch_body cfg e0 s = (s1, Ok false) ->
    enters cfg rest (set_scheduler (scheduler_step (scheduler s1)) s1)
           epoch s' ->
    enters cfg (e0 :: rest) s epoch s'.

(** The scheduler as the iteration for [epoch] finds it: one
    [scheduler.step()] closes each earlier iteration of the loop. *)
Definition scheduler_in_epoch (sch : Scheduler) (epoch : nat) : Scheduler :=
  Nat.iter (epoch - 1) scheduler_step sch.

(** The milestones that [k] steps of the scheduler have reached. *)
Definition passed (ms : list nat) (k : nat) : nat :=
  List.length (filter (fun m => (0 <? m) && (m <=? k)) ms).

(* ------------------------------------------------------------------ *)
(** ** All ranks together *)

(** The sum held by the ranks other than [r]. *)
Definition others (xs : list Q) (r : nat) : Q :=
  Qsum (firstn r xs ++ skipn (S r) xs).

Definition Qmean (xs : list Q) : Q :=
  (Qsum xs / inject_Z (Z.of_nat (List.length xs)))%Q.

Section World.

Variable X : Collaborators.
Variable base : Config X.

Definition on_rank (r n : nat) (p : nat -> Q) : Config X :=
  mkConfig r n (ternary base) (flop_regularizer base) (disco_mode base)
           (learning_rate base) (pref_patience base) (max_epochs base)
           (train_loader base) (val_loader base) (ssd_net base)
           (optimizer0 base) p.

(** What the peers of rank [r] contribute to its successive [all_reduce]
    calls when every rank reduces the losses [vals] gives it. *)
Definition peers_of (vals : list CritOut) (r : nat) (k : nat) : Q :=
  match k with
  | 0 => others (map out_l vals) r
  | 1 => others (map out_c vals) r
  | 2 => others (map out_r vals) r
  | _ => others (map out_d vals) r
  end.

(** Rank [r] of a group of [length vals] ranks runs [setup] and then
    [reduce_tensor] on its own losses [v], in a group where every rank
    does the same on its entry of [vals]. *)
Definition reduce_on_rank (with_disco : bool) (env : Environ)
  (vals : list CritOut) (r : nat) (v : CritOut)
  : result (Q * Q * Q * option Q) :=
  let cfg := on_rank r (List.length vals) (peers_of vals r) in
  snd (bind (setup (X := X) r (List.length vals))
            (fun _ => reduce_tensor cfg (out_l v) (out_c v) (out_r v)
                        (if with_disco then Some (out_d v) else None))
            (initial_state cfg env)).

End World.

(** *** Rendezvous of the ranks *)

(** The calls of a trace that involve the process group. *)
Inductive sync := SyncInit | SyncAllReduce | SyncBarrier | SyncDestroy.

Definition sync_eqb (a b : sync) : bool :=
  match a, b with
  | SyncInit, SyncInit | SyncAllReduce, SyncAllReduce
  | SyncBarrier, SyncBarrier | SyncDestroy, SyncDestroy => true
  | _, _ => false
  end.

Fixpoint collectives (tr : list event) : list sync :=
  match tr with
  | [] => []
  | EvInitProcessGroup _ _ :: rest => SyncInit :: collectives rest
  | EvAllReduce _ :: rest => SyncAllReduce :: collectives rest
  | EvBarrier :: rest => SyncBarrier :: collectives rest
  | EvDestroyProcessGroup :: rest => SyncDestroy :: collectives rest
  | _ :: rest => collectives rest
  end.

(** Every rank is about to make the call [k]. *)
Definition all_at (k : sync) (w : list (list sync)) : bool :=
  forallb (fun q => match q with
                    | h :: _ => sync_eqb h k
                    | [] => false
                    end) w.

(** The first rank that is about to destroy its group does so. *)
Fixpoint leave (w : list (list sync)) : option (list (list sync)) :=
  match w with
  | [] => None
  | (SyncDestroy :: q) :: rest => Some (q :: rest)
  | q :: rest =>
      match leave rest with
      | Some rest' => Some (q :: rest')
      | None => None
      end
  end.

(** One step of the group, each rank given by the calls it has yet to
    make: a rendezvous ([init_process_group], [all_reduce], [barrier])
    returns once every rank has entered the same call; destroying the
    group is local. *)
Definition world_step (w : list (list sync)) : option (list (list sync)) :=
  if all_at SyncInit w || all_at SyncAllReduce w || all_at SyncBarrier w
  then Some (map (@tl sync) w)
  else leave w.




Inductive outcome :=
| Finished
| Blocked (w : list (list sync))
| Running (w : list (list sync)).

Fixpoint world_run (fuel : nat) (w : list (list sync)) : outcome :=
  if forallb (fun q => match q with [] => true | _ => false end) w
  then Finished
  else match fuel with
       | 0 => Running w
       | S fuel' =>
           match world_step w with
           | Some w' => world_run fuel' w'
           | None => Blocked w
           end
       end.

(* ------------------------------------------------------------------ *)
(** ** Frames *)

(** [m] leaves the observation [P] of the state as it found it, whether
    it returns or raises. *)
Definition preserves {X : Collaborators} {A T : Type}
  (P : State X -> T) (m : M X A) : Prop :=
  forall s, P (fst (m s)) = P s.

(** [m], started in [s], returns, and its result and final state satisfy
    [Q]. *)
Definition returns {X : Collaborators} {A : Type}
  (m : M X A) (Q : A -> State X -> Prop) (s : State X) : Prop :=
  match m s with
  | (s', Ok a) => Q a s'
  | (_, Raise _) => False
  end.

(** What a step-by-step run keeps of a state: its modules, optimizer,
    scheduler and trace. *)
Definition tracks {X : Collaborators} (s : State X) (ms : list Module)
  (o : ostate X) (sch : Scheduler) (tr : list event) : Prop :=
  modules s = ms /\ optimizer s = o /\ scheduler s = sch /\ trace s = tr.

(** The group destructions recorded so far. *)
Definition destructions {X : Collaborators} (s : State X) : list event :=
  filter (fun e => match e with
                   | EvDestroyProcessGroup => true
                   | _ => false
                   end) (trace s).

(* ------------------------------------------------------------------ *)
(** ** Outcomes *)

(** [m], started in [s], either returns, with a result and a final state
    that satisfy [Q], or raises, with an exception and a final state that
    satisfy [E]. *)
Definition wp {X : Collaborators} {A : Type} (m : M X A)
  (Q : A -> State X -> Prop) (E : exn -> State X -> Prop) (s : State X)
  : Prop :=
  match m s with
  | (s', Ok a) => Q a s'
  | (s', Raise e) => E e s'
  end.

(** The same from every state that satisfies [P]. *)
Definition triple {X : Collaborators} {A : Type} (P : State X -> Prop)
  (m : M X A) (Q : A -> State X -> Prop) (E : exn -> State X -> Prop)
  : Prop :=
  forall s, P s -> wp m Q E s.

(** No exception. *)
Definition never {X : Collaborators} : exn -> State X -> Prop :=
  fun _ _ => False.

(** Any exception. *)
Definition anyhow {X : Collaborators} : exn -> State X -> Prop :=
  fun _ _ => True.

(** The entries of the box-level metrics that the loops index, and those
    of the event-level metrics. *)
Definition box_ok (bm : list (list Q)) : bool :=
  is_ok (index2 bm 0 1) && is_ok (index2 bm 0 2) &&
  is_ok (index2 bm 1 1) && is_ok (index2 bm 1 2).

Definition event_ok (em : list Q) : bool :=
  is_ok (index em 0) && is_ok (index em 1).

(** [WORLD_SIZE] holds the decimal numeral of [n]. *)
Definition world_size_set {X : Collaborators} (n : nat) (s : State X) : Prop :=
  env_get "WORLD_SIZE" (environ s) = Some (str n).

(** The locals that only a training batch binds are bound, and the box
    metrics kept from the last training batch have the entries the loops
    index. *)
Definition bound {X : Collaborators} (s : State X) : Prop :=
  is_some (info s) = true /\ is_some (rflop s) = true /\
  match boxMetrics s with
  | Some bm => box_ok bm = true
  | None => False
  end.

(** What holds whenever an iteration of the epoch loop begins: the world
    size is in the environment and, on rank 0, the early-stopping gate
    exists. *)
Definition epoch_inv {X : Collaborators} (cfg : Config X) (s : State X)
  : Prop :=
  world_size_set (world_size cfg) s /\
  (rank cfg = 0 -> is_some (cp_es s) = true).

(** Between two training batches: in ternary mode the thresholds of the
    per-epoch refresh are in place. *)
Definition training_inv {X : Collaborators} (cfg : Config X) (s : State X)
  : Prop :=
  epoch_inv cfg s /\ (ternary cfg = true -> quantized (modules s) = true).

(** From the end of the training loop to the end of the epoch: the locals
    are bound if a training batch ran, and in ternary mode, once the
    validation pass has ternarized, every eligible module has a shadow. *)
Definition validation_inv {X : Collaborators} (cfg : Config X)
  (shadows : bool) (s : State X) : Prop :=
  epoch_inv cfg s /\
  (train_loader cfg <> [] -> bound s) /\
  (shadows = true -> ternary cfg = true -> shadowed (modules s) = true).

(** Inside a training batch, besides [training_inv]: in ternary mode
    every eligible module has a shadow; once assigned ([rf]), the
    regularization term is bound; once assigned ([bm]), the box metrics are
    those of the batch. *)
Definition step_inv {X : Collaborators} (cfg : Config X) (rf : bool)
  (bm : option (list (list Q))) (s : State X) : Prop :=
  training_inv cfg s /\
  (ternary cfg = true -> shadowed (modules s) = true) /\
  (rf = true -> is_some (rflop s) = true) /\
  match bm with
  | Some m => boxMetrics s = Some m
  | None => True
  end.

(** Some batch makes the loss module report metrics that lack an entry the
    loops index: a training batch in its box-level or event-level metrics,
    a validation batch in its event-level metrics. *)
Definition malformed_metrics {X : Collaborators} (cfg : Config X) : Prop :=
  (exists b ms, In b (train_loader cfg) /\
                metrics_ok (criterion X true (disco_mode cfg) ms b) = false)
  \/
  (exists b ms, In b (val_loader cfg) /\
                event_ok (out_eventMetrics
                            (criterion X false (disco_mode cfg) ms b))
                = false).

(** The exceptions a run of [execute] ends in, each with its cause. *)
Definition execute_raises {X : Collaborators} (cfg : Config X) (e : exn)
  : Prop :=
  (e = NameError "info" /\ rank cfg = 0 /\ train_loader cfg = []) \/
  (e = NameError "boxMetrics" /\ rank cfg <> 0 /\ train_loader cfg = [] /\
   val_loader cfg <> []) \/
  (e = IndexError /\ malformed_metrics cfg).

(** An [IndexError], which only malformed metrics cause. *)
Definition index_error {X : Collaborators} (cfg : Config X)
  : exn -> State X -> Prop :=
  fun e _ => e = IndexError /\ malformed_metrics cfg.

(** The collective calls made so far are [c] followed by [i] reductions,
    and the scheduler is [sch]; with [unbound = Some n], moreover, the
    world size [n] is in the environment and no training batch has bound
    [boxMetrics]. *)
Definition protocol_inv {X : Collaborators} (unbound : option nat)
  (c : list sync) (sch : Scheduler) (i : nat) (s : State X) : Prop :=
  collectives (trace s) = c ++ repeat SyncAllReduce i /\
  scheduler s = sch /\
  match unbound with
  | Some n => world_size_set n s /\ boxMetrics s = None
  | None => True
  end.

(** What [protocol_inv] reads of a state. *)
Definition protocol_view {X : Collaborators} (s : State X)
  : list sync * Scheduler :=
  (collectives (trace s), scheduler s).

(** The exception of a validation batch that finds [boxMetrics] unbound,
    raised after the reductions of the batch. *)
Definition unbound_box {X : Collaborators} (cfg : Config X)
  : exn -> State X -> Prop :=
  fun e s =>
    e = NameError "boxMetrics" /\
    collectives (trace s)
    = SyncInit :: repeat SyncAllReduce (if disco_mode cfg then 4 else 3).

(** The histories that the training pass extends, and the number of rows
    of each history: [torch.empty(3 + int(disco_mode), 0)],
    [torch.empty(2, 0)] and [torch.empty(4, 0)]. *)
Definition is_train_history (h : hist_id) : bool :=
  match h with
  | train_loss | train_metrics | train_boxmetrics => true
  | _ => false
  end.

Definition history_rows {X : Collaborators} (cfg : Config X) (h : hist_id)
  : nat :=
  match h with
  | train_loss | val_loss => 3 + (if disco_mode cfg then 1 else 0)
  | train_metrics | val_metrics => 2
  | train_boxmetrics | val_boxmetrics => 4
  end.

(** The training histories hold [kt] columns and the validation
    histories [kv], and every column has as many entries as its history
    has rows. *)
Definition history_inv {X : Collaborators} (cfg : Config X) (kt kv : nat)
  (s : State X) : Prop :=
  forall h,
    List.length (history s h) = (if is_train_history h then kt else kv) /\
    Forall (fun column => List.length column = history_rows cfg h)
           (history s h).

(** The checkpoints written so far. *)
Definition checkpoints {X : Collaborators} (s : State X) : list event :=
  filter (fun e => match e with
                   | EvCheckpoint _ => true
                   | _ => false
                   end) (trace s).

(** The number of values each meter has averaged is given by [f]. *)
Definition counted {X : Collaborators} (f : meter_id -> nat) (s : State X)
  : Prop :=
  forall id, m_count (meters s id) = f id.

(** One more value for the meter [id]. *)
Definition bump (id : meter_id) (f : meter_id -> nat) : meter_id -> nat :=
  fun j => if meter_id_eqb id j then S (f j) else f j.

(** The counts after [k] batches of a pass: every meter has been updated
    once per batch, the one of the decorrelation term in disco mode
    only. *)
Definition pass_counts {X : Collaborators} (cfg : Config X) (k : nat)
  : meter_id -> nat :=
  fun id =>
    match id with
    | disco => if disco_mode cfg then k else 0
    | _ => k
    end.

(** The attributes the quantizer attaches to the weights. *)
Definition attributes (ms : list Module)
  : list (option tensor * option Q * option Q) :=
  map (fun m => (org (weight_of m), delta (weight_of m),
                 alpha (weight_of m))) ms.

(** The [all_reduce] calls of one validation pass: one per loss term and
    validation batch. *)
Definition reductions {X : Collaborators} (cfg : Config X) : list sync :=
  repeat SyncAllReduce
         ((if disco_mode cfg then 4 else 3) * List.length (val_loader cfg)).

(** The collective calls of [k] completed epochs. *)
Definition completed_epochs {X : Collaborators} (cfg : Config X) (k : nat)
  : list sync :=
  List.concat (repeat (reductions cfg ++ [SyncBarrier]) k).

(* ------------------------------------------------------------------ *)
(** * Properties *)

(** ** The eligible-layer predicate *)

Lemma with_weight_eligible (w : Param) (m : Module) :
  is_first_or_last (with_weight w m) = is_first_or_last m.
Proof. destruct m as [[kh kw] i o w0 | w0]; reflexivity. Qed.

Lemma weight_of_with_weight (w : Param) (m : Module) :
  weight_of (with_weight w m) = w.
Proof. destruct m; reflexivity. Qed.

(** The layers of the synthetic runs carry weights of the size their
    shapes prescribe, and only the 3x3 one is eligible. *)
Lemma synthetic_layers :
  well_shaped Synthetic.conv = true /\
  well_shaped Synthetic.pointwise = true /\
  is_first_or_last Synthetic.conv = true /\
  is_first_or_last Synthetic.pointwise = false.
Proof. repeat split; vm_compute; reflexivity. Qed.

(** C9. [is_first_or_last] holds exactly for convolutions with a 3x3
    kernel, more than 3 input channels and more than 4 output channels: a
    3x3 convolution with 8 input and 16 output channels is eligible, a 1x1
    convolution is not, a 3x3 convolution with 3 input channels is not, and
    a 3x3 convolution with 4 output channels is not. *)
Theorem is_first_or_last_exact :
  (forall layer,
      is_first_or_last layer = true <->
      exists i o w, layer = Conv2d (3, 3) i o w /\ 3 < i /\ 4 < o) /\
  (forall w, is_first_or_last (Conv2d (3, 3) 8 16 w) = true) /\
  (forall i o w, is_first_or_last (Conv2d (1, 1) i o w) = false) /\
  (forall o w, is_first_or_last (Conv2d (3, 3) 3 o w) = false) /\
  (forall i w, is_first_or_last (Conv2d (3, 3) i 4 w) = false).
Proof.
  split; [| repeat split; intros; cbn; try reflexivity;
            rewrite ?Bool.andb_false_r; reflexivity ].
  intros layer; split.
  - destruct layer as [[kh kw] i o w | w]; unfold is_first_or_last;
      [| discriminate].
    rewrite !Bool.andb_true_iff, !Nat.eqb_eq, !Nat.ltb_lt.
    intros [[[-> ->] Hi] Ho]. now exists i, o, w.
  - intros (i & o & w & -> & Hi & Ho). unfold is_first_or_last.
    apply Nat.ltb_lt in Hi, Ho. now rewrite Hi, Ho.
Qed.

(* ------------------------------------------------------------------ *)
(** ** The reducer *)

Lemma others_sum (xs : list Q) (r : nat) (x : Q) :
  nth_error xs r = Some x -> (x + others xs r == Qsum xs)%Q.
Proof.
  unfold others. revert r.
  induction xs as [| y xs IH]; intros [| r] H; simpl in *; try discriminate.
  - injection H as ->. reflexivity.
  - rewrite <- (IH r H). ring.
Qed.

Lemma int_str (n : nat) : int (str n) = Ok n.
Proof.
  unfold int, str. rewrite NilEmpty.usu. now rewrite Unsigned.of_to.
Qed.

Lemma nth_error_map_some {A B} (f : A -> B) (xs : list A) (r : nat) (v : A) :
  nth_error xs r = Some v -> nth_error (map f xs) r = Some (f v).
Proof. intros H. rewrite nth_error_map, H. reflexivity. Qed.

Lemma reduce_component (f : CritOut -> Q) (vals : list CritOut) (r : nat)
  (v : CritOut) :
  nth_error vals r = Some v ->
  (divide (f v + others (map f vals) r) (List.length vals)
   == Qmean (map f vals))%Q.
Proof.
  intros H. unfold divide, Qmean.
  rewrite (others_sum _ _ (nth_error_map_some f _ _ H)).
  now rewrite length_map.
Qed.

Lemma all_reduce_run (X : Collaborators) (cfg : Config X) (x : Q)
  (s : State X) :
  all_reduce cfg x s =
  (set_n_reduce (S (n_reduce s)) (set_trace (trace s ++ [EvAllReduce x]) s),
   Ok (x + peers cfg (n_reduce s))%Q).
Proof. reflexivity. Qed.

Lemma environ_int_run (X : Collaborators) (key : string) (n : nat)
  (s : State X) :
  env_get key (environ s) = Some (str n) ->
  environ_int key s = (s, Ok n).
Proof.
  intros H. unfold environ_int, bind, get, lift. rewrite H.
  now rewrite int_str.
Qed.

Lemma reduce_tensor_run (X : Collaborators) (cfg : Config X) (x y z : Q)
  (d : option Q) (n : nat) (s : State X) :
  env_get "WORLD_SIZE" (environ s) = Some (str n) ->
  snd (reduce_tensor cfg x y z d s) =
  Ok (divide (x + peers cfg (n_reduce s)) n,
      divide (y + peers cfg (S (n_reduce s))) n,
      divide (z + peers cfg (S (S (n_reduce s)))) n,
      match d with
      | Some q => Some (divide (q + peers cfg (S (S (S (n_reduce s))))) n)
      | None => None
      end).
Proof.
  intros H. unfold reduce_tensor, bind.
  rewrite !all_reduce_run.
  rewrite !(@environ_int_run X "WORLD_SIZE" n) by exact H.
  destruct d as [q |]; [| reflexivity].
  rewrite all_reduce_run.
  rewrite (@environ_int_run X "WORLD_SIZE" n) by exact H.
  reflexivity.
Qed.

Lemma setup_run (X : Collaborators) (r n : nat) (s : State X) :
  setup r n s =
  (set_trace (trace s ++ [EvInitProcessGroup r n])
     (set_environ
        (env_set "RANK" (str r)
           (env_set "WORLD_SIZE" (str n)
              (env_set "MASTER_PORT" "11223"
                 (env_set "MASTER_ADDR" "127.0.0.1" (environ s))))) s),
   Ok tt).
Proof. reflexivity. Qed.

Lemma env_get_set_eq (k v : string) (env : Environ) :
  env_get k (env_set k v env) = Some v.
Proof. unfold env_set. simpl. now rewrite String.eqb_refl. Qed.

Lemma env_get_set_neq (k k' v : string) (env : Environ) :
  String.eqb k k' = false ->
  env_get k (env_set k' v env) = env_get k env.
Proof.
  intros H. unfold env_set. simpl. rewrite H.
  induction env as [| [k0 v0] env IH]; simpl; [reflexivity |].
  destruct (String.eqb k' k0) eqn:E0; simpl.
  - apply String.eqb_eq in E0. subst k0. now rewrite H.
  - now rewrite IH.
Qed.

Lemma setup_world_size (X : Collaborators) (r n : nat) (s : State X) :
  env_get "WORLD_SIZE" (environ (fst (setup r n s))) = Some (str n).
Proof.
  rewrite setup_run. simpl fst. unfold set_trace, set_environ; simpl environ.
  rewrite env_get_set_neq by reflexivity.
  apply env_get_set_eq.
Qed.

(** C5. When every rank of a group runs [reduce_tensor] on the losses it
    holds, each rank obtains, for every loss term, the arithmetic mean over
    the ranks: the sum-reduction divided by the world size that [setup]
    recorded. *)
Theorem reduce_tensor_mean (X : Collaborators) (base : Config X)
  (with_disco : bool) (env : Environ) (vals : list CritOut) (r : nat)
  (v : CritOut) :
  nth_error vals r = Some v ->
  exists l c g d,
    reduce_on_rank base with_disco env vals r v = Ok (l, c, g, d) /\
    (l == Qmean (map out_l vals))%Q /\
    (c == Qmean (map out_c vals))%Q /\
    (g == Qmean (map out_r vals))%Q /\
    match d with
    | Some q => with_disco = true /\ (q == Qmean (map out_d vals))%Q
    | None => with_disco = false
    end.
Proof.
  intros H.
  pose proof (reduce_component out_l vals r H) as Hl.
  pose proof (reduce_component out_c vals r H) as Hc.
  pose proof (reduce_component out_r vals r H) as Hg.
  pose proof (reduce_component out_d vals r H) as Hd.
  unfold reduce_on_rank, bind.
  pose proof (setup_world_size r (List.length vals)
                (initial_state (on_rank base r (List.length vals)
                                        (peers_of vals r)) env)) as Hw.
  rewrite setup_run in Hw |- *. simpl fst in Hw.
  rewrite (@reduce_tensor_run X _ _ _ _ _ _ _ Hw).
  do 4 eexists. split; [reflexivity |].
  split; [exact Hl |]. split; [exact Hc |]. split; [exact Hg |].
  destruct with_disco; [split; [reflexivity | exact Hd] | reflexivity].
Qed.

(** On ranks holding 1, 2, 3 and 4, rank 2 obtains 5/2. *)
Lemma reduce_tensor_mean_witness :
  nth_error (map (fun x => mkCritOut x 0 0 0 [] []) [1; 2; 3; 4]%Q) 2
  = Some (mkCritOut 3 0 0 0 [] []) /\
  exists l c g d,
    reduce_on_rank
      (Synthetic.config 0 4 1 1 false [] [] [] (fun _ => 0%Q)) false []
      (map (fun x => mkCritOut x 0 0 0 [] []) [1; 2; 3; 4]%Q) 2
      (mkCritOut 3 0 0 0 [] []) = Ok (l, c, g, d) /\
    (l == 5 # 2)%Q.
Proof.
  split; [reflexivity |].
  destruct (@reduce_tensor_mean Synthetic.collaborators
              (Synthetic.config 0 4 1 1 false [] [] [] (fun _ => 0%Q))
              false []
              (map (fun x => mkCritOut x 0 0 0 [] []) [1; 2; 3; 4]%Q) 2
              (mkCritOut 3 0 0 0 [] []) eq_refl)
    as (l & c & g & d & Hr & Hl & _).
  exists l, c, g, d. split; [exact Hr |].
  rewrite Hl. reflexivity.
Defined.

(* ------------------------------------------------------------------ *)
(** ** The learning-rate schedule *)

Lemma Qpower_nat_plus (g : Q) (a b : nat) :
  (g ^ Z.of_nat (a + b) == g ^ Z.of_nat a * g ^ Z.of_nat b)%Q.
Proof.
  rewrite Nat2Z.inj_add.
  destruct (Z.eq_dec (Z.of_nat a + Z.of_nat b) 0) as [E | NE].
  - assert (a = 0) as -> by lia. assert (b = 0) as -> by lia.
    simpl. reflexivity.
  - now apply Qpower_plus'.
Qed.

Lemma passed_succ (ms : list nat) (k : nat) :
  passed ms (S k) = passed ms k + count_occ Nat.eq_dec ms (S k).
Proof.
  unfold passed. induction ms as [| m ms IH]; simpl; [reflexivity |].
  destruct (Nat.eq_dec m (S k)) as [-> | NE].
  - replace (S k <=? S k) with true by (symmetry; now apply Nat.leb_le).
    replace (S k <=? k) with false by (symmetry; apply Nat.leb_gt; lia).
    simpl. rewrite IH. lia.
  - destruct (0 <? m); simpl; [| exact IH].
    destruct (Nat.leb_spec m (S k)), (Nat.leb_spec m k); simpl;
      try lia; now rewrite IH.
Qed.

(** After [k] steps the scheduler has counted [k] epochs and the rate is
    the initial one decayed once per milestone reached. *)
Lemma scheduler_steps (b g : Q) (ms : list nat) (k : nat) :
  let s := Nat.iter k scheduler_step (MultiStepLR b ms g) in
  last_epoch s = k /\ milestones s = ms /\ gamma s = g /\
  (lr s == b * g ^ Z.of_nat (passed ms k))%Q.
Proof.
  induction k as [| k IH]; simpl.
  - split; [reflexivity |]. split; [reflexivity |]. split; [reflexivity |].
    replace (passed ms 0) with 0.
    + simpl. ring.
    + unfold passed. induction ms as [| m ms IHms]; simpl; [reflexivity |].
      destruct m; simpl; exact IHms.
  - destruct IH as (He & Hm & Hg & Hl).
    set (s := Nat.iter k scheduler_step (MultiStepLR b ms g)) in *.
    unfold scheduler_step. simpl.
    split; [now rewrite He |]. split; [exact Hm |]. split; [exact Hg |].
    rewrite He, Hm, Hg, passed_succ, Qpower_nat_plus.
    setoid_rewrite Hl. ring.
Qed.

Lemma passed_cons (m : nat) (ms : list nat) (k : nat) :
  passed (m :: ms) k
  = (if (0 <? m) && (m <=? k) then 1 else 0) + passed ms k.
Proof.
  unfold passed. cbn [filter].
  destruct ((0 <? m) && (m <=? k)); reflexivity.
Qed.

(** C8 (as the loop runs it). [scheduler.step()] closes each iteration of
    the epoch loop, so the rate in force during epoch [e] is the initial
    rate decayed by 0.5 once per milestone among the [e - 1] epochs
    completed: with milestones [20, 30] and initial rate 0.1 it is 0.1
    during epochs 1-20, 0.05 during epochs 21-30 and 0.025 from epoch 31
    onward. *)
Theorem rate_in_epoch (e : nat) :
  (lr (scheduler_in_epoch (MultiStepLR (1 # 10) [20; 30]%nat (1 # 2)) e)
   == if (e <=? 20)%nat then 1 # 10
      else if (e <=? 30)%nat then 1 # 20
      else 1 # 40)%Q.
Proof.
  unfold scheduler_in_epoch.
  destruct (scheduler_steps (1 # 10) (1 # 2) [20; 30] (e - 1))
    as (_ & _ & _ & H).
  rewrite H, !passed_cons.
  change (passed [] (e - 1)) with 0.
  change (0 <? 20) with true. change (0 <? 30) with true.
  cbn [andb].
  destruct (Nat.leb_spec e 20), (Nat.leb_spec e 30),
    (Nat.leb_spec 20 (e - 1)), (Nat.leb_spec 30 (e - 1));
    try lia; reflexivity.
Qed.

(* ------------------------------------------------------------------ *)
(** ** Loops over the modules *)

Lemma each_module_run (f : Module -> Module * option exn) (ms : list Module) :
  Forall (fun m => snd (f m) = None) ms ->
  each_module f ms = (map (fun m => fst (f m)) ms, None).
Proof.
  induction 1 as [| m ms Hm _ IH]; simpl; [reflexivity |].
  destruct (f m) as [m' e]. simpl in Hm. subst e.
  now rewrite IH.
Qed.

Lemma for_modules_run (X : Collaborators)
  (f : Module -> Module * option exn) (s : State X) :
  Forall (fun m => snd (f m) = None) (modules s) ->
  for_modules f s = (set_modules (map (fun m => fst (f m)) (modules s)) s,
                     Ok tt).
Proof.
  intros H. unfold for_modules. now rewrite (each_module_run f H).
Qed.

Lemma refresh_never_raises (X : Collaborators) (ms : list Module) :
  Forall (fun m => snd (refresh_quantization X m) = None) ms.
Proof.
  apply Forall_forall. intros m _. unfold refresh_quantization.
  destruct (is_first_or_last m); reflexivity.
Qed.

Lemma eval_never_raises (X : Collaborators) (ms : list Module) :
  Forall (fun m => snd (shadow_and_ternarize_eval X m) = None) ms.
Proof.
  apply Forall_forall. intros m _. unfold shadow_and_ternarize_eval.
  destruct (is_first_or_last m); reflexivity.
Qed.

Lemma quantized_ternarizes (X : Collaborators) (ms : list Module) :
  quantized ms = true ->
  Forall (fun m => snd (shadow_and_ternarize X m) = None) ms.
Proof.
  unfold quantized. rewrite forallb_forall, Forall_forall.
  intros H m Hm. specialize (H m Hm). unfold shadow_and_ternarize.
  destruct (is_first_or_last m); [| reflexivity].
  simpl in H. simpl.
  destruct (delta (weight_of m)), (alpha (weight_of m));
    try discriminate; reflexivity.
Qed.

Lemma shadowed_restores (ms : list Module) :
  shadowed ms = true -> Forall (fun m => snd (restore m) = None) ms.
Proof.
  unfold shadowed. rewrite forallb_forall, Forall_forall.
  intros H m Hm. specialize (H m Hm). unfold restore.
  destruct (is_first_or_last m); [| reflexivity].
  destruct (org (weight_of m)); [reflexivity | discriminate].
Qed.

Lemma shadowed_clamps (ms : list Module) :
  shadowed ms = true ->
  Forall (fun m => snd (clamp_and_rebase m) = None) ms.
Proof.
  unfold shadowed. rewrite forallb_forall, Forall_forall.
  intros H m Hm. specialize (H m Hm). unfold clamp_and_rebase.
  destruct (is_first_or_last m); [| reflexivity].
  destruct (org (weight_of m)); [reflexivity | discriminate].
Qed.

(** What each quantizer step does to one module. *)

Lemma ternarize_shadowed (X : Collaborators) (ms : list Module) :
  shadowed (map (fun m => fst (shadow_and_ternarize X m)) ms) = true.
Proof.
  unfold shadowed. rewrite forallb_forall. intros m' Hm'.
  apply in_map_iff in Hm' as (m & <- & _). unfold shadow_and_ternarize.
  destruct (is_first_or_last m) eqn:E; simpl; [| now rewrite E].
  destruct (delta (weight_of m)), (alpha (weight_of m)); simpl;
    rewrite with_weight_eligible, E, weight_of_with_weight; reflexivity.
Qed.

Lemma restore_shadowed (ms : list Module) :
  shadowed ms = true ->
  shadowed (map (fun m => fst (restore m)) ms) = true.
Proof.
  unfold shadowed. rewrite !forallb_forall. intros H m' Hm'.
  apply in_map_iff in Hm' as (m & <- & Hm). specialize (H m Hm).
  unfold restore. destruct (is_first_or_last m) eqn:E; simpl in *;
    [| now rewrite E].
  destruct (org (weight_of m)) eqn:Eo; simpl;
    [| now rewrite E, Eo].
  rewrite with_weight_eligible, E, weight_of_with_weight. simpl.
  now rewrite Eo.
Qed.

Lemma apply_update_shadowed (f : nat -> tensor -> tensor) (ms : list Module)
  (i : nat) :
  shadowed ms = true -> shadowed (apply_update f i ms) = true.
Proof.
  unfold shadowed. revert i.
  induction ms as [| m ms IH]; intros i; simpl; [reflexivity |].
  rewrite !Bool.andb_true_iff. intros [Hm Hrest]. split; [| now apply IH].
  now rewrite with_weight_eligible, weight_of_with_weight.
Qed.

Lemma restore_ternarize_data (X : Collaborators) (m : Module) :
  snd (shadow_and_ternarize X m) = None ->
  data (weight_of (fst (restore (fst (shadow_and_ternarize X m)))))
  = data (weight_of m).
Proof.
  unfold shadow_and_ternarize, restore.
  destruct (is_first_or_last m) eqn:E; simpl; [| now rewrite E].
  destruct (delta (weight_of m)), (alpha (weight_of m)); simpl;
    try discriminate.
  intros _.
  rewrite with_weight_eligible, E, !weight_of_with_weight. simpl.
  now rewrite weight_of_with_weight.
Qed.

(* ------------------------------------------------------------------ *)
(** ** Running a computation step by step *)

Section Returns.

Context {X : Collaborators}.

Lemma returns_elim {A} (m : M X A) (Q : A -> State X -> Prop) (s : State X) :
  returns m Q s -> exists a s', m s = (s', Ok a) /\ Q a s'.
Proof.
  unfold returns. destruct (m s) as [s' [a | e]]; [| contradiction].
  intros H. now exists a, s'.
Qed.

Lemma returns_ret {A} (a : A) (Q : A -> State X -> Prop) (s : State X) :
  Q a s -> returns (ret a) Q s.
Proof. exact (fun H => H). Qed.

Lemma returns_bind {A B} (m : M X A) (k : A -> M X B)
  (Q : B -> State X -> Prop) (s : State X) :
  returns m (fun a s' => returns (k a) Q s') s -> returns (bind m k) Q s.
Proof.
  unfold returns, bind. destruct (m s) as [s' [a | e]]; exact (fun H => H).
Qed.

Lemma returns_get (Q : State X -> State X -> Prop) (s : State X) :
  Q s s -> returns (@get X) Q s.
Proof. exact (fun H => H). Qed.

Lemma returns_modify (f : State X -> State X) (Q : unit -> State X -> Prop)
  (s : State X) :
  Q tt (f s) -> returns (modify f) Q s.
Proof. exact (fun H => H). Qed.

Lemma returns_lift {A} (r : result A) (a : A) (Q : A -> State X -> Prop)
  (s : State X) :
  r = Ok a -> Q a s -> returns (lift r) Q s.
Proof. intros -> H. exact H. Qed.

Lemma returns_for_modules (f : Module -> Module * option exn)
  (Q : unit -> State X -> Prop) (s : State X) :
  Forall (fun m => snd (f m) = None) (modules s) ->
  Q tt (set_modules (map (fun m => fst (f m)) (modules s)) s) ->
  returns (for_modules f) Q s.
Proof.
  intros H HQ. unfold returns. now rewrite for_modules_run by exact H.
Qed.

Lemma returns_weaken {A} (m : M X A) (Q Q' : A -> State X -> Prop)
  (s : State X) :
  (forall a s', Q a s' -> Q' a s') -> returns m Q s -> returns m Q' s.
Proof.
  unfold returns. destruct (m s) as [s' [a | e]]; [| intros _ []].
  intros H. apply H.
Qed.

Lemma returns_forget {A} (m : M X A) (Q : A -> State X -> Prop)
  (s : State X) ms o sch tr :
  tracks s ms o sch tr ->
  (forall st, tracks st ms o sch tr -> returns m Q st) ->
  returns m Q s.
Proof. intros H K. exact (K s H). Qed.

End Returns.

Ltac state_simpl :=
  cbn [modules optimizer scheduler cp_es meters info boxMetrics rflop history
       environ n_reduce trace
       set_modules set_optimizer set_scheduler set_cp_es set_meters set_info
       set_boxMetrics set_rflop set_history set_environ set_n_reduce
       set_trace].

(** The state reached is replaced by a variable of which only what
    [tracks] keeps is remembered. *)
Ltac forget Hm Ho Hs Ht :=
  lazymatch goal with
  | |- returns _ _ ?s' =>
      tryif is_var s' then idtac else
      (eapply returns_forget;
       [ unfold tracks; state_simpl; rewrite ?Hm, ?Ho, ?Hs, ?Ht;
         split; [| split; [| split]]; reflexivity
       | clear Hm Ho Hs Ht;
         let st := fresh "st" in intros st (Hm & Ho & Hs & Ht) ])
  end.

Ltac run_step :=
  lazymatch goal with
  | |- returns (bind _ _) _ _ => apply returns_bind
  | |- returns (@get _) _ _ => apply returns_get; cbv beta zeta
  | |- returns (modify _) _ _ => apply returns_modify; cbv beta zeta
  | |- returns (ret _) _ _ => apply returns_ret; cbv beta zeta
  | |- returns (lift _) _ _ =>
      eapply returns_lift; [eassumption | cbv beta zeta]
  | |- returns (emit _) _ _ => unfold emit
  | |- returns (update _ _) _ _ => unfold update
  | |- returns (when true _) _ _ => unfold when; cbv iota
  | |- returns (when false _) _ _ => unfold when; cbv iota
  end.

Ltac run Hm Ho Hs Ht :=
  repeat (run_step; try forget Hm Ho Hs Ht;
          rewrite ?Hm, ?Ho, ?Hs, ?Ht).

(* ------------------------------------------------------------------ *)
(** ** One training step in ternary mode *)

Lemma metrics_ok_values (out : CritOut) :
  metrics_ok out = true ->
  exists a b c d e f,
    index2 (out_boxMetrics out) 0 1 = Ok a /\
    index2 (out_boxMetrics out) 0 2 = Ok b /\
    index2 (out_boxMetrics out) 1 1 = Ok c /\
    index2 (out_boxMetrics out) 1 2 = Ok d /\
    index (out_eventMetrics out) 0 = Ok e /\
    index (out_eventMetrics out) 1 = Ok f.
Proof.
  unfold metrics_ok. rewrite !Bool.andb_true_iff.
  intros [[[[[Ha Hb] Hc] Hd] He] Hf].
  destruct (index2 (out_boxMetrics out) 0 1) as [a |]; [| discriminate].
  destruct (index2 (out_boxMetrics out) 0 2) as [b |]; [| discriminate].
  destruct (index2 (out_boxMetrics out) 1 1) as [c |]; [| discriminate].
  destruct (index2 (out_boxMetrics out) 1 2) as [d |]; [| discriminate].
  destruct (index (out_eventMetrics out) 0) as [e |]; [| discriminate].
  destruct (index (out_eventMetrics out) 1) as [f |]; [| discriminate].
  now exists a, b, c, d, e, f.
Qed.

Section TrainBatch.

Variable X : Collaborators.
Variable cfg : Config X.

(** A training step in ternary mode, started with the thresholds of the
    per-epoch refresh in place and on a batch whose metrics are
    well-formed, returns; it makes one forward pass, at the ternarized
    weights [ms1], and one optimizer step, at the restored weights [ms2],
    and leaves the clamped update of the latter. *)
Lemma train_batch_ternary_run (epoch : nat) (b : batch X) (s : State X) :
  ternary cfg = true ->
  quantized (modules s) = true ->
  (forall ms, metrics_ok (criterion X true (disco_mode cfg) ms b) = true) ->
  let ms1 := map (fun m => fst (shadow_and_ternarize X m)) (modules s) in
  let ms2 := map (fun m => fst (restore m)) ms1 in
  let g := backward X (disco_mode cfg) ms1 b in
  let ms3 :=
    apply_update (sgd_update X (optimizer s) (lr (scheduler s)) g) 0 ms2 in
  returns (train_batch cfg epoch b)
    (fun _ s' =>
       modules s' = map (fun m => fst (clamp_and_rebase m)) ms3 /\
       scheduler s' = scheduler s /\
       trace s' = trace s ++ [EvForward true (weights ms1);
                              EvOptimizerStep (lr (scheduler s))
                                              (weights ms2)] /\
       optimizer s' = sgd_next X (optimizer s) g) s.
Proof.
  intros Ht Hq Hm ms1 ms2 g ms3.
  destruct (metrics_ok_values _ (Hm ms1))
    as (v1 & v2 & v3 & v4 & v5 & v6 & H1 & H2 & H3 & H4 & H5 & H6).
  unfold train_batch, optimizer_step. rewrite Ht.
  apply returns_bind, returns_for_modules;
    [apply quantized_ternarizes; exact Hq |].
  fold ms1.
  remember (optimizer s) as o0 eqn:Eo.
  remember (scheduler s) as sch0 eqn:Es.
  remember (trace s) as tr0 eqn:Et.
  assert (Hmod : modules s = modules s) by reflexivity.
  pose proof (eq_sym Eo) as Hopt.
  pose proof (eq_sym Es) as Hsch.
  pose proof (eq_sym Et) as Htrc.
  forget Hmod Hopt Hsch Htrc.
  destruct (disco_mode cfg); run Hmod Hopt Hsch Htrc.
  all: apply returns_for_modules; rewrite Hmod;
    [apply shadowed_restores, ternarize_shadowed |].
  all: fold ms2; forget Hmod Hopt Hsch Htrc; run Hmod Hopt Hsch Htrc.
  all: apply returns_for_modules; rewrite Hmod;
    [apply shadowed_clamps, apply_update_shadowed, restore_shadowed,
       ternarize_shadowed |].
  all: forget Hmod Hopt Hsch Htrc; run Hmod Hopt Hsch Htrc.
  all: state_simpl; rewrite Hmod, Hsch, Htrc, Hopt, <- app_assoc.
  all: subst ms3 g o0 sch0 tr0; split; [| split; [| split]]; reflexivity.
Qed.

End TrainBatch.

Lemma ternarize_values (d a : Q) (t : tensor) :
  Forall (fun x => x = a \/ x = 0%Q \/ x = (- a)%Q) (ternarize d a t).
Proof.
  unfold ternarize. apply Forall_forall. intros y Hy.
  apply in_map_iff in Hy as (x & <- & _).
  destruct (negb (Qle_bool x d)); [now left |].
  destruct (negb (Qle_bool (- d) x)); [now right; right | now right; left].
Qed.

Lemma clamp_bounds (t : tensor) :
  Forall (fun x => (-1 <= x)%Q /\ (x <= 1)%Q) (clamp (-1) 1 t).
Proof.
  unfold clamp. apply Forall_forall. intros y Hy.
  apply in_map_iff in Hy as (x & <- & _). split.
  - apply Q.min_glb; [apply Q.le_max_r | discriminate].
  - apply Q.le_min_r.
Qed.

Lemma restore_ternarize_weights (X : Collaborators) (ms : list Module) :
  Forall (fun m => snd (shadow_and_ternarize X m) = None) ms ->
  weights (map (fun m => fst (restore m))
               (map (fun m => fst (shadow_and_ternarize X m)) ms))
  = weights ms.
Proof.
  unfold weights. induction 1 as [| m ms Hm _ IH]; simpl; [reflexivity |].
  now rewrite IH, restore_ternarize_data.
Qed.

Lemma ternarize_forward_view (X : Collaborators) (ms : list Module) :
  Forall (fun m => snd (shadow_and_ternarize X m) = None) ms ->
  Forall2 (forward_view X) ms
          (weights (map (fun m => fst (shadow_and_ternarize X m)) ms)).
Proof.
  unfold weights. induction 1 as [| m ms Hm _ IH]; simpl; constructor;
    [| exact IH].
  clear IH. unfold forward_view, shadow_and_ternarize in *.
  destruct (is_first_or_last m); [| reflexivity].
  simpl in *.
  destruct (delta (weight_of m)) as [d |], (alpha (weight_of m)) as [a |];
    try discriminate.
  exists d, a. simpl. rewrite weight_of_with_weight. simpl.
  repeat split; try reflexivity. apply ternarize_values.
Qed.

Lemma clamp_and_rebase_eligible (m : Module) :
  is_first_or_last (fst (clamp_and_rebase m)) = is_first_or_last m.
Proof.
  unfold clamp_and_rebase. destruct (is_first_or_last m) eqn:E;
    [| exact E].
  destruct (org (weight_of m)); simpl;
    [now rewrite with_weight_eligible | exact E].
Qed.

(** *** The thresholds stay in place through a training pass *)

Lemma quantized_map (g : Module -> Module) (ms : list Module) :
  (forall m, is_first_or_last (g m) = is_first_or_last m /\
             delta (weight_of (g m)) = delta (weight_of m) /\
             alpha (weight_of (g m)) = alpha (weight_of m)) ->
  quantized (map g ms) = quantized ms.
Proof.
  intros H. unfold quantized.
  induction ms as [| m ms IH]; simpl; [reflexivity |].
  destruct (H m) as (-> & -> & ->). now rewrite IH.
Qed.

Lemma refresh_quantized (X : Collaborators) (ms : list Module) :
  quantized (map (fun m => fst (refresh_quantization X m)) ms) = true.
Proof.
  unfold quantized. rewrite forallb_forall. intros m' Hm'.
  apply in_map_iff in Hm' as (m & <- & _). unfold refresh_quantization.
  destruct (is_first_or_last m) eqn:E; cbn [fst]; [| now rewrite E].
  rewrite with_weight_eligible, E, weight_of_with_weight.
  now destruct (weight_of m).
Qed.

Lemma ternarize_keeps (X : Collaborators) (m : Module) :
  is_first_or_last (fst (shadow_and_ternarize X m)) = is_first_or_last m /\
  delta (weight_of (fst (shadow_and_ternarize X m))) = delta (weight_of m) /\
  alpha (weight_of (fst (shadow_and_ternarize X m))) = alpha (weight_of m).
Proof.
  unfold shadow_and_ternarize.
  destruct (is_first_or_last m) eqn:E; [| now cbn [fst]].
  destruct (weight_of m) as [t o d a] eqn:Ew. cbn [set_org data delta alpha].
  destruct d, a; cbn [fst];
    now rewrite with_weight_eligible, weight_of_with_weight.
Qed.

Lemma restore_keeps (m : Module) :
  is_first_or_last (fst (restore m)) = is_first_or_last m /\
  delta (weight_of (fst (restore m))) = delta (weight_of m) /\
  alpha (weight_of (fst (restore m))) = alpha (weight_of m).
Proof.
  unfold restore. destruct (is_first_or_last m) eqn:E; [| now cbn [fst]].
  destruct (org (weight_of m)); cbn [fst]; [| now split].
  rewrite with_weight_eligible, weight_of_with_weight.
  now destruct (weight_of m).
Qed.

Lemma clamp_keeps (m : Module) :
  is_first_or_last (fst (clamp_and_rebase m)) = is_first_or_last m /\
  delta (weight_of (fst (clamp_and_rebase m))) = delta (weight_of m) /\
  alpha (weight_of (fst (clamp_and_rebase m))) = alpha (weight_of m).
Proof.
  split; [apply clamp_and_rebase_eligible |].
  unfold clamp_and_rebase. destruct (is_first_or_last m); [| now split].
  destruct (org (weight_of m)); cbn [fst]; [| now split].
  rewrite weight_of_with_weight. now destruct (weight_of m).
Qed.

Lemma apply_update_quantized (f : nat -> tensor -> tensor) (ms : list Module)
  (i : nat) :
  quantized (apply_update f i ms) = quantized ms.
Proof.
  unfold quantized. revert i.
  induction ms as [| m ms IH]; intros i; simpl; [reflexivity |].
  now rewrite with_weight_eligible, weight_of_with_weight, IH.
Qed.

Section TrainingLoop.

Variable X : Collaborators.
Variable cfg : Config X.

(** One training step in ternary mode is one cycle, and leaves the
    thresholds in place for the next. *)
Lemma train_batch_cycle (epoch : nat) (b : batch X) (s : State X) :
  ternary cfg = true ->
  quantized (modules s) = true ->
  (forall ms, metrics_ok (criterion X true (disco_mode cfg) ms b) = true) ->
  returns (train_batch cfg epoch b)
    (fun _ s' =>
       quantized (modules s') = true /\
       exists evs, trace s' = trace s ++ evs /\ cycles evs = Some 1) s.
Proof.
  intros Ht Hq Hm.
  pose proof (train_batch_ternary_run cfg epoch b s Ht Hq Hm) as Hrun.
  cbv zeta in Hrun. revert Hrun. apply returns_weaken.
  intros _ s' (Hmod & _ & Htr & _). split.
  - rewrite Hmod.
    rewrite (quantized_map _ _ clamp_keeps), apply_update_quantized,
      (quantized_map _ _ restore_keeps),
      (quantized_map _ _ (ternarize_keeps X)).
    exact Hq.
  - eexists. split; [exact Htr | reflexivity].
Qed.

Lemma cycles_app (evs evs' : list event) (n n' : nat) :
  cycles evs = Some n -> cycles evs' = Some n' ->
  cycles (evs ++ evs') = Some (n + n').
Proof.
  intros H H'. revert n H.
  assert (forall k l, List.length l <= k ->
            forall n, cycles l = Some n ->
                      cycles (l ++ evs') = Some (n + n')) as Hk.
  { induction k as [| k IH]; intros l Hl n H.
    - destruct l; [| simpl in Hl; lia].
      injection H as <-. exact H'.
    - destruct l as [| e rest].
      + injection H as <-. exact H'.
      + destruct e as [| [|] ws | | | | | |]; try discriminate H.
        destruct rest as [| [| | r ws' | | | | |] rest]; try discriminate H.
        simpl in H, Hl |- *.
        destruct (cycles rest) as [c |] eqn:Ec; [| discriminate H].
        injection H as <-.
        rewrite (IH rest) with (n := c); [reflexivity | lia | exact Ec]. }
  exact (Hk (List.length evs) evs (le_n _)).
Qed.

(** In ternary mode the batch loop of a training pass makes exactly one
    cycle per batch. *)
Lemma training_loop_cycles (epoch : nat) (batches : list (batch X)) :
  ternary cfg = true ->
  (forall b ms, In b batches ->
                metrics_ok (criterion X true (disco_mode cfg) ms b) = true) ->
  forall s,
    quantized (modules s) = true ->
    returns (for_each batches (train_batch cfg epoch))
      (fun _ s' =>
         quantized (modules s') = true /\
         exists evs, trace s' = trace s ++ evs /\
                     cycles evs = Some (List.length batches)) s.
Proof.
  intros Ht Hm.
  induction batches as [| b bs IH]; intros s Hq.
  - apply returns_ret. split; [exact Hq |].
    exists []. split; [now rewrite app_nil_r | reflexivity].
  - cbn [for_each]. apply returns_bind.
    generalize (train_batch_cycle epoch b s Ht Hq
                  (fun ms => Hm b ms (or_introl eq_refl))).
    apply returns_weaken.
    intros _ s1 (Hq1 & evs1 & Htr1 & Hc1).
    generalize (IH (fun b' ms H => Hm b' ms (or_intror H)) s1 Hq1).
    apply returns_weaken.
    intros _ s2 (Hq2 & evs2 & Htr2 & Hc2). split; [exact Hq2 |].
    exists (evs1 ++ evs2). split.
    + now rewrite Htr2, Htr1, app_assoc.
    + exact (cycles_app _ _ Hc1 Hc2).
Qed.

End TrainingLoop.

(** *** What a training step does to the weights *)

Lemma ternarize_ternarized (X : Collaborators) (ms : list Module) :
  Forall (fun m => snd (shadow_and_ternarize X m) = None) ms ->
  Forall2 (ternarized X) ms
          (map (fun m => fst (shadow_and_ternarize X m)) ms).
Proof.
  induction 1 as [| m ms Hm _ IH]; simpl; constructor; [| exact IH].
  clear IH. unfold ternarized, shadow_and_ternarize in *.
  destruct (is_first_or_last m); [| reflexivity].
  destruct (weight_of m) as [t o d a].
  cbn [set_org data delta alpha] in *.
  destruct d as [d |], a as [a |]; try discriminate.
  exists d, a. now repeat split.
Qed.

Lemma restore_ternarize_shadow (X : Collaborators) (m : Module) :
  snd (shadow_and_ternarize X m) = None ->
  is_first_or_last (fst (restore (fst (shadow_and_ternarize X m))))
  = is_first_or_last m /\
  (is_first_or_last m = true ->
   is_some (org (weight_of (fst (restore (fst (shadow_and_ternarize X m))))))
   = true).
Proof.
  intros _. split.
  - destruct (restore_keeps (fst (shadow_and_ternarize X m))) as [-> _].
    apply ternarize_keeps.
  - intros E.
    pose proof (restore_shadowed _ (ternarize_shadowed X [m])) as H.
    unfold shadowed in H. cbn [map forallb] in H.
    rewrite Bool.andb_true_r in H.
    destruct (restore_keeps (fst (shadow_and_ternarize X m))) as [E1 _].
    destruct (ternarize_keeps X m) as [E2 _].
    now rewrite E1, E2, E in H.
Qed.

Lemma clamp_after_update (t : tensor) (m : Module) :
  (is_first_or_last m = true -> is_some (org (weight_of m)) = true) ->
  data (weight_of
          (fst (clamp_and_rebase
                  (with_weight (set_data t (weight_of m)) m))))
  = if is_first_or_last m then clamp (-1) 1 t else t.
Proof.
  intros H. unfold clamp_and_rebase.
  rewrite with_weight_eligible, weight_of_with_weight.
  destruct (is_first_or_last m); cbn [fst];
    [| now rewrite weight_of_with_weight].
  cbn [org set_data].
  destruct (org (weight_of m)); [| now discriminate H].
  cbn [fst]. now rewrite weight_of_with_weight.
Qed.

(** The four module loops of a step, one after the other: the weight an
    eligible module held before the step comes back for the optimizer,
    and what is left is the clamp of its update. *)
Lemma step_weights (X : Collaborators) (u : nat -> tensor -> tensor)
  (ms : list Module) :
  Forall (fun m => snd (shadow_and_ternarize X m) = None) ms ->
  forall i,
    weights
      (map (fun m => fst (clamp_and_rebase m))
           (apply_update u i
              (map (fun m => fst (restore m))
                   (map (fun m => fst (shadow_and_ternarize X m)) ms))))
    = clamped_updates u i ms.
Proof.
  unfold weights.
  induction 1 as [| m ms Hm _ IH]; intros i; simpl; [reflexivity |].
  rewrite IH. f_equal. clear IH.
  destruct (restore_ternarize_shadow X m Hm) as [E Hs].
  rewrite clamp_after_update by (rewrite E; exact Hs).
  now rewrite E, restore_ternarize_data.
Qed.

(** The same loops leave every module on its side of the eligibility
    test. *)
Lemma step_eligible (X : Collaborators) (u : nat -> tensor -> tensor)
  (ms : list Module) (i : nat) :
  map is_first_or_last
      (map (fun m => fst (clamp_and_rebase m))
           (apply_update u i
              (map (fun m => fst (restore m))
                   (map (fun m => fst (shadow_and_ternarize X m)) ms))))
  = map is_first_or_last ms.
Proof.
  revert i. induction ms as [| m ms IH]; intros i; simpl; [reflexivity |].
  rewrite IH. f_equal.
  rewrite clamp_and_rebase_eligible, with_weight_eligible.
  destruct (restore_keeps (fst (shadow_and_ternarize X m))) as [-> _].
  apply ternarize_keeps.
Qed.

(** C3. In a training step with ternary mode enabled every eligible
    layer's weight is saved, overwritten for the forward and the backward
    pass with the ternary tensor of its stored thresholds (elements among
    alpha, 0 and -alpha) and restored before the optimizer step.  The
    step makes exactly one forward pass, on the modules [ms1] that hold
    the ternary tensors; the gradient is the one autograd computes on
    those same modules; and exactly one optimizer step follows, which
    sees every weight at its value from before the ternarization, takes
    that gradient, and leaves each weight at its update of that value
    (clamped on the eligible layers). *)
Theorem shadow_restore_round_trip (X : Collaborators) (cfg : Config X)
  (epoch : nat) (b : batch X) (s : State X) :
  ternary cfg = true ->
  quantized (modules s) = true ->
  (forall ms, metrics_ok (criterion X true (disco_mode cfg) ms b) = true) ->
  exists s' ms1,
    train_batch cfg epoch b s = (s', Ok tt) /\
    Forall2 (ternarized X) (modules s) ms1 /\
    Forall2 (forward_view X) (modules s) (weights ms1) /\
    trace s' = trace s ++ [EvForward true (weights ms1);
                           EvOptimizerStep (lr (scheduler s))
                                           (weights (modules s))] /\
    optimizer s'
    = sgd_next X (optimizer s) (backward X (disco_mode cfg) ms1 b) /\
    weights (modules s')
    = clamped_updates
        (sgd_update X (optimizer s) (lr (scheduler s))
                    (backward X (disco_mode cfg) ms1 b))
        0 (modules s).
Proof.
  intros Ht Hq Hm.
  pose proof (quantized_ternarizes X _ Hq) as Hno.
  pose proof (train_batch_ternary_run cfg epoch b s Ht Hq Hm) as Hrun.
  cbv zeta in Hrun. apply returns_elim in Hrun.
  destruct Hrun as ([] & s' & Hrun & Hmod & _ & Htr & Hopt).
  exists s', (map (fun m => fst (shadow_and_ternarize X m)) (modules s)).
  split; [exact Hrun |].
  split; [now apply ternarize_ternarized |].
  split; [now apply ternarize_forward_view |].
  split; [rewrite Htr; now rewrite restore_ternarize_weights |].
  split; [exact Hopt |].
  rewrite Hmod. now apply step_weights.
Qed.

(** C4. After a training step in ternary mode every eligible layer's
    stored weight lies within [-1, 1], and the shadow copy holds that same
    clamped value: the weight left is the clamp to [-1, 1] of the
    optimizer's update of the weight the layer held before the step, the
    update being taken with the gradient of the ternarized modules
    [ms1], and the weights of the other layers are their updates
    themselves. *)
Theorem clamp_invariant (X : Collaborators) (cfg : Config X)
  (epoch : nat) (b : batch X) (s : State X) :
  ternary cfg = true ->
  quantized (modules s) = true ->
  (forall ms, metrics_ok (criterion X true (disco_mode cfg) ms b) = true) ->
  exists s' ms1,
    train_batch cfg epoch b s = (s', Ok tt) /\
    Forall2 (ternarized X) (modules s) ms1 /\
    weights (modules s')
    = clamped_updates
        (sgd_update X (optimizer s) (lr (scheduler s))
                    (backward X (disco_mode cfg) ms1 b))
        0 (modules s) /\
    map is_first_or_last (modules s') = map is_first_or_last (modules s) /\
    forall m, In m (modules s') -> is_first_or_last m = true ->
      Forall (fun x => (-1 <= x)%Q /\ (x <= 1)%Q) (data (weight_of m)) /\
      org (weight_of m) = Some (data (weight_of m)).
Proof.
  intros Ht Hq Hm.
  pose proof (quantized_ternarizes X _ Hq) as Hno.
  pose proof (train_batch_ternary_run cfg epoch b s Ht Hq Hm) as Hrun.
  cbv zeta in Hrun. apply returns_elim in Hrun.
  destruct Hrun as ([] & s' & Hrun & Hmod & _ & _ & _).
  exists s', (map (fun m => fst (shadow_and_ternarize X m)) (modules s)).
  split; [exact Hrun |].
  split; [now apply ternarize_ternarized |].
  split; [rewrite Hmod; now apply step_weights |].
  split; [rewrite Hmod; apply step_eligible |].
  intros m' Hin Hel. rewrite Hmod in Hin.
  apply in_map_iff in Hin as (m & <- & Hin).
  rewrite clamp_and_rebase_eligible in Hel.
  assert (Hsh : is_some (org (weight_of m)) = true).
  { pose proof (apply_update_shadowed
                  (sgd_update X (optimizer s) (lr (scheduler s))
                     (backward X (disco_mode cfg)
                        (map (fun m => fst (shadow_and_ternarize X m))
                             (modules s)) b)) _ 0
                  (restore_shadowed _ (ternarize_shadowed X (modules s))))
      as Hall.
    unfold shadowed in Hall. rewrite forallb_forall in Hall.
    specialize (Hall m Hin). now rewrite Hel in Hall. }
  unfold clamp_and_rebase. rewrite Hel.
  destruct (org (weight_of m)); [| discriminate]. simpl.
  rewrite weight_of_with_weight. simpl.
  split; [apply clamp_bounds | reflexivity].
Qed.

Lemma shadow_restore_round_trip_witness :
  exists s' ms1,
    train_batch Synthetic.ternary_run 1 (Synthetic.metrics (1 # 2))
                Synthetic.refreshed = (s', Ok tt) /\
    Forall2 (ternarized Synthetic.collaborators)
            (modules Synthetic.refreshed) ms1 /\
    Forall2 (forward_view Synthetic.collaborators)
            (modules Synthetic.refreshed) (weights ms1) /\
    trace s' = trace Synthetic.refreshed
               ++ [EvForward true (weights ms1);
                   EvOptimizerStep (lr (scheduler Synthetic.refreshed))
                     (weights (modules Synthetic.refreshed))] /\
    optimizer s'
    = sgd_next Synthetic.collaborators (optimizer Synthetic.refreshed)
        (backward Synthetic.collaborators
                  (disco_mode Synthetic.ternary_run) ms1
                  (Synthetic.metrics (1 # 2))) /\
    weights (modules s')
    = clamped_updates
        (sgd_update Synthetic.collaborators (optimizer Synthetic.refreshed)
           (lr (scheduler Synthetic.refreshed))
           (backward Synthetic.collaborators
                     (disco_mode Synthetic.ternary_run) ms1
                     (Synthetic.metrics (1 # 2))))
        0 (modules Synthetic.refreshed).
Proof.
  apply (@shadow_restore_round_trip Synthetic.collaborators
           Synthetic.ternary_run 1 (Synthetic.metrics (1 # 2))
           Synthetic.refreshed).
  - reflexivity.
  - vm_compute. reflexivity.
  - intros ms. reflexivity.
Defined.

(** On the run [Synthetic.wide_run] the updates 1.325 and -1.825 of the
    weights 3/2 and -2 are clamped to 1 and -1, and -1/5 stays. *)
Lemma clamp_invariant_witness :
  firstn 3 (nth 0 (weights
                     (modules
                        (fst (train_batch Synthetic.wide_run 1
                                (Synthetic.metrics (1 # 2))
                                Synthetic.wide_refreshed)))) [])
  = [1; - (1 # 5); - (1)]%Q /\
  exists s' ms1,
    train_batch Synthetic.wide_run 1 (Synthetic.metrics (1 # 2))
                Synthetic.wide_refreshed = (s', Ok tt) /\
    Forall2 (ternarized Synthetic.collaborators)
            (modules Synthetic.wide_refreshed) ms1 /\
    weights (modules s')
    = clamped_updates
        (sgd_update Synthetic.collaborators
           (optimizer Synthetic.wide_refreshed)
           (lr (scheduler Synthetic.wide_refreshed))
           (backward Synthetic.collaborators
                     (disco_mode Synthetic.wide_run) ms1
                     (Synthetic.metrics (1 # 2))))
        0 (modules Synthetic.wide_refreshed) /\
    map is_first_or_last (modules s')
    = map is_first_or_last (modules Synthetic.wide_refreshed) /\
    forall m, In m (modules s') -> is_first_or_last m = true ->
      Forall (fun x => (-1 <= x)%Q /\ (x <= 1)%Q) (data (weight_of m)) /\
      org (weight_of m) = Some (data (weight_of m)).
Proof.
  split; [vm_compute; reflexivity |].
  apply (@clamp_invariant Synthetic.collaborators
           Synthetic.wide_run 1 (Synthetic.metrics (1 # 2))
           Synthetic.wide_refreshed).
  - reflexivity.
  - vm_compute. reflexivity.
  - intros ms. reflexivity.
Defined.

(* ------------------------------------------------------------------ *)
(** ** Frames *)

Section Frames.

Context {X : Collaborators} {T : Type}.
Variable P : State X -> T.

Lemma preserves_ret {A} (a : A) : preserves P (ret a).
Proof. intros s. reflexivity. Qed.

Lemma preserves_lift {A} (r : result A) : preserves P (lift r).
Proof. intros s. reflexivity. Qed.

Lemma preserves_get : preserves P (@get X).
Proof. intros s. reflexivity. Qed.

Lemma preserves_modify (f : State X -> State X) :
  (forall s, P (f s) = P s) -> preserves P (modify f).
Proof. intros H s. apply H. Qed.

Lemma preserves_bind {A B} (m : M X A) (k : A -> M X B) :
  preserves P m -> (forall a, preserves P (k a)) -> preserves P (bind m k).
Proof.
  intros Hm Hk s. unfold bind. specialize (Hm s).
  destruct (m s) as [s' [a | e]]; simpl in *.
  - now rewrite Hk.
  - exact Hm.
Qed.

Lemma preserves_when (b : bool) (m : M X unit) :
  preserves P m -> preserves P (when b m).
Proof. destruct b; [trivial | intros _; apply preserves_ret]. Qed.

Lemma preserves_for_each {A} (xs : list A) (body : A -> M X unit) :
  (forall x, preserves P (body x)) -> preserves P (for_each xs body).
Proof.
  intros H. induction xs as [| x xs IH]; simpl.
  - apply preserves_ret.
  - apply preserves_bind; [apply H | intros _; exact IH].
Qed.

Lemma preserves_for_modules (f : Module -> Module * option exn) :
  (forall ms s, P (set_modules ms s) = P s) -> preserves P (for_modules f).
Proof.
  intros H s. unfold for_modules.
  destruct (each_module f (modules s)) as [ms [e |]]; apply H.
Qed.

(** What follows a frame-preserving continuation leaves [P] as the first
    computation left it. *)
Lemma preserves_rest {A B} (m : M X A) (k : A -> M X B) (s : State X) :
  (forall a, preserves P (k a)) ->
  P (fst (bind m k s)) = P (fst (m s)).
Proof.
  intros Hk. unfold bind. destruct (m s) as [s' [a | e]]; simpl.
  - apply Hk.
  - reflexivity.
Qed.

End Frames.

Ltac frame :=
  repeat
    lazymatch goal with
    | |- preserves _ (bind _ _) => apply preserves_bind; [| intro]
    | |- preserves _ (ret _) => apply preserves_ret
    | |- preserves _ (lift _) => apply preserves_lift
    | |- preserves _ (@get _) => apply preserves_get
    | |- preserves _ (when _ _) => apply preserves_when
    | |- preserves _ (for_each _ _) => apply preserves_for_each; intro
    | |- preserves _ (if ?b then _ else _) => destruct b
    | |- preserves _ (match ?x with _ => _ end) => destruct x
    | |- preserves _ (let '(_, _) := ?x in _) => destruct x
    | |- preserves _ (update _ _) => unfold update
    | |- preserves _ (emit _) => unfold emit
    | |- preserves _ (append_column _ _) => unfold append_column
    | |- preserves _ (@reset_meters _) => unfold reset_meters
    | |- preserves _ (@log_info _) => unfold log_info
    | |- preserves _ (environ_int _) => unfold environ_int
    | |- preserves _ (all_reduce _ _) => unfold all_reduce
    | |- preserves _ (reduce_tensor _ _ _ _ _) => unfold reduce_tensor
    | |- preserves _ (optimizer_step _) => unfold optimizer_step
    | |- preserves _ (train_batch _ _ _) => unfold train_batch
    | |- preserves _ (validation_batch _ _) => unfold validation_batch
    | |- preserves _ (early_stopping_gate _) => unfold early_stopping_gate
    end.

(** *** The scheduler is stepped by the epoch loop only *)

Section SchedulerFrame.

Variable X : Collaborators.
Variable cfg : Config X.

Ltac scheduler_frame :=
  frame;
  try (apply preserves_for_modules; intros; reflexivity);
  try (apply preserves_modify; intros; reflexivity).

Lemma train_batch_scheduler (epoch : nat) (b : batch X) :
  preserves (@scheduler X) (train_batch cfg epoch b).
Proof. scheduler_frame. Qed.

Lemma validation_batch_scheduler (b : batch X) :
  preserves (@scheduler X) (validation_batch cfg b).
Proof. scheduler_frame. Qed.

Lemma epoch_body_scheduler (epoch : nat) :
  preserves (@scheduler X) (epoch_body cfg epoch).
Proof.
  unfold epoch_body, training_pass, validation_pass, epoch_end.
  frame;
    try apply train_batch_scheduler;
    try apply validation_batch_scheduler;
    try (apply preserves_for_modules; intros; reflexivity);
    try (apply preserves_modify; intros; reflexivity).
Qed.

End SchedulerFrame.

(* ------------------------------------------------------------------ *)
(** ** Teardown of the process group *)

Section Teardown.

Variable X : Collaborators.
Variable cfg : Config X.

Ltac trace_frame :=
  frame;
  try (apply preserves_for_modules; intros; reflexivity);
  try (apply preserves_modify; intros; unfold destructions; state_simpl;
       rewrite ?filter_app; simpl; rewrite ?app_nil_r; reflexivity).

Lemma train_batch_destructions (epoch : nat) (b : batch X) :
  preserves (@destructions X) (train_batch cfg epoch b).
Proof. trace_frame. Qed.

Lemma validation_batch_destructions (b : batch X) :
  preserves (@destructions X) (validation_batch cfg b).
Proof. trace_frame. Qed.

Lemma epoch_body_destructions (epoch : nat) :
  preserves (@destructions X) (epoch_body cfg epoch).
Proof.
  unfold epoch_body, training_pass, validation_pass, epoch_end.
  frame;
    try apply train_batch_destructions;
    try apply validation_batch_destructions;
    try (apply preserves_for_modules; intros; reflexivity);
    try (apply preserves_modify; intros; unfold destructions; state_simpl;
         rewrite ?filter_app; simpl; rewrite ?app_nil_r; reflexivity).
Qed.

Lemma for_epochs_destructions (epochs : list nat) :
  preserves (@destructions X) (for_epochs cfg epochs).
Proof.
  induction epochs as [| epoch rest IH]; simpl.
  - apply preserves_ret.
  - apply preserves_bind; [apply epoch_body_destructions |].
    intros [|]; [apply preserves_ret |].
    apply preserves_bind; [| intros _; exact IH].
    apply preserves_modify. intros s. reflexivity.
Qed.

Lemma no_destruction (s : State X) :
  destructions s = [] -> ~ In EvDestroyProcessGroup (trace s).
Proof.
  intros H Hin.
  assert (In EvDestroyProcessGroup (destructions s)) as Hd
      by (apply filter_In; split; [exact Hin | reflexivity]).
  rewrite H in Hd. exact Hd.
Qed.

(** C7 (as the code has it). [cleanup] is the last statement of [execute]
    and no handler guards it: a run that returns, whether the epoch loop
    ran to its end or rank 0 left it through the early-stopping [break],
    ends by destroying the process group, exactly once; a run that raises
    never destroys it. *)
Theorem teardown_on_return (env : Environ) :
  match run cfg env with
  | (s', Ok _) =>
      exists evs, trace s' = evs ++ [EvDestroyProcessGroup] /\
                  ~ In EvDestroyProcessGroup evs
  | (s', Raise _) => ~ In EvDestroyProcessGroup (trace s')
  end.
Proof.
  unfold run, execute, bind. rewrite setup_run.
  match goal with
  | |- context [for_epochs cfg ?es ?s1] =>
      pose proof (for_epochs_destructions es s1) as Hd;
      destruct (for_epochs cfg es s1) as [s2 [[] | e]]
  end; simpl in Hd; apply no_destruction in Hd.
  - exists (trace s2). split; [reflexivity | exact Hd].
  - exact Hd.
Qed.

End Teardown.

(* ------------------------------------------------------------------ *)
(** ** An empty training loader *)

Section EmptyLoader.

Variable X : Collaborators.
Variable cfg : Config X.

Lemma training_pass_empty (epoch : nat) (s : State X) :
  rank cfg = 0 ->
  train_loader cfg = [] ->
  info s = None ->
  exists s',
    training_pass cfg epoch s = (s', Raise (NameError "info")) /\
    trace s' = trace s /\ scheduler s' = scheduler s.
Proof.
  intros Hr Hl Hi.
  unfold training_pass, log_info, reset_meters.
  rewrite Hr, Hl. cbn [for_each Nat.eqb when].
  unfold bind, modify, ret, get, lift.
  destruct (ternary cfg); cbn [when].
  - rewrite for_modules_run by apply refresh_never_raises.
    state_simpl. rewrite Hi. cbn [local].
    eexists. split; [reflexivity |]. split; reflexivity.
  - unfold ret. state_simpl. rewrite Hi. cbn [local].
    eexists. split; [reflexivity |]. split; reflexivity.
Qed.

Lemma for_epochs_empty (epoch : nat) (rest : list nat) (s : State X) :
  rank cfg = 0 ->
  train_loader cfg = [] ->
  info s = None ->
  exists s',
    for_epochs cfg (epoch :: rest) s = (s', Raise (NameError "info")) /\
    trace s' = trace s /\ scheduler s' = scheduler s.
Proof.
  intros Hr Hl Hi.
  destruct (training_pass_empty epoch s Hr Hl Hi) as (s' & Hrun & Hts).
  exists s'. split; [| exact Hts].
  cbn [for_epochs]. unfold epoch_body, bind. now rewrite Hrun.
Qed.

(** C10. On rank 0, when the training loader yields no batch, the first
    epoch does not complete: the logging that closes the training pass
    reads [info], which only a batch loop assigns, and [execute] raises
    [NameError] before any forward pass, barrier or scheduler step. *)
Theorem empty_training_loader_raises (env : Environ) :
  rank cfg = 0 ->
  train_loader cfg = [] ->
  0 < max_epochs cfg ->
  snd (run cfg env) = Raise (NameError "info") /\
  trace (fst (run cfg env)) = [EvInitProcessGroup 0 (world_size cfg)] /\
  scheduler (fst (run cfg env))
  = MultiStepLR (learning_rate cfg) execute_milestones execute_gamma.
Proof.
  intros Hr Hl Hn.
  assert (exists s',
             run cfg env = (s', Raise (NameError "info")) /\
             trace s' = [EvInitProcessGroup 0 (world_size cfg)] /\
             scheduler s'
             = MultiStepLR (learning_rate cfg) execute_milestones
                           execute_gamma) as (s' & Hrun & Htr & Hs).
  { unfold run, execute. unfold bind at 1. rewrite setup_run.
    destruct (max_epochs cfg) as [| n]; [lia |].
    cbn [seq].
    match goal with
    | |- context [bind (for_epochs cfg (1 :: ?rest)) _ ?s1] =>
        destruct (@for_epochs_empty 1 rest s1 Hr Hl eq_refl)
          as (s' & Hrun & Htr & Hs)
    end.
    exists s'. unfold bind. rewrite Hrun, Htr, Hs, Hr.
    split; [reflexivity |]. split; reflexivity. }
  rewrite Hrun. cbn [fst snd]. split; [reflexivity |].
  split; assumption.
Qed.

End EmptyLoader.

Lemma empty_training_loader_raises_witness :
  rank Synthetic.empty_run = 0 /\
  train_loader Synthetic.empty_run = [] /\
  0 < max_epochs Synthetic.empty_run /\
  snd (run Synthetic.empty_run []) = Raise (NameError "info") /\
  trace (fst (run Synthetic.empty_run []))
  = [EvInitProcessGroup 0 (world_size Synthetic.empty_run)] /\
  scheduler (fst (run Synthetic.empty_run []))
  = MultiStepLR (learning_rate Synthetic.empty_run) execute_milestones
                execute_gamma.
Proof.
  split; [reflexivity |]. split; [reflexivity |].
  split; [unfold Synthetic.empty_run; simpl; lia |].
  apply (@empty_training_loader_raises Synthetic.collaborators
           Synthetic.empty_run []).
  - reflexivity.
  - reflexivity.
  - unfold Synthetic.empty_run; simpl; lia.
Defined.

(** C7 (as the spec states it) fails: the run with an empty training
    loader raises, and its trace holds no destruction of the group. *)
Lemma teardown_skipped_on_exception :
  snd (run Synthetic.empty_run []) = Raise (NameError "info") /\
  ~ In EvDestroyProcessGroup (trace (fst (run Synthetic.empty_run []))).
Proof.
  split; [vm_compute; reflexivity |].
  vm_compute. intros [H | []]. discriminate H.
Qed.

(* ------------------------------------------------------------------ *)
(** ** Ternarization in the validation pass *)

Section ValidationPass.

Variable X : Collaborators.
Variable cfg : Config X.

Ltac modules_frame :=
  frame;
  try (apply preserves_modify; intros; reflexivity).

Lemma validation_batch_modules (b : batch X) :
  preserves (@modules X) (validation_batch cfg b).
Proof. modules_frame. Qed.

(** What the validation pass leaves of one module. *)
Lemma eval_view (m : Module) :
  validation_view X m (fst (shadow_and_ternarize_eval X m)).
Proof.
  unfold validation_view, shadow_and_ternarize_eval, to_ternary.
  destruct (is_first_or_last m); [| reflexivity].
  simpl. rewrite weight_of_with_weight. simpl. split; reflexivity.
Qed.

(** C1 (as the code has it). In ternary mode the validation pass, whether
    it returns or raises, saves every eligible layer's weight in its shadow
    and overwrites the weight, for all validation batches, with the ternary
    tensor whose thresholds [to_ternary] computes from that weight alone;
    the thresholds stored by the per-epoch refresh are not read, and the
    other layers are left as they were. *)
Theorem validation_ternarization (s : State X) :
  ternary cfg = true ->
  modules (fst (validation_pass cfg s))
  = map (fun m => fst (shadow_and_ternarize_eval X m)) (modules s) /\
  Forall2 (validation_view X) (modules s)
          (modules (fst (validation_pass cfg s))).
Proof.
  intros Ht.
  assert (modules (fst (validation_pass cfg s))
          = map (fun m => fst (shadow_and_ternarize_eval X m)) (modules s))
    as Hmod.
  { unfold validation_pass. rewrite Ht. cbn [when].
    unfold bind at 1. unfold reset_meters at 1, modify at 1.
    rewrite preserves_rest.
    - rewrite for_modules_run by apply eval_never_raises. reflexivity.
    - intros _. frame;
        try apply validation_batch_modules;
        try (apply preserves_modify; intros; reflexivity). }
  split; [exact Hmod |].
  rewrite Hmod. clear Hmod.
  induction (modules s) as [| m ms IH]; simpl; constructor;
    [apply eval_view | exact IH].
Qed.

End ValidationPass.

Lemma validation_ternarization_witness :
  ternary Synthetic.ternary_run = true /\
  modules (fst (validation_pass Synthetic.ternary_run
                                Synthetic.after_training))
  = map (fun m => fst (shadow_and_ternarize_eval Synthetic.collaborators m))
        (modules Synthetic.after_training) /\
  Forall2 (validation_view Synthetic.collaborators)
          (modules Synthetic.after_training)
          (modules (fst (validation_pass Synthetic.ternary_run
                                         Synthetic.after_training))).
Proof.
  split; [reflexivity |].
  apply (@validation_ternarization Synthetic.collaborators
           Synthetic.ternary_run Synthetic.after_training).
  reflexivity.
Defined.

(** C1 (as the spec states it) fails on the run [Synthetic.ternary_run]:
    the weights the validation pass installs are not the ternarization
    with the thresholds stored before the training pass, and when the
    epoch ends the weights are not those the training pass had left. *)
Lemma validation_overwrites_weights :
  weights (modules Synthetic.after_validation)
  <> map (fun m => to_ternary Synthetic.collaborators
                     (data (weight_of m))
                     (delta (weight_of m)) (alpha (weight_of m)))
         (modules Synthetic.after_training) /\
  weights (modules Synthetic.after_epoch)
  <> weights (modules Synthetic.after_training).
Proof.
  assert (first_weight (weights (modules Synthetic.after_training))
          = (43 # 100)%Q) as Etrain by (vm_compute; reflexivity).
  assert (first_weight (weights (modules Synthetic.after_validation))
          = (63 # 100)%Q) as Eval by (vm_compute; reflexivity).
  assert (first_weight (weights (modules Synthetic.after_epoch))
          = (63 # 100)%Q) as Eend by (vm_compute; reflexivity).
  assert (first_weight
            (map (fun m => to_ternary Synthetic.collaborators
                             (data (weight_of m))
                             (delta (weight_of m)) (alpha (weight_of m)))
                 (modules Synthetic.after_training))
          = (7 # 10)%Q) as Estored by (vm_compute; reflexivity).
  split; intros H; apply (f_equal first_weight) in H.
  - rewrite Eval, Estored in H. discriminate H.
  - rewrite Eend, Etrain in H. discriminate H.
Qed.

(* ------------------------------------------------------------------ *)
(** ** Box metrics in the validation pass *)

(** The box-level metrics that the loss module returns for a validation
    batch have no influence on what the batch leaves behind: two batches
    that differ in them only are indistinguishable. *)
Lemma validation_batch_ignores_box_metrics (X : Collaborators)
  (cfg : Config X) (b1 b2 : batch X) (s : State X) :
  let o1 := criterion X false (disco_mode cfg) (modules s) b1 in
  let o2 := criterion X false (disco_mode cfg) (modules s) b2 in
  out_l o1 = out_l o2 -> out_c o1 = out_c o2 -> out_r o1 = out_r o2 ->
  out_d o1 = out_d o2 -> out_eventMetrics o1 = out_eventMetrics o2 ->
  validation_batch cfg b1 s = validation_batch cfg b2 s.
Proof.
  intros o1 o2 Hl Hc Hr Hd He.
  unfold validation_batch. unfold bind at 1 3. unfold get at 1 3.
  cbv zeta. fold o1 o2. now rewrite Hl, Hc, Hr, Hd, He.
Qed.

(** C6 fails on the code: in the run [Synthetic.ternary_run] the loss
    module reports box-level precision and recall 1/4 for the validation
    batch, yet the validation running means of the box metrics are 1/2,
    the values of the last training batch; the event-level means are the
    validation batch's own 1/4. *)
Lemma validation_box_metrics_are_stale :
  out_boxMetrics (Synthetic.metrics (1 # 4))
  = [[0; 1 # 4; 1 # 4]; [0; 1 # 4; 1 # 4]]%Q /\
  history (fst (run Synthetic.ternary_run [])) val_boxmetrics
  = [[1 # 2; 1 # 2; 1 # 2; 1 # 2]]%Q /\
  history (fst (run Synthetic.ternary_run [])) val_metrics
  = [[1 # 4; 1 # 4]]%Q.
Proof.
  split; [reflexivity |].
  split; vm_compute; reflexivity.
Qed.

(* ------------------------------------------------------------------ *)
(** ** The early-stopping break and the barrier *)

(** Only rank 0 consults the gate: on every other rank the decision is
    "continue", whatever the losses. *)
Lemma gate_on_other_ranks (X : Collaborators) (cfg : Config X)
  (s : State X) :
  rank cfg <> 0 -> early_stopping_gate cfg s = (s, Ok false).
Proof.
  intros H. unfold early_stopping_gate.
  destruct (Nat.eqb_spec (rank cfg) 0) as [E | _]; [contradiction |].
  reflexivity.
Qed.

(** C2 fails on the code: of two ranks holding the same data, rank 0
    halts in the second epoch, leaves the loop before the barrier and
    destroys its group, and returns; rank 1, which never sees the
    decision, is then blocked for ever in the barrier of that epoch, with
    a third epoch still ahead of it. *)
Lemma early_stopping_strands_other_ranks :
  snd (run (Synthetic.two_ranks 0) []) = Ok tt /\
  world_run 100
    (map (fun r => collectives (trace (fst (run (Synthetic.two_ranks r) []))))
         [0; 1])
  = Blocked [[];
             [SyncBarrier; SyncAllReduce; SyncAllReduce; SyncAllReduce;
              SyncBarrier; SyncDestroy]].
Proof.
  split; vm_compute; reflexivity.
Qed.

(* ------------------------------------------------------------------ *)
(** ** The schedule inside the epoch loop *)

Lemma enters_scheduler (X : Collaborators) (cfg : Config X) (n : nat) :
  forall (a : nat) (s : State X) (e : nat) (s' : State X),
    enters cfg (seq a n) s e s' ->
    a <= e /\
    scheduler s' = Nat.iter (e - a) scheduler_step (scheduler s).
Proof.
  induction n as [| n IH]; intros a s e s' H; simpl in H.
  - inversion H.
  - inversion H as [e1 rest1 s1 | e0 rest s0 s1 e1 s1' Hbody Hrest]; subst.
    + split; [lia |]. now rewrite Nat.sub_diag.
    + destruct (IH _ _ _ _ Hrest) as [Hle Hs]. split; [lia |].
      rewrite Hs. cbn [scheduler set_scheduler].
      pose proof (epoch_body_scheduler cfg a s) as Hf.
      rewrite Hbody in Hf. simpl in Hf. rewrite Hf.
      replace (e - a) with (S (e - S a)) by lia.
      now rewrite Nat.iter_succ_r.
Qed.

(** In [execute] the iteration for [epoch] finds the scheduler after
    [epoch - 1] steps from its initial state. *)
Lemma execute_scheduler_in_epoch (X : Collaborators) (cfg : Config X)
  (env : Environ) (epoch : nat) (s' : State X) :
  enters cfg (seq 1 (max_epochs cfg))
         (fst (setup (rank cfg) (world_size cfg) (initial_state cfg env)))
         epoch s' ->
  scheduler s'
  = scheduler_in_epoch
      (MultiStepLR (learning_rate cfg) execute_milestones execute_gamma)
      epoch.
Proof.
  intros H. apply enters_scheduler in H. destruct H as [_ Hs].
  rewrite Hs. reflexivity.
Qed.

(** C8 (as the spec states it) fails: the optimizer step of epoch 20 of
    the run [Synthetic.long_run] uses the rate 0.1, which is also what
    the schedule with milestones [20, 30] gives for that epoch; the
    claim gives 0.05. *)
Lemma rate_in_epoch_20 :
  nth_error (rates_by_epoch [] (trace (fst (run Synthetic.long_run [])))) 19
  = Some (20, (1 # 10)%Q) /\
  (lr (scheduler_in_epoch (MultiStepLR (1 # 10) [20; 30]%nat (1 # 2)) 20)
   == 1 # 10)%Q /\
  ~ (1 # 10 == 1 # 20)%Q.
Proof.
  split; [vm_compute; reflexivity |].
  split; [vm_compute; reflexivity |].
  intros H. vm_compute in H. discriminate H.
Qed.
(* ------------------------------------------------------------------ *)
(** ** Reasoning about outcomes *)

Section Triples.

Context {X : Collaborators}.

Lemma wp_bind {A B} (m : M X A) (k : A -> M X B) (Q : B -> State X -> Prop)
  (E : exn -> State X -> Prop) (s : State X) :
  wp m (fun a s' => wp (k a) Q E s') E s -> wp (bind m k) Q E s.
Proof.
  unfold wp, bind. destruct (m s) as [s' [a | e]]; exact (fun H => H).
Qed.

Lemma wp_weaken {A} (m : M X A) (Q Q' : A -> State X -> Prop)
  (E E' : exn -> State X -> Prop) (s : State X) :
  (forall a s', Q a s' -> Q' a s') -> (forall e s', E e s' -> E' e s') ->
  wp m Q E s -> wp m Q' E' s.
Proof.
  unfold wp. destruct (m s) as [s' [a | e]]; intros HQ HE H;
    [apply HQ | apply HE]; exact H.
Qed.

Lemma wp_conj {A} (m : M X A) (Q Q' : A -> State X -> Prop)
  (E E' : exn -> State X -> Prop) (s : State X) :
  wp m Q E s -> wp m Q' E' s ->
  wp m (fun a s' => Q a s' /\ Q' a s') (fun e s' => E e s' /\ E' e s') s.
Proof.
  unfold wp. destruct (m s) as [s' [a | e]]; intros H H'; now split.
Qed.

Lemma wp_frame {A T} (P : State X -> T) (m : M X A)
  (Q : A -> State X -> Prop) (E : exn -> State X -> Prop) (s : State X) :
  preserves P m -> wp m Q E s ->
  wp m (fun a s' => Q a s' /\ P s' = P s) (fun e s' => E e s' /\ P s' = P s) s.
Proof.
  intros HP. specialize (HP s). unfold wp.
  destruct (m s) as [s' [a | e]]; intros H; now split.
Qed.

Lemma returns_wp {A} (m : M X A) (Q : A -> State X -> Prop) (s : State X) :
  returns m Q s <-> wp m Q never s.
Proof. reflexivity. Qed.

Lemma wp_ret {A} (a : A) (Q : A -> State X -> Prop)
  (E : exn -> State X -> Prop) (s : State X) :
  Q a s -> wp (ret a) Q E s.
Proof. exact (fun H => H). Qed.

Lemma wp_modify (f : State X -> State X) (Q : unit -> State X -> Prop)
  (E : exn -> State X -> Prop) (s : State X) :
  Q tt (f s) -> wp (modify f) Q E s.
Proof. exact (fun H => H). Qed.

Lemma wp_get (Q : State X -> State X -> Prop) (E : exn -> State X -> Prop)
  (s : State X) :
  Q s s -> wp (@get X) Q E s.
Proof. exact (fun H => H). Qed.

Lemma wp_lift {A} (r : result A) (Q : A -> State X -> Prop)
  (E : exn -> State X -> Prop) (s : State X) :
  match r with Ok a => Q a s | Raise e => E e s end -> wp (lift r) Q E s.
Proof. unfold wp, lift. destruct r; exact (fun H => H). Qed.

Lemma wp_triple {A} (P : State X -> Prop) (m : M X A)
  (Q : A -> State X -> Prop) (E : exn -> State X -> Prop) (s : State X) :
  triple P m Q E -> P s -> wp m Q E s.
Proof. intros H. apply H. Qed.

Lemma triple_weaken {A} (P P' : State X -> Prop) (m : M X A)
  (Q Q' : A -> State X -> Prop) (E E' : exn -> State X -> Prop) :
  (forall s, P' s -> P s) ->
  (forall a s, Q a s -> Q' a s) -> (forall e s, E e s -> E' e s) ->
  triple P m Q E -> triple P' m Q' E'.
Proof.
  intros HP HQ HE H s Hs. eapply wp_weaken; [exact HQ | exact HE |].
  apply H, HP, Hs.
Qed.

Lemma triple_bind {A B} (P : State X -> Prop) (m : M X A)
  (R : A -> State X -> Prop) (k : A -> M X B) (Q : B -> State X -> Prop)
  (E : exn -> State X -> Prop) :
  triple P m R E -> (forall a, triple (R a) (k a) Q E) ->
  triple P (bind m k) Q E.
Proof.
  intros Hm Hk s HP. apply wp_bind.
  eapply wp_weaken; [| | apply Hm, HP]; [| trivial].
  intros a s' HR. apply Hk, HR.
Qed.

Lemma triple_ret {A} (P : State X -> Prop) (a : A)
  (Q : A -> State X -> Prop) (E : exn -> State X -> Prop) :
  (forall s, P s -> Q a s) -> triple P (ret a) Q E.
Proof. intros H s HP. apply H, HP. Qed.

Lemma triple_modify (P : State X -> Prop) (f : State X -> State X)
  (Q : unit -> State X -> Prop) (E : exn -> State X -> Prop) :
  (forall s, P s -> Q tt (f s)) -> triple P (modify f) Q E.
Proof. intros H s HP. apply H, HP. Qed.

Lemma triple_emit (P : State X -> Prop) (e : event)
  (Q : unit -> State X -> Prop) (E : exn -> State X -> Prop) :
  (forall s, P s -> Q tt (set_trace (trace s ++ [e]) s)) ->
  triple P (emit e) Q E.
Proof. apply triple_modify. Qed.

(** The state read is the state in which the rest runs. *)
Lemma triple_get_bind {B} (P : State X -> Prop) (k : State X -> M X B)
  (Q : B -> State X -> Prop) (E : exn -> State X -> Prop) :
  (forall s, P s -> wp (k s) Q E s) -> triple P (bind (@get X) k) Q E.
Proof. intros H s HP. apply wp_bind, H, HP. Qed.

Lemma triple_get_any {B} (P : State X -> Prop) (k : State X -> M X B)
  (Q : B -> State X -> Prop) (E : exn -> State X -> Prop) :
  (forall a, triple P (k a) Q E) -> triple P (bind (@get X) k) Q E.
Proof. intros H. apply triple_get_bind. intros s HP. apply H, HP. Qed.

Lemma triple_lift_bind {A B} (P : State X -> Prop) (r : result A)
  (k : A -> M X B) (Q : B -> State X -> Prop) (E : exn -> State X -> Prop) :
  (forall a, r = Ok a -> triple P (k a) Q E) ->
  (forall e, r = Raise e -> forall s, P s -> E e s) ->
  triple P (bind (lift r) k) Q E.
Proof.
  intros Hk He s HP. apply wp_bind, wp_lift. destruct r as [a | e].
  - apply (Hk a eq_refl), HP.
  - apply (He e eq_refl), HP.
Qed.

Lemma triple_when (P : State X -> Prop) (b : bool) (m : M X unit)
  (Q : unit -> State X -> Prop) (E : exn -> State X -> Prop) :
  (b = true -> triple P m Q E) -> (b = false -> forall s, P s -> Q tt s) ->
  triple P (when b m) Q E.
Proof.
  destruct b; intros Ht Hf; [apply Ht; reflexivity |].
  apply triple_ret, Hf. reflexivity.
Qed.

(** A loop whose body takes the invariant from [I k] to [I (S k)]. *)
Lemma triple_for_each {A} (I : nat -> State X -> Prop) (xs : list A)
  (body : A -> M X unit) (E : exn -> State X -> Prop) :
  (forall x k, In x xs -> triple (I k) (body x) (fun _ => I (S k)) E) ->
  forall k, triple (I k) (for_each xs body)
                   (fun _ => I (k + List.length xs)) E.
Proof.
  induction xs as [| x xs IH]; intros H k; simpl.
  - apply triple_ret. intros s Hs. now rewrite Nat.add_0_r.
  - eapply triple_bind; [apply H; now left |]. intros u; cbv beta.
    rewrite <- Nat.add_succ_comm. apply IH.
    intros y j Hy. apply H. now right.
Qed.

Lemma triple_for_modules (P : State X -> Prop)
  (f : Module -> Module * option exn) (Q : unit -> State X -> Prop)
  (E : exn -> State X -> Prop) :
  (forall s, P s -> Forall (fun m => snd (f m) = None) (modules s)) ->
  (forall s, P s ->
             Q tt (set_modules (map (fun m => fst (f m)) (modules s)) s)) ->
  triple P (for_modules f) Q E.
Proof.
  intros Hno HQ s HP. unfold wp.
  rewrite for_modules_run by (apply Hno, HP). apply HQ, HP.
Qed.

End Triples.

(* ------------------------------------------------------------------ *)
(** ** The exceptions of a run *)

Lemma index_raises {A} (xs : list A) (i : nat) (e : exn) :
  index xs i = Raise e -> e = IndexError.
Proof.
  unfold index. destruct (nth_error xs i); [discriminate |].
  intros H. now injection H.
Qed.

Lemma index2_raises (xs : list (list Q)) (i j : nat) (e : exn) :
  index2 xs i j = Raise e -> e = IndexError.
Proof.
  unfold index2. destruct (index xs i) as [row | e'] eqn:Ei.
  - apply index_raises.
  - intros H. injection H as <-. exact (index_raises _ _ Ei).
Qed.

Lemma metrics_ok_split (out : CritOut) :
  metrics_ok out
  = box_ok (out_boxMetrics out) && event_ok (out_eventMetrics out).
Proof.
  unfold metrics_ok, box_ok, event_ok. now rewrite !Bool.andb_assoc.
Qed.

Lemma bound_box (X : Collaborators) (s : State X) :
  bound s ->
  exists bm, boxMetrics s = Some bm /\
             is_ok (index2 bm 0 1) = true /\ is_ok (index2 bm 0 2) = true /\
             is_ok (index2 bm 1 1) = true /\ is_ok (index2 bm 1 2) = true.
Proof.
  intros (_ & _ & H). destruct (boxMetrics s) as [bm |]; [| contradiction].
  exists bm. unfold box_ok in H. rewrite !Bool.andb_true_iff in H.
  tauto.
Qed.

Ltac inv_unfold :=
  unfold step_inv, validation_inv, training_inv, epoch_inv, world_size_set,
         bound in *.

(** The invariant of a state survives an assignment to a field it does
    not read. *)
Ltac inv_solve :=
  let s := fresh "s" in
  let H := fresh "H" in
  intros s H; inv_unfold; state_simpl;
  repeat match goal with |- _ /\ _ => split end;
  try tauto; try reflexivity; try (intro; discriminate).

(** One statement that keeps the invariant [I], which [tac] shows. *)
Ltac keep_with I tac :=
  lazymatch goal with
  | |- triple _ (bind (modify _) _) _ _ =>
      apply (triple_bind (R := fun _ => I));
      [apply triple_modify; tac | intros ?; cbv beta zeta]
  | |- triple _ (bind (emit _) _) _ _ =>
      apply (triple_bind (R := fun _ => I));
      [apply triple_emit; tac | intros ?; cbv beta zeta]
  | |- triple _ (bind (update _ _) _) _ _ =>
      apply (triple_bind (R := fun _ => I));
      [unfold update; apply triple_modify; tac
      | intros ?; cbv beta zeta]
  | |- triple _ (bind (@reset_meters _) _) _ _ =>
      apply (triple_bind (R := fun _ => I));
      [unfold reset_meters; apply triple_modify; tac
      | intros ?; cbv beta zeta]
  | |- triple _ (bind (append_column _ _) _) _ _ =>
      apply (triple_bind (R := fun _ => I));
      [unfold append_column; apply triple_modify; tac
      | intros ?; cbv beta zeta]
  | |- triple _ (bind (when _ (update _ _)) _) _ _ =>
      apply (triple_bind (R := fun _ => I));
      [apply triple_when; intros _;
       [unfold update; apply triple_modify |]; tac
      | intros ?; cbv beta zeta]
  end.

Ltac keep I := keep_with I inv_solve.

(** The box metrics read by a validation batch are those a training batch
    left, with the entries the loop indexes. *)
Ltac read_box I :=
  let s := fresh "s" in
  let Hs := fresh "Hs" in
  let bm := fresh "bm" in
  let Hbm := fresh "Hbm" in
  let H1 := fresh "Hbox" in
  let H2 := fresh "Hbox" in
  let H3 := fresh "Hbox" in
  let H4 := fresh "Hbox" in
  apply triple_get_bind; intros s Hs; cbv beta zeta;
  destruct (@bound_box _ s) as (bm & Hbm & H1 & H2 & H3 & H4);
  [ inv_unfold; tauto
  | rewrite Hbm; apply wp_bind, wp_lift; cbn [local];
    apply (wp_triple (P := I)); [| exact Hs];
    apply triple_lift_bind;
    [ intros ? ?; cbv beta
    | let e := fresh "e" in let He := fresh "He" in
      intros e He; rewrite He in *; discriminate ] ].

Ltac rewrite_ok :=
  repeat match goal with H : _ = Ok _ |- _ => rewrite H end.

Lemma clamp_shadowed (ms : list Module) :
  shadowed ms = true ->
  shadowed (map (fun m => fst (clamp_and_rebase m)) ms) = true.
Proof.
  unfold shadowed. rewrite !forallb_forall. intros H m' Hm'.
  apply in_map_iff in Hm' as (m & <- & Hm). specialize (H m Hm).
  rewrite clamp_and_rebase_eligible.
  destruct (is_first_or_last m) eqn:E; [| reflexivity].
  unfold clamp_and_rebase. rewrite E.
  destruct (org (weight_of m)); [| discriminate H].
  cbn [fst]. now rewrite weight_of_with_weight.
Qed.

Lemma step_inv_set_modules (X : Collaborators) (cfg : Config X) (rf : bool)
  (bm : option (list (list Q))) (ms : list Module) (s : State X) :
  step_inv cfg rf bm s ->
  quantized ms = quantized (modules s) ->
  (shadowed (modules s) = true -> shadowed ms = true) ->
  step_inv cfg rf bm (set_modules ms s).
Proof.
  intros (((He & Hc) & Hq) & Hs & Hr & Hb) Eq Es.
  unfold step_inv, training_inv, epoch_inv, world_size_set in *.
  state_simpl. rewrite Eq.
  repeat match goal with |- _ /\ _ => split end; try assumption.
  intros Ht. apply Es, Hs, Ht.
Qed.

Lemma eval_shadowed (X : Collaborators) (ms : list Module) :
  shadowed (map (fun m => fst (shadow_and_ternarize_eval X m)) ms) = true.
Proof.
  unfold shadowed. rewrite forallb_forall. intros m' Hm'.
  apply in_map_iff in Hm' as (m & <- & _). unfold shadow_and_ternarize_eval.
  destruct (is_first_or_last m) eqn:E; cbn [fst]; [| now rewrite E].
  now rewrite with_weight_eligible, E, weight_of_with_weight.
Qed.

Lemma shadowed_rebases (ms : list Module) :
  shadowed ms = true -> Forall (fun m => snd (rebase_shadow m) = None) ms.
Proof.
  unfold shadowed. rewrite forallb_forall, Forall_forall.
  intros H m Hm. specialize (H m Hm). unfold rebase_shadow.
  destruct (is_first_or_last m); [| reflexivity].
  destruct (org (weight_of m)); [reflexivity | discriminate].
Qed.

Section Outcome.

Variable X : Collaborators.
Variable cfg : Config X.

Lemma train_batch_outcome (epoch : nat) (b : batch X) :
  In b (train_loader cfg) ->
  triple (training_inv cfg) (train_batch cfg epoch b)
         (fun _ s' => training_inv cfg s' /\ bound s') (index_error cfg).
Proof.
  intros Hb. unfold train_batch.
  apply (triple_bind (R := fun _ => step_inv cfg false None)).
  { apply triple_when; intros Ht.
    - apply triple_for_modules.
      + intros s [_ Hq]. apply quantized_ternarizes, Hq, Ht.
      + intros s [He Hq]. unfold step_inv, training_inv. state_simpl.
        repeat match goal with |- _ /\ _ => split end;
          try exact He; try exact I; try (intro; discriminate); intros _.
        * rewrite (quantized_map _ _ (ternarize_keeps X)). apply Hq, Ht.
        * apply ternarize_shadowed.
    - intros s Hs. unfold step_inv.
      repeat match goal with |- _ /\ _ => split end;
        try exact Hs; try exact I; try (intro; discriminate); congruence. }
  intros _.
  apply triple_get_any; intros a; cbv beta zeta.
  keep (step_inv cfg true None).
  keep (step_inv cfg true None).
  set (out := criterion X true (disco_mode cfg) (modules a) b).
  keep (step_inv cfg true (Some (out_boxMetrics out))).
  repeat keep (step_inv cfg true (Some (out_boxMetrics out))).
  repeat
    (apply triple_lift_bind;
     [ let v := fresh "v" in let Hv := fresh "Hv" in
       intros v Hv; cbv beta;
       keep (step_inv cfg true (Some (out_boxMetrics out)))
     | let e := fresh "e" in let He := fresh "He" in
       intros e He s _; split;
       [ first [exact (index2_raises _ _ _ He) | exact (index_raises _ _ He)]
       | left; exists b, (modules a); split; [exact Hb |];
         fold out; unfold metrics_ok; rewrite_ok; rewrite He;
         reflexivity ] ]).
  assert (Hbox : box_ok (out_boxMetrics out) = true)
    by (unfold box_ok; rewrite_ok; reflexivity).
  clearbody out.
  apply triple_get_any; intros a'; cbv beta zeta.
  apply (triple_bind (R := fun _ => step_inv cfg true
                                             (Some (out_boxMetrics out)))).
  { apply triple_when; intros Ht; [| trivial].
    apply triple_for_modules.
    - intros s (_ & Hs & _). apply shadowed_restores, Hs, Ht.
    - intros s Hs. apply step_inv_set_modules; [exact Hs | |].
      + apply quantized_map, restore_keeps.
      + apply restore_shadowed. }
  intros _.
  apply (triple_bind (R := fun _ => step_inv cfg true
                                             (Some (out_boxMetrics out)))).
  { unfold optimizer_step.
    apply triple_get_any; intros a''; cbv beta zeta.
    keep (step_inv cfg true (Some (out_boxMetrics out))).
    apply (triple_bind (R := fun _ => step_inv cfg true
                                               (Some (out_boxMetrics out)))).
    - apply triple_modify. intros s Hs.
      apply step_inv_set_modules; [exact Hs | |].
      + apply apply_update_quantized.
      + apply apply_update_shadowed.
    - intros _. apply triple_modify. inv_solve. }
  intros _.
  apply (triple_bind (R := fun _ => step_inv cfg true
                                             (Some (out_boxMetrics out)))).
  { apply triple_when; intros Ht; [| trivial].
    apply triple_for_modules.
    - intros s (_ & Hs & _). apply shadowed_clamps, Hs, Ht.
    - intros s Hs. apply step_inv_set_modules; [exact Hs | |].
      + apply quantized_map, clamp_keeps.
      + apply clamp_shadowed. }
  intros _.
  apply triple_get_any; intros a''; cbv beta zeta.
  apply triple_modify. intros s (Ht & _ & Hr & Hm).
  unfold bound, training_inv, epoch_inv, world_size_set in *. state_simpl.
  rewrite Hm.
  repeat match goal with |- _ /\ _ => split end;
    try tauto; try reflexivity.
Qed.

Lemma all_reduce_outcome (sh : bool) (x : Q) (E : exn -> State X -> Prop) :
  triple (validation_inv cfg sh) (all_reduce cfg x)
         (fun _ => validation_inv cfg sh) E.
Proof.
  unfold all_reduce.
  apply triple_get_any; intros a; cbv beta zeta.
  repeat keep (validation_inv cfg sh).
  apply triple_ret. trivial.
Qed.

Lemma environ_int_outcome (sh : bool) (E : exn -> State X -> Prop) :
  triple (validation_inv cfg sh) (environ_int "WORLD_SIZE")
         (fun _ => validation_inv cfg sh) E.
Proof.
  intros s Hs. unfold wp.
  rewrite (@environ_int_run X "WORLD_SIZE" (world_size cfg)).
  - exact Hs.
  - apply Hs.
Qed.

Lemma reduce_tensor_outcome (sh : bool) (x y z : Q) (d : option Q)
  (E : exn -> State X -> Prop) :
  triple (validation_inv cfg sh) (reduce_tensor cfg x y z d)
         (fun _ => validation_inv cfg sh) E.
Proof.
  unfold reduce_tensor.
  repeat (apply (triple_bind (R := fun _ => validation_inv cfg sh));
          [first [apply all_reduce_outcome | apply environ_int_outcome]
          | intros ?; cbv beta zeta]).
  destruct d as [q |]; [| apply triple_ret; trivial].
  repeat (apply (triple_bind (R := fun _ => validation_inv cfg sh));
          [first [apply all_reduce_outcome | apply environ_int_outcome]
          | intros ?; cbv beta zeta]).
  apply triple_ret; trivial.
Qed.

Lemma validation_batch_outcome (b : batch X) :
  In b (val_loader cfg) -> train_loader cfg <> [] ->
  triple (validation_inv cfg true) (validation_batch cfg b)
         (fun _ => validation_inv cfg true) (index_error cfg).
Proof.
  intros Hb Hne. unfold validation_batch.
  apply triple_get_any; intros a; cbv beta zeta.
  keep (validation_inv cfg true).
  set (out := criterion X false (disco_mode cfg) (modules a) b).
  apply (triple_bind (R := fun _ => validation_inv cfg true)).
  { destruct (disco_mode cfg).
    - apply (triple_bind (R := fun _ => validation_inv cfg true));
        [apply reduce_tensor_outcome | intros lcrd; cbv beta].
      apply (triple_bind (R := fun _ => validation_inv cfg true));
        [| intros _; apply triple_ret; trivial].
      destruct (snd lcrd); [| apply triple_ret; trivial].
      unfold update. apply triple_modify. inv_solve.
    - apply (triple_bind (R := fun _ => validation_inv cfg true));
        [apply reduce_tensor_outcome | intros lcrd; cbv beta].
      apply triple_ret; trivial. }
  intros lcr; cbv beta.
  repeat keep (validation_inv cfg true).
  do 4 (read_box (validation_inv cfg true);
        keep (validation_inv cfg true)).
  repeat
    (apply triple_lift_bind;
     [ let v := fresh "v" in let Hv := fresh "Hv" in
       intros v Hv; cbv beta;
       keep (validation_inv cfg true)
     | let e := fresh "e" in let He := fresh "He" in
       intros e He s' _; split;
       [ exact (index_raises _ _ He)
       | right; exists b, (modules a); split; [exact Hb |];
         fold out; unfold event_ok; rewrite_ok; rewrite He;
         reflexivity ] ]).
  apply triple_get_any; intros a'; cbv beta zeta.
  apply triple_modify. inv_solve.
Qed.

Lemma log_info_outcome (sh : bool) (E : exn -> State X -> Prop) :
  train_loader cfg <> [] ->
  triple (validation_inv cfg sh) (@log_info X)
         (fun _ => validation_inv cfg sh) E.
Proof.
  intros Hne. unfold log_info.
  apply triple_get_bind; intros s Hs; cbv beta zeta.
  assert (Hi : is_some (info s) = true) by (apply Hs, Hne).
  destruct (info s) as [i |]; [| discriminate Hi].
  apply wp_bind, wp_lift; cbn [local].
  apply (wp_triple (P := validation_inv cfg sh)); [| exact Hs].
  apply triple_emit. inv_solve.
Qed.

(** The case the outcome lemmas cover: a training batch runs in every
    epoch, or the rank neither logs nor validates. *)
Hypothesis Hstat :
  train_loader cfg <> [] \/ (rank cfg <> 0 /\ val_loader cfg = []).

Lemma rank_0_trains : rank cfg = 0 -> train_loader cfg <> [].
Proof. intros Hr. destruct Hstat as [H | [H _]]; [exact H | contradiction]. Qed.

Lemma validates_trains (b : batch X) :
  In b (val_loader cfg) -> train_loader cfg <> [].
Proof.
  intros Hb. destruct Hstat as [H | [_ H]]; [exact H |].
  rewrite H in Hb. destruct Hb.
Qed.

Lemma log_outcome (sh : bool) (E : exn -> State X -> Prop) :
  triple (validation_inv cfg sh) (when (rank cfg =? 0) (@log_info X))
         (fun _ => validation_inv cfg sh) E.
Proof.
  apply triple_when; [| trivial].
  intros Hr. apply log_info_outcome, rank_0_trains, Nat.eqb_eq, Hr.
Qed.

Lemma columns_outcome (sh : bool) (E : exn -> State X -> Prop)
  (h1 h2 h3 : hist_id) :
  triple (validation_inv cfg sh)
         (bind (@get X) (fun s =>
            bind (append_column h1 (loss_column cfg s)) (fun _ =>
            bind (append_column h2 (metrics_column s)) (fun _ =>
            append_column h3 (boxmetrics_column s)))))
         (fun _ => validation_inv cfg sh) E.
Proof.
  apply triple_get_any; intros a; cbv beta zeta.
  repeat keep (validation_inv cfg sh).
  unfold append_column. apply triple_modify. inv_solve.
Qed.

Lemma training_pass_outcome (epoch : nat) :
  triple (epoch_inv cfg) (training_pass cfg epoch)
         (fun _ => validation_inv cfg false) (index_error cfg).
Proof.
  unfold training_pass.
  keep (epoch_inv cfg).
  apply (triple_bind (R := fun _ => training_inv cfg)).
  { apply triple_when; intros Ht.
    - apply triple_for_modules.
      + intros s _. apply refresh_never_raises.
      + intros s Hs. unfold training_inv, epoch_inv, world_size_set in *.
        state_simpl. split; [exact Hs |]. intros _.
        apply refresh_quantized.
    - intros s Hs. split; [exact Hs | congruence]. }
  intros _.
  apply (triple_bind (R := fun _ => validation_inv cfg false)).
  { eapply triple_weaken;
      [ | | | apply (triple_for_each
                       (fun k s => training_inv cfg s /\ (0 < k -> bound s))
                       (train_loader cfg) (train_batch cfg epoch)
                       (E := index_error cfg)) with (k := 0) ].
    - intros s Hs. split; [exact Hs | lia].
    - intros _ s [[He _] Hb]. cbv beta in Hb.
      unfold validation_inv.
      split; [exact He |]. split; [| intro; discriminate].
      intros Hne. apply Hb.
      destruct (train_loader cfg); [contradiction | simpl; lia].
    - trivial.
    - intros b k Hb.
      eapply triple_weaken; [| | | apply train_batch_outcome, Hb].
      + intros s [Hs _]. exact Hs.
      + intros _ s [Hs Hbd]. split; [exact Hs | intros _; exact Hbd].
      + trivial. }
  intros _.
  apply (triple_bind (R := fun _ => validation_inv cfg false));
    [apply log_outcome | intros _].
  apply columns_outcome.
Qed.

Lemma validation_pass_outcome :
  triple (validation_inv cfg false) (validation_pass cfg)
         (fun _ => validation_inv cfg true) (index_error cfg).
Proof.
  unfold validation_pass.
  keep (validation_inv cfg false).
  apply (triple_bind (R := fun _ => validation_inv cfg true)).
  { apply triple_when; intros Ht.
    - apply triple_for_modules.
      + intros s _. apply eval_never_raises.
      + intros s Hs. unfold validation_inv, epoch_inv, world_size_set,
                       bound in *.
        state_simpl.
        repeat match goal with |- _ /\ _ => split end; try tauto.
        intros _ _. apply eval_shadowed.
    - intros s Hs. unfold validation_inv in *.
      repeat match goal with |- _ /\ _ => split end; try tauto.
      congruence. }
  intros _.
  apply (triple_bind (R := fun _ => validation_inv cfg true)).
  { eapply triple_weaken;
      [ | | | apply (triple_for_each
                       (fun _ s => validation_inv cfg true s)
                       (val_loader cfg) (validation_batch cfg)
                       (E := index_error cfg)) with (k := 0) ];
      try trivial.
    intros b _ Hb.
    apply validation_batch_outcome; [exact Hb |].
    apply (validates_trains _ Hb). }
  intros _.
  apply (triple_bind (R := fun _ => validation_inv cfg true));
    [apply log_outcome | intros _].
  apply columns_outcome.
Qed.

Lemma gate_outcome (E : exn -> State X -> Prop) :
  triple (validation_inv cfg true) (early_stopping_gate cfg)
         (fun _ => validation_inv cfg true) E.
Proof.
  unfold early_stopping_gate.
  destruct (Nat.eqb_spec (rank cfg) 0) as [Hr | _];
    [| apply triple_ret; trivial].
  apply triple_get_bind; intros s Hs; cbv beta zeta.
  pose proof (rank_0_trains Hr) as Hne.
  assert (Hc : is_some (cp_es s) = true) by (apply Hs, Hr).
  assert (Hf : is_some (rflop s) = true) by (apply Hs, Hne).
  destruct (cp_es s) as [es |]; [| discriminate Hc].
  destruct (rflop s) as [rf |]; [| discriminate Hf].
  apply wp_bind, wp_lift; cbn [local].
  apply wp_bind, wp_lift; cbn [local].
  destruct (es_call (Qsum (loss_column cfg s) + rf) es)
    as [[es' saved] halt].
  apply (wp_triple (P := validation_inv cfg true)); [| exact Hs].
  keep (validation_inv cfg true).
  apply (triple_bind (R := fun _ => validation_inv cfg true));
    [| intros _; apply triple_ret; trivial].
  apply triple_when; [intros _ | trivial].
  apply triple_emit. inv_solve.
Qed.

Lemma epoch_end_outcome (E : exn -> State X -> Prop) :
  triple (validation_inv cfg true) (epoch_end cfg)
         (fun _ => epoch_inv cfg) E.
Proof.
  unfold epoch_end.
  apply (triple_bind (R := fun _ => validation_inv cfg true));
    [apply gate_outcome | intros halt].
  destruct halt; [apply triple_ret; intros s Hs; apply Hs |].
  keep (validation_inv cfg true).
  apply (triple_bind (R := fun _ => epoch_inv cfg));
    [| intros _; apply triple_ret; trivial].
  apply triple_when; intros Ht.
  - apply triple_for_modules.
    + intros s (_ & _ & Hs). apply shadowed_rebases, Hs; [reflexivity | exact Ht].
    + intros s (He & _). exact He.
  - intros s Hs. apply Hs.
Qed.

Lemma epoch_body_outcome (epoch : nat) :
  triple (epoch_inv cfg) (epoch_body cfg epoch) (fun _ => epoch_inv cfg)
         (index_error cfg).
Proof.
  unfold epoch_body.
  apply (triple_bind (R := fun _ => validation_inv cfg false));
    [apply training_pass_outcome | intros _].
  apply (triple_bind (R := fun _ => validation_inv cfg true));
    [apply validation_pass_outcome | intros _].
  apply epoch_end_outcome.
Qed.

Lemma for_epochs_outcome (epochs : list nat) :
  triple (epoch_inv cfg) (for_epochs cfg epochs) (fun _ => epoch_inv cfg)
         (index_error cfg).
Proof.
  induction epochs as [| epoch rest IH]; cbn [for_epochs].
  - apply triple_ret. trivial.
  - apply (triple_bind (R := fun _ => epoch_inv cfg));
      [apply epoch_body_outcome | intros halt].
    destruct halt; [apply triple_ret; trivial |].
    keep (epoch_inv cfg). exact IH.
Qed.

Lemma setup_epoch_inv (env : Environ) :
  epoch_inv cfg
    (fst (setup (rank cfg) (world_size cfg) (initial_state cfg env))).
Proof.
  split; [apply setup_world_size |].
  intros Hr. rewrite setup_run. unfold initial_state. state_simpl.
  now rewrite Hr.
Qed.

Lemma execute_outcome (env : Environ) :
  wp (execute cfg) (fun _ _ => True) (index_error cfg)
     (initial_state cfg env).
Proof.
  unfold execute. apply wp_bind.
  pose proof (setup_epoch_inv env) as Hs.
  unfold wp at 1. rewrite setup_run in Hs |- *. cbn [fst] in Hs.
  apply (wp_triple (P := epoch_inv cfg)); [| exact Hs].
  apply (triple_bind (R := fun _ => epoch_inv cfg));
    [apply for_epochs_outcome | intros _].
  unfold cleanup. apply triple_emit. trivial.
Qed.

End Outcome.

(* ------------------------------------------------------------------ *)
(** ** The collective calls of a run *)

Lemma collectives_app (tr tr' : list event) :
  collectives (tr ++ tr') = collectives tr ++ collectives tr'.
Proof.
  induction tr as [| e tr IH]; simpl; [reflexivity |].
  destruct e; simpl; now rewrite IH.
Qed.

Ltac protocol_solve :=
  let s := fresh "s" in
  let Hc := fresh "Hc" in
  let Hs := fresh "Hs" in
  let Hu := fresh "Hu" in
  intros s (Hc & Hs & Hu); unfold protocol_inv, world_size_set in *;
  state_simpl; rewrite ?collectives_app, ?Hc; cbn [collectives];
  rewrite ?app_nil_r;
  repeat match goal with |- _ /\ _ => split end;
  try assumption; try reflexivity; try tauto.

Ltac keep_protocol I := keep_with I protocol_solve.

Section Protocol.

Variable X : Collaborators.
Variable cfg : Config X.

Lemma all_reduce_protocol (u : option nat) (c : list sync) (sch : Scheduler)
  (i : nat) (x : Q) (E : exn -> State X -> Prop) :
  triple (protocol_inv u c sch i) (all_reduce cfg x)
         (fun _ => protocol_inv u c sch (S i)) E.
Proof.
  unfold all_reduce.
  apply triple_get_any; intros a; cbv beta zeta.
  keep_protocol (@protocol_inv X u c sch (S i)).
  { rewrite <- app_assoc. cbn [repeat]. now rewrite repeat_cons. }
  keep_protocol (@protocol_inv X u c sch (S i)).
  apply triple_ret. trivial.
Qed.

Lemma environ_int_protocol (u : option nat) (c : list sync)
  (sch : Scheduler) (i : nat) :
  triple (@protocol_inv X u c sch i) (environ_int "WORLD_SIZE")
         (fun _ => protocol_inv u c sch i) (fun _ _ => u = None).
Proof.
  intros s Hs. unfold wp. destruct u as [n |].
  - rewrite (@environ_int_run X "WORLD_SIZE" n); [exact Hs | apply Hs].
  - unfold environ_int, bind, get, lift.
    destruct (env_get "WORLD_SIZE" (environ s)) as [v |];
      [destruct (int v) |]; trivial.
Qed.

Lemma reduce_tensor_protocol (u : option nat) (c : list sync)
  (sch : Scheduler) (i : nat) (x y z : Q) (d : option Q) :
  triple (protocol_inv u c sch i) (reduce_tensor cfg x y z d)
         (fun _ => protocol_inv u c sch
                     (match d with Some _ => 4 | None => 3 end + i))
         (fun _ _ => u = None).
Proof.
  unfold reduce_tensor.
  do 3 (eapply triple_bind; [apply all_reduce_protocol | intros ?]).
  do 3 (eapply triple_bind; [apply environ_int_protocol | intros ?]).
  cbv beta zeta.
  destruct d as [q |]; [| apply triple_ret; trivial].
  eapply triple_bind; [apply all_reduce_protocol | intros ?].
  eapply triple_bind; [apply environ_int_protocol | intros ?].
  apply triple_ret; trivial.
Qed.

(** The reductions of a validation batch, up to the first read of the box
    metrics. *)
Lemma validation_batch_reduces (u : option nat) (c : list sync)
  (sch : Scheduler) (i : nat) (a : State X) (b : batch X) :
  let out := criterion X false (disco_mode cfg) (modules a) b in
  triple (protocol_inv u c sch i)
    (if disco_mode cfg
     then bind (reduce_tensor cfg (out_l out) (out_c out) (out_r out)
                              (Some (out_d out)))
               (fun lcrd =>
                  bind match snd lcrd with
                       | Some d => update disco d
                       | None => ret tt
                       end
                       (fun _ => ret (fst lcrd)))
     else bind (reduce_tensor cfg (out_l out) (out_c out) (out_r out) None)
               (fun lcrd => ret (fst lcrd)))
    (fun _ => protocol_inv u c sch ((if disco_mode cfg then 4 else 3) + i))
    (fun _ _ => u = None).
Proof.
  intros out. destruct (disco_mode cfg).
  - eapply triple_bind; [apply reduce_tensor_protocol | intros lcrd].
    cbv beta.
    apply (triple_bind (R := fun _ => protocol_inv u c sch (4 + i)));
      [| intros _; apply triple_ret; trivial].
    destruct (snd lcrd); [| apply triple_ret; trivial].
    unfold update. apply triple_modify. protocol_solve.
  - eapply triple_bind; [apply reduce_tensor_protocol | intros lcrd].
    apply triple_ret; trivial.
Qed.

Lemma columns_protocol (u : option nat) (c : list sync) (sch : Scheduler)
  (i : nat) (E : exn -> State X -> Prop) (h1 h2 h3 : hist_id) :
  triple (protocol_inv u c sch i)
         (bind (@get X) (fun s =>
            bind (append_column h1 (loss_column cfg s)) (fun _ =>
            bind (append_column h2 (metrics_column s)) (fun _ =>
            append_column h3 (boxmetrics_column s)))))
         (fun _ => protocol_inv u c sch i) E.
Proof.
  apply triple_get_any; intros a; cbv beta zeta.
  repeat keep_protocol (@protocol_inv X u c sch i).
  unfold append_column. apply triple_modify. protocol_solve.
Qed.

Lemma for_modules_protocol (u : option nat) (c : list sync)
  (sch : Scheduler) (i : nat) (f : Module -> Module * option exn)
  (b : bool) (E : exn -> State X -> Prop) :
  (forall ms, Forall (fun m => snd (f m) = None) ms) ->
  triple (protocol_inv u c sch i) (when b (for_modules f))
         (fun _ => protocol_inv u c sch i) E.
Proof.
  intros Hf. apply triple_when; [intros _ | trivial].
  apply triple_for_modules; [intros s _; apply Hf |].
  protocol_solve.
Qed.

(** A validation batch that no training batch precedes raises when it
    reads the box metrics, after its reductions. *)
Lemma validation_batch_unbound (n : nat) (sch : Scheduler) (b : batch X) :
  triple (protocol_inv (Some n) [SyncInit] sch 0) (validation_batch cfg b)
         (fun _ _ => False) (unbound_box cfg).
Proof.
  unfold validation_batch.
  apply triple_get_any; intros a; cbv beta zeta.
  keep_protocol (@protocol_inv X (Some n) [SyncInit] sch 0).
  eapply triple_bind.
  { eapply triple_weaken;
      [ | | | apply (@validation_batch_reduces (Some n) [SyncInit] sch 0
                                               a b) ];
      [trivial | intros lcr s Hs; exact Hs | intros e s H; discriminate H]. }
  intros lcr; cbv beta.
  repeat keep_protocol
    (@protocol_inv X (Some n) [SyncInit] sch
                   ((if disco_mode cfg then 4 else 3) + 0)).
  apply triple_get_bind; intros s (Hc & _ & _ & Hb); cbv beta zeta.
  rewrite Hb. apply wp_bind, wp_lift; cbn [local].
  split; [reflexivity |]. rewrite Hc. now rewrite Nat.add_0_r.
Qed.

Section Idle.

(** No training batch, and a rank that does not log. *)
Hypothesis Hr : rank cfg <> 0.
Hypothesis Hl : train_loader cfg = [].

Lemma training_pass_idle (u : option nat) (c : list sync) (sch : Scheduler)
  (i : nat) (epoch : nat) (E : exn -> State X -> Prop) :
  triple (protocol_inv u c sch i) (training_pass cfg epoch)
         (fun _ => protocol_inv u c sch i) E.
Proof.
  unfold training_pass. rewrite Hl. cbn [for_each].
  keep_protocol (@protocol_inv X u c sch i).
  eapply triple_bind;
    [apply for_modules_protocol, refresh_never_raises | intros ?; cbv beta].
  apply (triple_bind (R := fun _ => protocol_inv u c sch i));
    [apply triple_ret; trivial | intros ?; cbv beta].
  apply (triple_bind (R := fun _ => protocol_inv u c sch i));
    [| intros _; apply columns_protocol].
  apply triple_when; [| trivial].
  intros H. apply Nat.eqb_eq in H. contradiction.
Qed.

Lemma validation_pass_unbound (n : nat) (sch : Scheduler) (b : batch X)
  (bs : list (batch X)) :
  val_loader cfg = b :: bs ->
  triple (protocol_inv (Some n) [SyncInit] sch 0) (validation_pass cfg)
         (fun _ _ => False) (unbound_box cfg).
Proof.
  intros Hv. unfold validation_pass. rewrite Hv. cbn [for_each].
  keep_protocol (@protocol_inv X (Some n) [SyncInit] sch 0).
  eapply triple_bind;
    [apply for_modules_protocol, eval_never_raises | intros ?; cbv beta].
  apply (triple_bind (R := fun _ _ => False)); [| intros _ s []].
  apply (triple_bind (R := fun _ _ => False)); [| intros _ s []].
  apply validation_batch_unbound.
Qed.

Lemma execute_unbound (env : Environ) (b : batch X) (bs : list (batch X)) :
  val_loader cfg = b :: bs -> 0 < max_epochs cfg ->
  wp (execute cfg) (fun _ _ => False) (unbound_box cfg)
     (initial_state cfg env).
Proof.
  intros Hv Hn. unfold execute. apply wp_bind.
  unfold wp at 1. rewrite setup_run.
  apply (wp_triple
           (P := protocol_inv (Some (world_size cfg)) [SyncInit]
                   (MultiStepLR (learning_rate cfg) execute_milestones
                                execute_gamma) 0)).
  - apply (triple_bind (R := fun _ _ => False)); [| intros _ s []].
    destruct (max_epochs cfg) as [| m]; [lia |]. cbn [seq for_epochs].
    apply (triple_bind (R := fun _ _ => False)); [| intros _ s []].
    unfold epoch_body.
    eapply triple_bind; [apply training_pass_idle | intros ?; cbv beta].
    apply (triple_bind (R := fun _ _ => False)); [| intros _ s []].
    apply (@validation_pass_unbound _ _ _ _ Hv).
  - pose proof (setup_world_size (rank cfg) (world_size cfg)
                  (initial_state cfg env)) as Hw.
    rewrite setup_run in Hw. cbn [fst] in Hw.
    unfold protocol_inv. split; [| split; [| split]];
      [| | exact Hw |]; reflexivity.
Qed.

End Idle.

End Protocol.

(* ------------------------------------------------------------------ *)
(** ** The protocol of a run that returns *)

Lemma completed_epochs_succ (X : Collaborators) (cfg : Config X) (k : nat) :
  completed_epochs cfg (S k)
  = completed_epochs cfg k ++ reductions cfg ++ [SyncBarrier].
Proof.
  unfold completed_epochs. cbn [repeat]. rewrite repeat_cons, concat_app.
  cbn [List.concat]. now rewrite app_nil_r.
Qed.

Ltac protocol_frame :=
  frame;
  try (apply preserves_for_modules; intros; reflexivity);
  try (apply preserves_modify; intros; unfold protocol_view; state_simpl;
       rewrite ?collectives_app; cbn [collectives]; rewrite ?app_nil_r;
       reflexivity).

(** Statements that keep [I], whatever they raise. *)
Ltac keep_anyhow I :=
  repeat
    lazymatch goal with
    | |- triple _ (bind (@get _) _) _ _ =>
        apply triple_get_any; intros ?; cbv beta zeta
    | |- triple _ (bind (lift _) _) _ _ =>
        apply triple_lift_bind;
        [intros ? ?; cbv beta zeta | intros; exact Logic.I]
    | |- triple _ (bind _ _) _ _ => keep_protocol I
    end.

Section ProtocolOfRun.

Variable X : Collaborators.
Variable cfg : Config X.

Lemma train_batch_view (epoch : nat) (b : batch X) :
  preserves (@protocol_view X) (train_batch cfg epoch b).
Proof. protocol_frame. Qed.

Lemma training_pass_view (epoch : nat) :
  preserves (@protocol_view X) (training_pass cfg epoch).
Proof.
  unfold training_pass.
  frame;
    try apply train_batch_view;
    try (apply preserves_for_modules; intros; reflexivity);
    try (apply preserves_modify; intros; unfold protocol_view; state_simpl;
         rewrite ?collectives_app; cbn [collectives]; rewrite ?app_nil_r;
         reflexivity).
Qed.

Lemma triple_of_view {A} (m : M X A) (c : list sync) (sch : Scheduler)
  (i : nat) :
  preserves (@protocol_view X) m ->
  triple (protocol_inv None c sch i) m (fun _ => protocol_inv None c sch i)
         anyhow.
Proof.
  intros Hm s (Hc & Hs & _). specialize (Hm s). unfold wp.
  destruct (m s) as [s' [a | e]]; [| exact I].
  cbn [fst] in Hm. unfold protocol_view in Hm.
  injection Hm as Hc' Hs'. unfold protocol_inv.
  rewrite Hc', Hs'. now repeat split.
Qed.

Lemma validation_batch_protocol (c : list sync) (sch : Scheduler) (i : nat)
  (b : batch X) :
  triple (protocol_inv None c sch i) (validation_batch cfg b)
         (fun _ => protocol_inv None c sch
                     ((if disco_mode cfg then 4 else 3) + i))
         anyhow.
Proof.
  unfold validation_batch.
  apply triple_get_any; intros a; cbv beta zeta.
  keep_protocol (@protocol_inv X None c sch i).
  eapply triple_bind.
  { eapply triple_weaken;
      [ | | | apply (@validation_batch_reduces X cfg None c sch i a b) ];
      [trivial | intros lcr s Hs; exact Hs | intros; exact I]. }
  intros lcr; cbv beta.
  keep_anyhow (@protocol_inv X None c sch
                 ((if disco_mode cfg then 4 else 3) + i)).
  apply triple_modify. protocol_solve.
Qed.

Lemma validation_pass_protocol (c : list sync) (sch : Scheduler) :
  triple (protocol_inv None c sch 0) (validation_pass cfg)
         (fun _ s => collectives (trace s) = c ++ reductions cfg /\
                     scheduler s = sch)
         anyhow.
Proof.
  unfold validation_pass.
  keep_protocol (@protocol_inv X None c sch 0).
  eapply triple_bind;
    [apply for_modules_protocol, eval_never_raises | intros ?; cbv beta].
  set (r := if disco_mode cfg then 4 else 3).
  apply (triple_bind
           (R := fun _ => protocol_inv None c sch
                            ((0 + List.length (val_loader cfg)) * r))).
  { apply (triple_for_each
             (fun j s => protocol_inv None c sch (j * r) s)
             (val_loader cfg) (validation_batch cfg) (E := anyhow))
      with (k := 0).
    intros b j _.
    eapply triple_weaken; [| | | apply validation_batch_protocol];
      [intros s Hs; exact Hs | | trivial].
    intros u s Hs. exact Hs. }
  intros _.
  apply (triple_bind
           (R := fun _ => protocol_inv None c sch
                            ((0 + List.length (val_loader cfg)) * r))).
  { apply triple_when; [intros _ | trivial].
    unfold log_info.
    keep_anyhow (@protocol_inv X None c sch
                   ((0 + List.length (val_loader cfg)) * r)).
    apply triple_emit. protocol_solve. }
  intros _.
  eapply triple_weaken; [| | | apply columns_protocol];
    [intros s Hs; exact Hs | | intros e s H; exact H].
  intros _ s (Hc & Hs & _). split; [| exact Hs].
  rewrite Hc. unfold reductions. fold r. cbn [Nat.add].
  now rewrite Nat.mul_comm.
Qed.

Lemma gate_protocol (c : list sync) (sch : Scheduler) (i : nat) :
  triple (protocol_inv None c sch i) (early_stopping_gate cfg)
         (fun halt s => protocol_inv None c sch i s /\
                         (halt = true -> rank cfg = 0))
         anyhow.
Proof.
  unfold early_stopping_gate.
  destruct (Nat.eqb_spec (rank cfg) 0) as [Hr | _].
  - eapply triple_weaken with (P := protocol_inv None c sch i)
                              (Q := fun _ => protocol_inv None c sch i);
      [intros s Hs; exact Hs
      | intros halt s Hs; split; [exact Hs | intros _; exact Hr]
      | intros e s H; exact H |].
    apply triple_get_any; intros a; cbv beta zeta.
    keep_anyhow (@protocol_inv X None c sch i).
    destruct (es_call (Qsum (loss_column cfg a) + a1) a0)
      as [[es' saved] halt].
    keep_protocol (@protocol_inv X None c sch i).
    apply (triple_bind (R := fun _ => protocol_inv None c sch i));
      [| intros _; apply triple_ret; trivial].
    apply triple_when; [intros _ | trivial].
    apply triple_emit. protocol_solve.
  - apply triple_ret. intros s Hs. split; [exact Hs | discriminate].
Qed.

(** An epoch that returns has made the reductions of its validation
    pass; it has then passed the barrier, unless rank 0 broke out of the
    loop. *)
Lemma epoch_body_protocol (c : list sync) (sch : Scheduler) (epoch : nat) :
  triple (protocol_inv None c sch 0) (epoch_body cfg epoch)
         (fun halt s =>
            if halt
            then rank cfg = 0 /\
                 collectives (trace s) = c ++ reductions cfg /\
                 scheduler s = sch
            else protocol_inv None (c ++ reductions cfg ++ [SyncBarrier])
                              sch 0 s)
         anyhow.
Proof.
  unfold epoch_body.
  eapply triple_bind;
    [apply triple_of_view, training_pass_view | intros ?; cbv beta].
  eapply triple_bind; [apply validation_pass_protocol | intros ?; cbv beta].
  unfold epoch_end.
  apply (triple_bind
           (R := fun halt s =>
                   protocol_inv None (c ++ reductions cfg) sch 0 s /\
                   (halt = true -> rank cfg = 0))).
  { eapply triple_weaken; [| | | apply gate_protocol];
      [| intros halt s Hs; exact Hs | intros e s H; exact H].
    intros s [Hc Hs]. unfold protocol_inv. cbn [repeat].
    rewrite app_nil_r. now repeat split. }
  intros [|].
  - apply triple_ret. intros s [(Hc & Hs & _) Hr].
    cbn [repeat] in Hc. rewrite app_nil_r in Hc.
    split; [apply Hr; reflexivity | now split].
  - apply (triple_bind
             (R := fun _ => protocol_inv None
                              (c ++ reductions cfg ++ [SyncBarrier]) sch 0)).
    { apply triple_emit. intros s [Hs _]. revert s Hs. protocol_solve.
      now rewrite <- app_assoc. }
    intros _.
    apply (triple_bind
             (R := fun _ => protocol_inv None
                              (c ++ reductions cfg ++ [SyncBarrier]) sch 0));
      [| intros _; apply triple_ret; trivial].
    apply triple_when; [intros _ | trivial].
    intros s Hs. unfold wp, for_modules.
    destruct (each_module rebase_shadow (modules s)) as [ms [e |]];
      [exact I |].
    revert s Hs. protocol_solve.
Qed.

(** The loop from the state that follows [k] completed epochs. *)
Lemma for_epochs_protocol (epochs : list nat) :
  forall (k : nat) (sch : Scheduler),
    triple (protocol_inv None (SyncInit :: completed_epochs cfg k) sch 0)
           (for_epochs cfg epochs)
           (fun _ s =>
              exists j halted,
                collectives (trace s)
                = SyncInit :: completed_epochs cfg (k + j)
                  ++ (if halted : bool then reductions cfg else []) /\
                scheduler s = Nat.iter j scheduler_step sch /\
                (if halted then rank cfg = 0 /\ j < List.length epochs
                 else j = List.length epochs))
           anyhow.
Proof.
  induction epochs as [| epoch rest IH]; intros k sch; cbn [for_epochs].
  - apply triple_ret. intros s (Hc & Hs & _). exists 0, false.
    cbn [repeat] in Hc. rewrite app_nil_r in Hc.
    rewrite Nat.add_0_r, app_nil_r. now repeat split.
  - eapply triple_bind; [apply epoch_body_protocol | intros [|]; cbv beta].
    + apply triple_ret. intros s (Hr & Hc & Hs). exists 0, true.
      rewrite Nat.add_0_r. cbn [List.length].
      repeat split; [exact Hc | exact Hs | exact Hr | lia].
    + apply (triple_bind
               (R := fun _ => protocol_inv None
                                (SyncInit :: completed_epochs cfg (S k))
                                (scheduler_step sch) 0)).
      * apply triple_modify. intros s (Hc & Hs & _).
        unfold protocol_inv. state_simpl.
        rewrite Hc, Hs, completed_epochs_succ. now repeat split.
      * intros _.
        eapply triple_weaken; [| | | apply IH];
          [intros s Hs; exact Hs | | intros e s H; exact H].
        intros _ s (j & halted & Hc & Hs & Hj).
        exists (S j), halted.
        rewrite <- Nat.add_succ_comm. split; [exact Hc |].
        split; [now rewrite Nat.iter_succ_r |].
        cbn [List.length]. destruct halted; [split; [apply Hj | lia] | lia].
Qed.

End ProtocolOfRun.

(** The collective calls and the scheduler of a run that returns. *)
Lemma execute_collectives (X : Collaborators) (cfg : Config X)
  (env : Environ) :
  wp (execute cfg)
     (fun _ s' =>
        exists k halted,
          collectives (trace s')
          = SyncInit :: completed_epochs cfg k
            ++ (if halted : bool then reductions cfg else [])
            ++ [SyncDestroy] /\
          scheduler s'
          = Nat.iter k scheduler_step
              (MultiStepLR (learning_rate cfg) execute_milestones
                           execute_gamma) /\
          (if halted then rank cfg = 0 /\ k < max_epochs cfg
           else k = max_epochs cfg))
     anyhow (initial_state cfg env).
Proof.
  unfold execute. apply wp_bind. unfold wp at 1. rewrite setup_run.
  apply (wp_triple
           (P := protocol_inv None (SyncInit :: completed_epochs cfg 0)
                   (MultiStepLR (learning_rate cfg) execute_milestones
                                execute_gamma) 0));
    [| unfold protocol_inv; now repeat split].
  eapply triple_bind; [apply for_epochs_protocol | intros ?; cbv beta].
  unfold cleanup. apply triple_emit.
  intros s (j & halted & Hc & Hs & Hj). exists j, halted.
  state_simpl. rewrite collectives_app, Hc. cbn [collectives Nat.add].
  rewrite length_seq in Hj.
  split; [now rewrite <- app_comm_cons, <- app_assoc | now split].
Qed.

(** X9. A run of [execute] that returns has initialised the process group,
    completed [k] epochs, each with one reduction per loss term and
    validation batch followed by one barrier, and destroyed the group; the
    scheduler has stepped once per completed epoch.  Either all the epochs
    are completed, or rank 0 has left the loop through the early-stopping
    break, after the reductions of one more epoch and before its barrier:
    a rank other than 0 never leaves early. *)
Theorem execute_protocol (X : Collaborators) (cfg : Config X)
  (env : Environ) :
  match run cfg env with
  | (s', Ok _) =>
      exists k halted,
        collectives (trace s')
        = SyncInit :: completed_epochs cfg k
          ++ (if halted : bool then reductions cfg else [])
          ++ [SyncDestroy] /\
        scheduler s'
        = Nat.iter k scheduler_step
            (MultiStepLR (learning_rate cfg) execute_milestones
                         execute_gamma) /\
        (if halted then rank cfg = 0 /\ k < max_epochs cfg
         else k = max_epochs cfg)
  | (_, Raise _) => True
  end.
Proof.
  assert (wp (execute cfg)
             (fun _ s' =>
                exists k halted,
                  collectives (trace s')
                  = SyncInit :: completed_epochs cfg k
                    ++ (if halted : bool then reductions cfg else [])
                    ++ [SyncDestroy] /\
                  scheduler s'
                  = Nat.iter k scheduler_step
                      (MultiStepLR (learning_rate cfg) execute_milestones
                                   execute_gamma) /\
                  (if halted then rank cfg = 0 /\ k < max_epochs cfg
                   else k = max_epochs cfg))
             anyhow (initial_state cfg env)) as H.
  { apply execute_collectives. }
  unfold wp in H. unfold run.
  destruct (execute cfg (initial_state cfg env)) as [s' [[] | e]];
    [exact H | exact I].
Qed.

(* ------------------------------------------------------------------ *)
(** ** How a run ends *)

Lemma run_no_epoch (X : Collaborators) (cfg : Config X) (env : Environ) :
  max_epochs cfg = 0 -> snd (run cfg env) = Ok tt.
Proof.
  intros Hm. unfold run, execute. rewrite Hm. cbn [seq for_epochs].
  unfold bind. rewrite setup_run. reflexivity.
Qed.

(** *** The group, one step after the other *)












(** Without that group the rank does not get as far: of two ranks that
    both have no training batch, rank 0 fails on [info] before any
    reduction, and rank 1 waits in its first [all_reduce] for ever. *)
Lemma idle_ranks_block :
  snd (run (Synthetic.idle 0) []) = Raise (NameError "info") /\
  world_run 100
    (map (fun r => collectives (trace (fst (run (Synthetic.idle r) []))))
         [0; 1])
  = Blocked [[]; [SyncAllReduce; SyncAllReduce; SyncAllReduce]].
Proof.
  split; vm_compute; reflexivity.
Qed.

(** X7. A run of [execute] that ends in an exception ends in one of
    three, each only under its cause: [NameError] for [info], only on rank
    0 with an empty training loader; [NameError] for [boxMetrics], only on
    another rank with an empty training loader and a validation loader
    that is not; [IndexError], only when the loss module reports metrics
    that lack an entry the loops index.  So [setup], the epoch loop and
    [cleanup] raise no [AttributeError] for the [org], [delta] or [alpha]
    of a weight and no [KeyError] for an environment variable.  The run
    starts from [initial_state]: the objects of lines 57-152 are built,
    and [int8] is off. *)
Theorem execute_exceptions (X : Collaborators) (cfg : Config X)
  (env : Environ) :
  match snd (run cfg env) with
  | Ok _ => True
  | Raise e => execute_raises cfg e
  end.
Proof.
  assert (Hidx : (train_loader cfg <> [] \/
                  (rank cfg <> 0 /\ val_loader cfg = [])) ->
                 match snd (run cfg env) with
                 | Ok _ => True
                 | Raise e => execute_raises cfg e
                 end).
  { intros Hstat. pose proof (@execute_outcome X cfg Hstat env) as H.
    unfold wp in H. unfold run.
    destruct (execute cfg (initial_state cfg env)) as [s' [[] | e]];
      [exact I |].
    right; right. exact H. }
  destruct (train_loader cfg) as [| b0 bs0] eqn:Hl;
    [| apply Hidx; left; discriminate].
  destruct (max_epochs cfg) as [| m] eqn:Hm;
    [now rewrite run_no_epoch |].
  destruct (Nat.eq_dec (rank cfg) 0) as [Hr | Hr].
  - unfold run, execute, bind. rewrite setup_run, Hm. cbn [seq].
    match goal with
    | |- context [for_epochs cfg (1 :: ?rest) ?s1] =>
        destruct (@for_epochs_empty X cfg 1 rest s1 Hr Hl eq_refl)
          as (s' & -> & _)
    end.
    left. now repeat split.
  - destruct (val_loader cfg) as [| b bs] eqn:Hv;
      [apply Hidx; right; now split |].
    assert (Hn : 0 < max_epochs cfg) by lia.
    pose proof (@execute_unbound X cfg Hr Hl env _ _ Hv Hn) as H.
    unfold wp in H. unfold run.
    destruct (execute cfg (initial_state cfg env)) as [s' [[] | e]];
      [exact I |].
    destruct H as [-> _]. right; left.
    repeat split; try assumption. rewrite Hv. discriminate.
Qed.



(* ------------------------------------------------------------------ *)
(** ** Process-group setup and the environment *)

(** X1. [setup] returns; it leaves [RANK], [WORLD_SIZE], [MASTER_PORT] and
    [MASTER_ADDR] set, whatever they held before, and every other variable
    as it was; the rank and the world size read back from the environment
    are the numbers it was given; and it initialises the process group
    once. *)
Theorem setup_environ (X : Collaborators) (r n : nat) (s : State X)
  (k : string) :
  let s' := fst (setup r n s) in
  snd (setup r n s) = Ok tt /\
  env_get k (environ s')
  = (if String.eqb k "RANK" then Some (str r)
     else if String.eqb k "WORLD_SIZE" then Some (str n)
     else if String.eqb k "MASTER_PORT" then Some "11223"%string
     else if String.eqb k "MASTER_ADDR" then Some "127.0.0.1"%string
     else env_get k (environ s)) /\
  snd (environ_int "RANK" s') = Ok r /\
  snd (environ_int "WORLD_SIZE" s') = Ok n /\
  trace s' = trace s ++ [EvInitProcessGroup r n].
Proof.
  cbv zeta. rewrite setup_run. cbn [fst snd]. state_simpl.
  split; [reflexivity |]. split; [| split; [| split; [| reflexivity]]].
  - destruct (String.eqb k "RANK") eqn:E1.
    { apply String.eqb_eq in E1. subst k. apply env_get_set_eq. }
    rewrite env_get_set_neq by exact E1.
    destruct (String.eqb k "WORLD_SIZE") eqn:E2.
    { apply String.eqb_eq in E2. subst k. apply env_get_set_eq. }
    rewrite env_get_set_neq by exact E2.
    destruct (String.eqb k "MASTER_PORT") eqn:E3.
    { apply String.eqb_eq in E3. subst k. apply env_get_set_eq. }
    rewrite env_get_set_neq by exact E3.
    destruct (String.eqb k "MASTER_ADDR") eqn:E4.
    { apply String.eqb_eq in E4. subst k. apply env_get_set_eq. }
    now rewrite env_get_set_neq by exact E4.
  - rewrite (@environ_int_run X "RANK" r); [reflexivity |].
    state_simpl. apply env_get_set_eq.
  - rewrite (@environ_int_run X "WORLD_SIZE" n); [reflexivity |].
    state_simpl. rewrite env_get_set_neq by reflexivity.
    apply env_get_set_eq.
Qed.



(* ------------------------------------------------------------------ *)
(** ** The training loop of an epoch *)

(** X3. In ternary mode, from any state, the per-epoch refresh of the
    thresholds followed by the loop over the training batches returns
    when the metrics are well-formed, and the calls it makes are exactly
    one forward pass followed by one optimizer step per batch. *)
Theorem refresh_and_training_loop (X : Collaborators) (cfg : Config X)
  (epoch : nat) (s : State X) :
  ternary cfg = true ->
  (forall b ms, In b (train_loader cfg) ->
                metrics_ok (criterion X true (disco_mode cfg) ms b) = true) ->
  exists s' evs,
    bind (for_modules (refresh_quantization X))
         (fun _ => for_each (train_loader cfg) (train_batch cfg epoch)) s
    = (s', Ok tt) /\
    trace s' = trace s ++ evs /\
    cycles evs = Some (List.length (train_loader cfg)) /\
    quantized (modules s') = true.
Proof.
  intros Ht Hm. unfold bind.
  rewrite for_modules_run by apply refresh_never_raises.
  pose proof (@training_loop_cycles X cfg epoch (train_loader cfg) Ht Hm
                (set_modules
                   (map (fun m => fst (refresh_quantization X m))
                        (modules s)) s)
                (refresh_quantized X (modules s))) as H.
  apply returns_elim in H. destruct H as ([] & s' & Hrun & Hq & evs & Htr & Hc).
  exists s', evs. now repeat split.
Qed.

Lemma refresh_and_training_loop_witness :
  exists s' evs,
    bind (for_modules (refresh_quantization Synthetic.collaborators))
         (fun _ => for_each (train_loader Synthetic.ternary_run)
                            (train_batch Synthetic.ternary_run 1))
         (initial_state Synthetic.ternary_run [])
    = (s', Ok tt) /\
    trace s' = trace (initial_state Synthetic.ternary_run []) ++ evs /\
    cycles evs = Some (List.length (train_loader Synthetic.ternary_run)) /\
    quantized (modules s') = true.
Proof.
  apply (@refresh_and_training_loop Synthetic.collaborators
           Synthetic.ternary_run 1 (initial_state Synthetic.ternary_run [])).
  - reflexivity.
  - intros b ms [<- | []]. reflexivity.
Defined.

Section PlainStep.

Variable X : Collaborators.
Variable cfg : Config X.

(** X4. With ternary mode off a training step returns when the metrics are
    well-formed; the forward pass and the optimizer step see the stored
    weights, and each weight is left at the optimizer's update of it,
    with no clamp. *)
Theorem train_batch_plain (epoch : nat) (b : batch X) (s : State X) :
  ternary cfg = false ->
  (forall ms, metrics_ok (criterion X true (disco_mode cfg) ms b) = true) ->
  exists s',
    train_batch cfg epoch b s = (s', Ok tt) /\
    trace s' = trace s ++ [EvForward true (weights (modules s));
                           EvOptimizerStep (lr (scheduler s))
                                           (weights (modules s))] /\
    modules s'
    = apply_update
        (sgd_update X (optimizer s) (lr (scheduler s))
                    (backward X (disco_mode cfg) (modules s) b))
        0 (modules s).
Proof.
  intros Ht Hm.
  assert (returns (train_batch cfg epoch b)
            (fun _ s' =>
               trace s' = trace s ++ [EvForward true (weights (modules s));
                                      EvOptimizerStep (lr (scheduler s))
                                        (weights (modules s))] /\
               modules s'
               = apply_update
                   (sgd_update X (optimizer s) (lr (scheduler s))
                      (backward X (disco_mode cfg) (modules s) b))
                   0 (modules s)) s) as H.
  { destruct (metrics_ok_values _ (Hm (modules s)))
      as (v1 & v2 & v3 & v4 & v5 & v6 & H1 & H2 & H3 & H4 & H5 & H6).
    unfold train_batch, optimizer_step. rewrite Ht.
    remember (modules s) as ms0 eqn:Em.
    remember (optimizer s) as o0 eqn:Eo.
    remember (scheduler s) as sch0 eqn:Es.
    remember (trace s) as tr0 eqn:Et.
    pose proof (eq_sym Em) as Hmod.
    pose proof (eq_sym Eo) as Hopt.
    pose proof (eq_sym Es) as Hsch.
    pose proof (eq_sym Et) as Htrc.
    clear Em Eo Es Et.
    destruct (disco_mode cfg); run Hmod Hopt Hsch Htrc.
    all: state_simpl; rewrite ?Hmod, ?Hsch, ?Htrc, <- ?app_assoc.
    all: split; reflexivity. }
  apply returns_elim in H. destruct H as ([] & s' & Hrun & Htr & Hmod).
  exists s'. now repeat split.
Qed.

End PlainStep.

Lemma train_batch_plain_witness :
  exists s',
    train_batch (Synthetic.two_ranks 0) 1 (Synthetic.metrics (1 # 2))
                (initial_state (Synthetic.two_ranks 0) [])
    = (s', Ok tt) /\
    trace s' = [EvForward true [[1 # 2]%Q];
                EvOptimizerStep (1 # 10) [[1 # 2]%Q]] /\
    modules s'
    = [Conv2d (1, 1) 1 1 (mkParam [9 # 20]%Q None None None)].
Proof.
  apply (@train_batch_plain Synthetic.collaborators (Synthetic.two_ranks 0)
           1 (Synthetic.metrics (1 # 2))
           (initial_state (Synthetic.two_ranks 0) [])).
  - reflexivity.
  - intros ms. reflexivity.
Defined.

(* ------------------------------------------------------------------ *)
(** ** The quantizer's attributes when ternary mode is off *)

Lemma apply_update_attributes (f : nat -> tensor -> tensor)
  (ms : list Module) (i : nat) :
  attributes (apply_update f i ms) = attributes ms.
Proof.
  unfold attributes. revert i.
  induction ms as [| m ms IH]; intros i; simpl; [reflexivity |].
  rewrite weight_of_with_weight, IH. reflexivity.
Qed.

(** One step of [frame]. *)
Ltac frame_step :=
  lazymatch goal with
  | |- preserves _ (bind _ _) => apply preserves_bind; [| intro]
  | |- preserves _ (ret _) => apply preserves_ret
  | |- preserves _ (lift _) => apply preserves_lift
  | |- preserves _ (@get _) => apply preserves_get
  | |- preserves _ (when _ _) => apply preserves_when
  | |- preserves _ (for_each _ _) => apply preserves_for_each; intro
  | |- preserves _ (if ?b then _ else _) => destruct b
  | |- preserves _ (match ?x with _ => _ end) => destruct x
  | |- preserves _ (let '(_, _) := ?x in _) => destruct x
  | |- preserves _ (update _ _) => unfold update
  | |- preserves _ (emit _) => unfold emit
  | |- preserves _ (append_column _ _) => unfold append_column
  | |- preserves _ (@reset_meters _) => unfold reset_meters
  | |- preserves _ (@log_info _) => unfold log_info
  | |- preserves _ (environ_int _) => unfold environ_int
  | |- preserves _ (all_reduce _ _) => unfold all_reduce
  | |- preserves _ (reduce_tensor _ _ _ _ _) => unfold reduce_tensor
  | |- preserves _ (early_stopping_gate _) => unfold early_stopping_gate
  end.

Section PlainRun.

Variable X : Collaborators.
Variable cfg : Config X.
Hypothesis Ht : ternary cfg = false.

Lemma train_batch_attributes (epoch : nat) (b : batch X) :
  preserves (fun s : State X => attributes (modules s))
            (train_batch cfg epoch b).
Proof.
  unfold train_batch, optimizer_step. rewrite Ht. cbn [when].
  repeat frame_step;
    apply preserves_modify; intros; state_simpl;
    rewrite ?apply_update_attributes; reflexivity.
Qed.

Lemma validation_batch_attributes (b : batch X) :
  preserves (fun s : State X => attributes (modules s))
            (validation_batch cfg b).
Proof.
  unfold validation_batch.
  repeat frame_step; apply preserves_modify; intros; reflexivity.
Qed.

Lemma epoch_body_attributes (epoch : nat) :
  preserves (fun s : State X => attributes (modules s))
            (epoch_body cfg epoch).
Proof.
  unfold epoch_body, training_pass, validation_pass, epoch_end.
  rewrite Ht. cbn [when].
  repeat first [ apply train_batch_attributes
               | apply validation_batch_attributes
               | frame_step ];
    apply preserves_modify; intros; reflexivity.
Qed.

Lemma for_epochs_attributes (epochs : list nat) :
  preserves (fun s : State X => attributes (modules s))
            (for_epochs cfg epochs).
Proof.
  induction epochs as [| epoch rest IH]; simpl.
  - apply preserves_ret.
  - apply preserves_bind; [apply epoch_body_attributes |].
    intros [|]; [apply preserves_ret |].
    apply preserves_bind; [| intros _; exact IH].
    apply preserves_modify. intros s. reflexivity.
Qed.

(** X5. With ternary mode off, a run of [execute], whether it returns or
    raises, attaches no shadow copy and no threshold to any weight and
    changes none that a weight carries. *)
Theorem plain_run_attributes (env : Environ) :
  attributes (modules (fst (run cfg env))) = attributes (ssd_net cfg).
Proof.
  unfold run, execute.
  assert (preserves (fun s : State X => attributes (modules s))
                    (bind (setup (rank cfg) (world_size cfg))
                          (fun _ => bind (for_epochs cfg
                                            (seq 1 (max_epochs cfg)))
                                         (fun _ => cleanup (X := X)))))
    as H.
  { unfold setup, cleanup.
    repeat first [apply for_epochs_attributes | frame_step];
      apply preserves_modify; intros; reflexivity. }
  apply H.
Qed.

End PlainRun.

Lemma plain_run_attributes_witness :
  attributes (modules (fst (run (Synthetic.two_ranks 0) [])))
  = [(None, None, None)].
Proof.
  apply (@plain_run_attributes Synthetic.collaborators
           (Synthetic.two_ranks 0) eq_refl []).
Defined.

(* ------------------------------------------------------------------ *)
(** ** The weights an epoch leaves in ternary mode *)

Lemma each_module_ok (f : Module -> Module * option exn)
  (ms ms' : list Module) :
  each_module f ms = (ms', None) -> ms' = map (fun m => fst (f m)) ms.
Proof.
  revert ms'. induction ms as [| m ms IH]; intros ms'; simpl.
  - intros H. now injection H as <-.
  - destruct (f m) as [m1 [e |]]; [discriminate |].
    destruct (each_module f ms) as [rest e]. intros H.
    injection H as <- ->. simpl. now rewrite (IH rest eq_refl).
Qed.

Lemma rebase_eval_epoch_view (X : Collaborators) (m : Module) :
  epoch_view X m
    (fst (rebase_shadow (fst (shadow_and_ternarize_eval X m)))).
Proof.
  unfold epoch_view, shadow_and_ternarize_eval, rebase_shadow, to_ternary.
  destruct (is_first_or_last m) eqn:E; cbn [fst].
  - rewrite with_weight_eligible, E, weight_of_with_weight.
    cbn [org set_org set_data data fst].
    rewrite ?with_weight_eligible, ?weight_of_with_weight.
    cbn [org set_org set_data data delta alpha].
    rewrite ?with_weight_eligible.
    now repeat split.
  - rewrite E. reflexivity.
Qed.

Section TernaryEpoch.

Variable X : Collaborators.
Variable cfg : Config X.

Lemma validation_pass_modules (s : State X) :
  ternary cfg = true ->
  modules (fst (validation_pass cfg s))
  = map (fun m => fst (shadow_and_ternarize_eval X m)) (modules s).
Proof.
  intros Ht. unfold validation_pass. rewrite Ht. cbn [when].
  unfold bind at 1. unfold reset_meters at 1, modify at 1.
  rewrite preserves_rest.
  - rewrite for_modules_run by apply eval_never_raises. reflexivity.
  - intros _. frame;
      try apply validation_batch_modules;
      try (apply preserves_modify; intros; reflexivity).
Qed.

Lemma gate_modules :
  preserves (@modules X) (early_stopping_gate cfg).
Proof.
  frame; try (apply preserves_modify; intros; reflexivity).
Qed.

Lemma epoch_end_modules (s s' : State X) :
  ternary cfg = true ->
  epoch_end cfg s = (s', Ok false) ->
  modules s' = map (fun m => fst (rebase_shadow m)) (modules s).
Proof.
  intros Ht. unfold epoch_end, bind.
  pose proof (gate_modules s) as Hg.
  destruct (early_stopping_gate cfg s) as [s1 [[|] | e]]; cbn [fst] in Hg;
    try discriminate.
  rewrite Ht. cbn [when]. unfold emit, modify, for_modules. state_simpl.
  rewrite Hg.
  destruct (each_module rebase_shadow (modules s)) as [ms [e |]] eqn:Em;
    [discriminate |].
  intros H. injection H as <-. state_simpl.
  exact (each_module_ok _ _ Em).
Qed.

(** X10. What the code does to the weights of an epoch in ternary mode
    that completes without the early-stopping break, [s1] being the state
    the training pass leaves, [s2] the one the validation pass leaves and
    [s'] the one the epoch leaves.  The validation pass saves every
    eligible layer's trained weight in the shadow and installs the ternary
    tensor of the thresholds it recomputes from that weight (lines
    291-295); the copy that closes the epoch (lines 366-368) goes from the
    weight to the shadow, the reverse of the training step's restore, so
    that [s'] holds that ternary tensor both as weight and as shadow: the
    trained weight of an eligible layer is in neither, the stored
    thresholds are those of [s1], and the other layers are as the
    training pass left them. *)
Theorem epoch_leaves_ternary_weights (epoch : nat) (s : State X) :
  ternary cfg = true ->
  match training_pass cfg epoch s with
  | (s1, Ok _) =>
      match validation_pass cfg s1 with
      | (s2, Ok _) =>
          match epoch_end cfg s2 with
          | (s', Ok false) =>
              epoch_body cfg epoch s = (s', Ok false) /\
              Forall2 (validation_view X) (modules s1) (modules s2) /\
              Forall2 (epoch_view X) (modules s1) (modules s')
          | _ => True
          end
      | _ => True
      end
  | _ => True
  end.
Proof.
  intros Ht.
  destruct (training_pass cfg epoch s) as [s1 [[] | e]] eqn:E1; [| exact I].
  pose proof (validation_pass_modules s1 Ht) as Hv.
  destruct (validation_pass cfg s1) as [s2 [[] | e]] eqn:E2; [| exact I].
  cbn [fst] in Hv.
  destruct (epoch_end cfg s2) as [s' [[|] | e]] eqn:E3; try exact I.
  split; [| split].
  - unfold epoch_body, bind. now rewrite E1, E2, E3.
  - rewrite Hv. clear.
    induction (modules s1) as [| m ms IH]; simpl; constructor;
      [apply eval_view | exact IH].
  - rewrite (epoch_end_modules _ Ht E3), Hv, map_map. clear.
    induction (modules s1) as [| m ms IH]; simpl; constructor;
      [apply rebase_eval_epoch_view | exact IH].
Qed.

End TernaryEpoch.

(** On the run [Synthetic.ternary_run] the training pass leaves 43/100 as
    the first weight of the one layer, and the epoch leaves 63/100 as
    weight and as shadow. *)
Lemma epoch_leaves_ternary_weights_witness :
  first_weight (weights (modules Synthetic.after_training)) = (43 # 100)%Q /\
  first_weight (weights (modules Synthetic.after_epoch)) = (63 # 100)%Q /\
  snd (epoch_body Synthetic.ternary_run 1
         (fst (setup 0 1 (initial_state Synthetic.ternary_run []))))
  = Ok false /\
  match training_pass Synthetic.ternary_run 1
          (fst (setup 0 1 (initial_state Synthetic.ternary_run []))) with
  | (s1, Ok _) =>
      match validation_pass Synthetic.ternary_run s1 with
      | (s2, Ok _) =>
          match epoch_end Synthetic.ternary_run s2 with
          | (s', Ok false) =>
              epoch_body Synthetic.ternary_run 1
                (fst (setup 0 1 (initial_state Synthetic.ternary_run [])))
              = (s', Ok false) /\
              Forall2 (validation_view Synthetic.collaborators)
                      (modules s1) (modules s2) /\
              Forall2 (epoch_view Synthetic.collaborators)
                      (modules s1) (modules s')
          | _ => True
          end
      | _ => True
      end
  | _ => True
  end.
Proof.
  split; [vm_compute; reflexivity |].
  split; [vm_compute; reflexivity |].
  split; [vm_compute; reflexivity |].
  apply (@epoch_leaves_ternary_weights Synthetic.collaborators
           Synthetic.ternary_run 1
           (fst (setup 0 1 (initial_state Synthetic.ternary_run [])))).
  reflexivity.
Defined.

(* ------------------------------------------------------------------ *)
(** ** The histories of a run *)

Section Histories.

Variable X : Collaborators.
Variable cfg : Config X.

Lemma triple_of_history {A} (m : M X A) (kt kv : nat) :
  preserves (@history X) m ->
  triple (history_inv cfg kt kv) m (fun _ => history_inv cfg kt kv) anyhow.
Proof.
  intros Hm s Hs. specialize (Hm s). unfold wp.
  destruct (m s) as [s' [a | e]]; [| exact I].
  cbn [fst] in Hm. unfold history_inv in *. now rewrite Hm.
Qed.

Ltac history_frame :=
  frame;
  try (apply preserves_for_modules; intros; reflexivity);
  try (apply preserves_modify; intros; reflexivity).

Lemma training_columns (kt kv : nat) :
  triple (history_inv cfg kt kv)
         (bind (@get X) (fun s =>
            bind (append_column train_loss (loss_column cfg s)) (fun _ =>
            bind (append_column train_metrics (metrics_column s)) (fun _ =>
            append_column train_boxmetrics (boxmetrics_column s)))))
         (fun _ => history_inv cfg (S kt) kv) anyhow.
Proof.
  intros s Hs. unfold wp, bind, get, append_column, modify.
  unfold history_inv in *. state_simpl.
  intros h. destruct (Hs h) as [Hl Hc].
  destruct h; cbn [hist_id_eqb is_train_history] in *;
    rewrite ?length_app, ?Hl; cbn [List.length];
    (split; [lia |]);
    rewrite ?Forall_app; repeat split; try exact Hc;
    (constructor; [| constructor]);
    unfold loss_column; cbn [history_rows];
    destruct (disco_mode cfg); reflexivity.
Qed.

Lemma validation_columns (kt kv : nat) :
  triple (history_inv cfg kt kv)
         (bind (@get X) (fun s =>
            bind (append_column val_loss (loss_column cfg s)) (fun _ =>
            bind (append_column val_metrics (metrics_column s)) (fun _ =>
            append_column val_boxmetrics (boxmetrics_column s)))))
         (fun _ => history_inv cfg kt (S kv)) anyhow.
Proof.
  intros s Hs. unfold wp, bind, get, append_column, modify.
  unfold history_inv in *. state_simpl.
  intros h. destruct (Hs h) as [Hl Hc].
  destruct h; cbn [hist_id_eqb is_train_history] in *;
    rewrite ?length_app, ?Hl; cbn [List.length];
    (split; [lia |]);
    rewrite ?Forall_app; repeat split; try exact Hc;
    (constructor; [| constructor]);
    unfold loss_column; cbn [history_rows];
    destruct (disco_mode cfg); reflexivity.
Qed.

Lemma training_pass_history (epoch : nat) (kt kv : nat) :
  triple (history_inv cfg kt kv) (training_pass cfg epoch)
         (fun _ => history_inv cfg (S kt) kv) anyhow.
Proof.
  unfold training_pass.
  do 4 (apply (triple_bind (R := fun _ => history_inv cfg kt kv));
        [apply triple_of_history; history_frame | intros _]).
  apply training_columns.
Qed.

Lemma validation_pass_history (kt kv : nat) :
  triple (history_inv cfg kt kv) (validation_pass cfg)
         (fun _ => history_inv cfg kt (S kv)) anyhow.
Proof.
  unfold validation_pass.
  do 4 (apply (triple_bind (R := fun _ => history_inv cfg kt kv));
        [apply triple_of_history; history_frame | intros _]).
  apply validation_columns.
Qed.

Lemma epoch_end_history : preserves (@history X) (epoch_end cfg).
Proof. unfold epoch_end. history_frame. Qed.

Lemma for_epochs_history (epochs : list nat) :
  forall k,
    triple (history_inv cfg k k) (for_epochs cfg epochs)
           (fun _ s => exists j, j <= List.length epochs /\
                                 history_inv cfg (k + j) (k + j) s)
           anyhow.
Proof.
  induction epochs as [| epoch rest IH]; intros k; cbn [for_epochs].
  - apply triple_ret. intros s Hs. exists 0.
    rewrite Nat.add_0_r. split; [lia | exact Hs].
  - apply (triple_bind (R := fun _ => history_inv cfg (S k) (S k))).
    { unfold epoch_body.
      eapply triple_bind; [apply training_pass_history | intros ?; cbv beta].
      eapply triple_bind;
        [apply validation_pass_history | intros ?; cbv beta].
      apply triple_of_history, epoch_end_history. }
    intros [|].
    + apply triple_ret. intros s Hs. exists 1. cbn [List.length].
      rewrite Nat.add_1_r. split; [lia | exact Hs].
    + apply (triple_bind (R := fun _ => history_inv cfg (S k) (S k)));
        [apply triple_modify; trivial | intros _].
      eapply triple_weaken; [| | | apply IH];
        [intros s Hs; exact Hs | | intros e s H; exact H].
      intros _ s (j & Hj & Hs). exists (S j). cbn [List.length].
      rewrite <- Nat.add_succ_comm. split; [lia | exact Hs].
Qed.

End Histories.

(** X11. When a run of [execute] returns, the six histories it has built are
    aligned: each holds one column per epoch entered, and every column
    has the number of rows its history was created with, 3 or (in disco
    mode) 4 for the losses, 2 for the event metrics and 4 for the box
    metrics. *)
Theorem execute_histories (X : Collaborators) (cfg : Config X)
  (env : Environ) :
  match run cfg env with
  | (s', Ok _) =>
      exists k, k <= max_epochs cfg /\
        forall h,
          List.length (history s' h) = k /\
          Forall (fun column => List.length column = history_rows cfg h)
                 (history s' h)
  | (_, Raise _) => True
  end.
Proof.
  assert (wp (execute cfg)
             (fun _ s' => exists k, k <= max_epochs cfg /\
                                    history_inv cfg k k s')
             anyhow (initial_state cfg env)) as H.
  { unfold execute. apply wp_bind. unfold wp at 1. rewrite setup_run.
    apply (wp_triple (P := history_inv cfg 0 0)).
    - eapply triple_bind; [apply for_epochs_history | intros ?; cbv beta].
      unfold cleanup. apply triple_emit.
      intros s (j & Hj & Hs). exists j. rewrite length_seq in Hj.
      split; [exact Hj | exact Hs].
    - intros h. unfold initial_state. state_simpl.
      split; [now destruct (is_train_history h) | constructor]. }
  unfold wp in H. unfold run.
  destruct (execute cfg (initial_state cfg env)) as [s' [[] | e]];
    [| exact I].
  destruct H as (k & Hk & Hs). exists k. split; [exact Hk |].
  intros h. destruct (Hs h) as [Hl Hc]. split; [| exact Hc].
  rewrite Hl. now destruct (is_train_history h).
Qed.

(* ------------------------------------------------------------------ *)
(** ** Checkpoints *)

Section OtherRanks.

Variable X : Collaborators.
Variable cfg : Config X.
Hypothesis Hr : rank cfg <> 0.

Lemma gate_idle {T} (P : State X -> T) :
  preserves P (early_stopping_gate cfg).
Proof.
  unfold early_stopping_gate.
  destruct (Nat.eqb_spec (rank cfg) 0) as [E | _]; [contradiction |].
  apply preserves_ret.
Qed.

Ltac checkpoint_frame :=
  repeat first [apply gate_idle | frame_step];
  first [ apply preserves_for_modules; intros; reflexivity
        | apply preserves_modify; intros; unfold checkpoints; state_simpl;
          rewrite ?filter_app; cbn [filter]; rewrite ?app_nil_r;
          reflexivity ].

Lemma epoch_body_checkpoints (epoch : nat) :
  preserves (fun s : State X => (checkpoints s, cp_es s))
            (epoch_body cfg epoch).
Proof.
  unfold epoch_body, training_pass, validation_pass, epoch_end.
  repeat first [apply gate_idle | frame_step];
    try (unfold train_batch, optimizer_step);
    try (unfold validation_batch);
    checkpoint_frame.
Qed.

Lemma for_epochs_checkpoints (epochs : list nat) :
  preserves (fun s : State X => (checkpoints s, cp_es s))
            (for_epochs cfg epochs).
Proof.
  induction epochs as [| epoch rest IH]; simpl.
  - apply preserves_ret.
  - apply preserves_bind; [apply epoch_body_checkpoints |].
    intros [|]; [apply preserves_ret |].
    apply preserves_bind; [| intros _; exact IH].
    apply preserves_modify. intros s. reflexivity.
Qed.

(** X12. A rank other than 0 never consults the early-stopping gate: whether
    its run returns or raises, it has written no checkpoint and holds no
    gate. *)
Theorem checkpoints_on_rank_0_only (env : Environ) :
  checkpoints (fst (run cfg env)) = [] /\ cp_es (fst (run cfg env)) = None.
Proof.
  assert (preserves (fun s : State X => (checkpoints s, cp_es s))
                    (execute cfg)) as H.
  { unfold execute, setup, cleanup.
    repeat first [apply for_epochs_checkpoints | frame_step];
      apply preserves_modify; intros; unfold checkpoints; state_simpl;
      rewrite ?filter_app; cbn [filter]; rewrite ?app_nil_r; reflexivity. }
  specialize (H (initial_state cfg env)). unfold run.
  injection H as Hc He. rewrite Hc, He. unfold initial_state.
  unfold checkpoints. state_simpl.
  destruct (Nat.eqb_spec (rank cfg) 0) as [E | _]; [contradiction |].
  now split.
Qed.

End OtherRanks.

Lemma checkpoints_on_rank_0_only_witness :
  checkpoints (fst (run (Synthetic.two_ranks 1) [])) = [] /\
  cp_es (fst (run (Synthetic.two_ranks 1) [])) = None.
Proof.
  apply (@checkpoints_on_rank_0_only Synthetic.collaborators
           (Synthetic.two_ranks 1)).
  simpl. lia.
Defined.

(* ------------------------------------------------------------------ *)
(** ** The meters of a pass *)

Lemma counted_bump (X : Collaborators) (f : meter_id -> nat) (id : meter_id)
  (v : Q) (s : State X) :
  counted f s ->
  counted (bump id f)
    (set_meters (fun j => if meter_id_eqb id j
                          then meter_update v (meters s j)
                          else meters s j) s).
Proof.
  intros Hs j. state_simpl. unfold bump.
  destruct (meter_id_eqb id j); [cbn [meter_update m_count] |]; now rewrite Hs.
Qed.

Ltac counted_solve :=
  let s := fresh "s" in
  let Hs := fresh "Hs" in
  intros s Hs; unfold counted in *; state_simpl; exact Hs.

(** One statement of a batch: an update counts for its meter, everything
    else leaves the counts. *)
Ltac count_step :=
  lazymatch goal with
  | |- triple (@counted ?X ?f) (bind (update ?id _) _) _ _ =>
      apply (triple_bind (R := fun _ => @counted X (bump id f)));
      [ unfold update; apply triple_modify; intros ? ?;
        now apply counted_bump
      | intros ?; cbv beta zeta ]
  | |- triple (counted _) (bind (@get _) _) _ _ =>
      apply triple_get_any; intros ?; cbv beta zeta
  | |- triple (counted _) (bind (lift _) _) _ _ =>
      apply triple_lift_bind;
      [intros ? ?; cbv beta zeta | intros; exact Logic.I]
  | |- triple (@counted ?X ?f) (bind (ret _) _) _ _ =>
      apply (triple_bind (R := fun _ => @counted X f));
      [apply triple_ret; trivial | intros ?; cbv beta zeta]
  | |- triple (@counted ?X ?f) (bind _ _) _ _ =>
      keep_with (@counted X f) counted_solve
  end.

Section Meters.

Variable X : Collaborators.
Variable cfg : Config X.

Lemma triple_of_meters {A} (m : M X A) (f : meter_id -> nat) :
  preserves (@meters X) m ->
  triple (counted f) m (fun _ => counted f) anyhow.
Proof.
  intros Hm s Hs. specialize (Hm s). unfold wp.
  destruct (m s) as [s' [a | e]]; [| exact I].
  cbn [fst] in Hm. unfold counted in *. now rewrite Hm.
Qed.

Ltac meters_frame :=
  repeat frame_step;
  first [ apply preserves_for_modules; intros; reflexivity
        | apply preserves_modify; intros; reflexivity ].

Lemma modules_step_meters (b : bool) (f : Module -> Module * option exn) :
  preserves (@meters X) (when b (for_modules f)).
Proof. meters_frame. Qed.

Lemma optimizer_step_meters (g : grads X) :
  preserves (@meters X) (optimizer_step g).
Proof. unfold optimizer_step. meters_frame. Qed.

Lemma reduce_tensor_meters (x y z : Q) (d : option Q) :
  preserves (@meters X) (reduce_tensor cfg x y z d).
Proof. meters_frame. Qed.

Lemma log_meters (b : bool) : preserves (@meters X) (when b (@log_info X)).
Proof. meters_frame. Qed.

Lemma columns_meters (h1 h2 h3 : hist_id) :
  preserves (@meters X)
    (bind (@get X) (fun s =>
       bind (append_column h1 (loss_column cfg s)) (fun _ =>
       bind (append_column h2 (metrics_column s)) (fun _ =>
       append_column h3 (boxmetrics_column s))))).
Proof. meters_frame. Qed.

Lemma bumped_counts (k : nat) (s : State X) :
  counted (bump eventRec (bump eventPre (bump boxRecQCD (bump boxRecSUEP
            (bump boxPreQCD (bump boxPreSUEP (bump reg (bump cls (bump loc
               (if disco_mode cfg then bump disco (pass_counts cfg k)
                else pass_counts cfg k)))))))))) s ->
  counted (pass_counts cfg (S k)) s.
Proof.
  intros H id. rewrite (H id). unfold pass_counts.
  destruct (disco_mode cfg), id; reflexivity.
Qed.

Lemma train_batch_counts (epoch : nat) (b : batch X) (k : nat) :
  triple (counted (pass_counts cfg k)) (train_batch cfg epoch b)
         (fun _ => counted (pass_counts cfg (S k))) anyhow.
Proof.
  eapply triple_weaken;
    [intros s Hs; exact Hs | intros u s; apply bumped_counts
    | intros e s H; exact H |].
  unfold train_batch.
  eapply triple_bind;
    [apply triple_of_meters, modules_step_meters | intros ?; cbv beta].
  do 4 count_step.
  apply (triple_bind
           (R := fun _ => counted (if disco_mode cfg
                                   then bump disco (pass_counts cfg k)
                                   else pass_counts cfg k))).
  { apply triple_when; intros Hd; rewrite Hd; [| trivial].
    unfold update. apply triple_modify. intros s Hs.
    now apply counted_bump. }
  intros _.
  do 15 count_step.
  apply triple_get_any; intros ?; cbv beta zeta.
  eapply triple_bind;
    [apply triple_of_meters, modules_step_meters | intros ?; cbv beta].
  eapply triple_bind;
    [apply triple_of_meters, optimizer_step_meters | intros ?; cbv beta].
  eapply triple_bind;
    [apply triple_of_meters, modules_step_meters | intros ?; cbv beta].
  apply triple_get_any; intros ?; cbv beta zeta.
  apply triple_modify. counted_solve.
Qed.

Lemma validation_batch_counts (b : batch X) (k : nat) :
  triple (counted (pass_counts cfg k)) (validation_batch cfg b)
         (fun _ => counted (pass_counts cfg (S k))) anyhow.
Proof.
  eapply triple_weaken;
    [intros s Hs; exact Hs | intros u s; apply bumped_counts
    | intros e s H; exact H |].
  unfold validation_batch.
  do 2 count_step.
  apply (triple_bind
           (R := fun _ => counted (if disco_mode cfg
                                   then bump disco (pass_counts cfg k)
                                   else pass_counts cfg k))).
  { destruct (disco_mode cfg).
    - apply (triple_bind
               (R := fun lcrd s => counted (pass_counts cfg k) s /\
                                   is_some (snd lcrd) = true)).
      + unfold reduce_tensor.
        do 6 (eapply triple_bind;
              [apply triple_of_meters; meters_frame | intros ?; cbv beta]).
        do 2 (eapply triple_bind;
              [apply triple_of_meters; meters_frame | intros ?; cbv beta]).
        apply triple_ret. intros s Hs. now split.
      + intros lcrd.
        apply (triple_bind
                 (R := fun _ => counted (bump disco (pass_counts cfg k))));
          [| intros _; apply triple_ret; trivial].
        intros s [Hs Hd]. destruct (snd lcrd); [| discriminate Hd].
        unfold update, modify. cbv beta iota. now apply counted_bump.
    - eapply triple_bind;
        [apply triple_of_meters, reduce_tensor_meters | intros ?; cbv beta].
      apply triple_ret. trivial. }
  intros lcr; cbv beta.
  do 23 count_step.
  apply triple_get_any; intros ?; cbv beta zeta.
  apply triple_modify. counted_solve.
Qed.

Lemma reset_counts (P : State X -> Prop) :
  triple P (@reset_meters X) (fun _ => counted (pass_counts cfg 0)) anyhow.
Proof.
  unfold reset_meters. apply triple_modify. intros s _ id. state_simpl.
  unfold pass_counts. destruct id, (disco_mode cfg); reflexivity.
Qed.

(** X13. The meters are reset when a pass begins and every batch of the
    pass updates each of them once, the one of the decorrelation term in
    disco mode only: when a pass returns, the number of values each meter
    has taken since its reset is the number of batches its loader yields.
    The values themselves are not the subject here: the box meters of a
    validation pass, for one, take the [boxMetrics] of the training
    loop. *)
Theorem pass_meter_counts (epoch : nat) (s : State X) :
  match training_pass cfg epoch s with
  | (s', Ok _) =>
      forall id, m_count (meters s' id)
                 = pass_counts cfg (List.length (train_loader cfg)) id
  | (_, Raise _) => True
  end /\
  match validation_pass cfg s with
  | (s', Ok _) =>
      forall id, m_count (meters s' id)
                 = pass_counts cfg (List.length (val_loader cfg)) id
  | (_, Raise _) => True
  end.
Proof.
  split.
  - assert (triple (fun _ => True) (training_pass cfg epoch)
              (fun _ => counted (pass_counts cfg
                                   (0 + List.length (train_loader cfg))))
              anyhow) as H.
    { unfold training_pass.
      eapply triple_bind; [apply reset_counts | intros ?; cbv beta].
      eapply triple_bind;
        [apply triple_of_meters, modules_step_meters | intros ?; cbv beta].
      eapply triple_bind;
        [apply (triple_for_each (fun k => counted (pass_counts cfg k)));
         intros b k _; apply train_batch_counts
        | intros ?; cbv beta].
      eapply triple_bind;
        [apply triple_of_meters, log_meters | intros ?; cbv beta].
      apply triple_of_meters, columns_meters. }
    specialize (H s Logic.I). unfold wp in H.
    destruct (training_pass cfg epoch s) as [s' [[] | e]]; exact H.
  - assert (triple (fun _ => True) (validation_pass cfg)
              (fun _ => counted (pass_counts cfg
                                   (0 + List.length (val_loader cfg))))
              anyhow) as H.
    { unfold validation_pass.
      eapply triple_bind; [apply reset_counts | intros ?; cbv beta].
      eapply triple_bind;
        [apply triple_of_meters, modules_step_meters | intros ?; cbv beta].
      eapply triple_bind;
        [apply (triple_for_each (fun k => counted (pass_counts cfg k)));
         intros b k _; apply validation_batch_counts
        | intros ?; cbv beta].
      eapply triple_bind;
        [apply triple_of_meters, log_meters | intros ?; cbv beta].
      apply triple_of_meters, columns_meters. }
    specialize (H s Logic.I). unfold wp in H.
    destruct (validation_pass cfg s) as [s' [[] | e]]; exact H.
Qed.

End Meters.
